(** * SmartNewsSynthesizer: a shallow embedding of the retrieval pipeline

    The development follows the Python sources module by module:
    [app/ingestion.py] (chunker, document store), [app/embed_index.py]
    (corpus collection, index query), [app/rag.py] (evidence assembly, prompt,
    the [run_rag] pipeline), [app/ollama_client.py] (generation request and
    response parser), [app/news_fetcher.py] (article query) and
    [app/streamlit_app.py] (the line layout of the PDF export).

    Python values are modelled as they are at run time: a [str] is a sequence
    of Unicode code points, a [dict] keeps its insertion order, operations
    that can raise return a [result]. *)

From Stdlib Require Import ZArith NArith List Ascii String Lia Bool SpecFloat.
From stdpp Require Import base option list sorting gmap.

Local Open Scope Z_scope.
Set Warnings "-register-all".

(** ** Python strings and the builtins the sources use *)

Module Py.

(** A [str] is a sequence of code points. *)
Definition pystr := list N.

(** String literals of the sources, written as Rocq strings. *)
Fixpoint lit (s : string) : pystr :=
  match s with
  | EmptyString => []
  | String a s' => N_of_ascii a :: lit s'
  end.

(** [str.isspace] on one code point (the table behind [str.split] and
    [str.strip] without arguments). *)
Definition isspace (c : N) : bool :=
  ((9 <=? c) && (c <=? 13) || (28 <=? c) && (c <=? 32)
   || (c =? 133) || (c =? 160) || (c =? 5760)
   || (8192 <=? c) && (c <=? 8202)
   || (c =? 8232) || (c =? 8233) || (c =? 8239) || (c =? 8287)
   || (c =? 12288))%N.

(** [text.split()]: maximal runs of non-whitespace, in order; [cur] is the
    word being read. *)
Fixpoint split_ws (cur : pystr) (s : pystr) : list pystr :=
  match s with
  | [] => match cur with [] => [] | _ => [cur] end
  | ch :: s' =>
      if isspace ch
      then match cur with
           | [] => split_ws [] s'
           | _ => cur :: split_ws [] s'
           end
      else split_ws (cur ++ [ch]) s'
  end.

Definition split (s : pystr) : list pystr := split_ws [] s.

(** [sep.join(parts)] *)
Fixpoint join (sep : pystr) (parts : list pystr) : pystr :=
  match parts with
  | [] => []
  | [w] => w
  | w :: rest => w ++ sep ++ join sep rest
  end.

(** [s.split(sep)] for a separator of one character: the pieces between
    the separators, empty pieces included; [cur] is the piece being read. *)
Fixpoint split_on (sep : N) (cur : pystr) (s : pystr) : list pystr :=
  match s with
  | [] => [cur]
  | ch :: s' =>
      if (ch =? sep)%N then cur :: split_on sep [] s'
      else split_on sep (cur ++ [ch]) s'
  end.

(** [s.strip()] *)
Fixpoint lstrip (s : pystr) : pystr :=
  match s with
  | [] => []
  | ch :: s' => if isspace ch then lstrip s' else s
  end.

Definition rstrip (s : pystr) : pystr := rev (lstrip (rev s)).

Definition strip (s : pystr) : pystr := rstrip (lstrip s).

(** Slice bounds: a negative bound counts from the end, and both bounds are
    clamped to [0, len]. *)
Definition clamp_index (n i : Z) : Z :=
  if i <? 0 then Z.max (i + n) 0 else Z.min i n.

(** [l[lo:hi]] *)
Definition slice {A} (l : list A) (lo hi : Z) : list A :=
  let n := Z.of_nat (length l) in
  let a := clamp_index n lo in
  let b := clamp_index n hi in
  take (Z.to_nat (b - a)) (drop (Z.to_nat a) l).

(** [l[i]]: a negative index counts from the end; out of range raises
    IndexError ([None]). *)
Definition index {A} (l : list A) (i : Z) : option A :=
  let n := Z.of_nat (length l) in
  if i <? 0
  then (if 0 <=? i + n then l !! Z.to_nat (i + n) else None)
  else l !! Z.to_nat i.

(** *** Exceptions *)

Inductive exn :=
| RuntimeError (msg : pystr)
| TypeError
| KeyError
| IndexError
| AttributeError
| JSONDecodeError        (* a subclass of ValueError *)
| UnicodeEncodeError
| OSError
| OutOfFuel.             (* the embedding ran out of fuel *)

Inductive result (A : Type) :=
| Ok (a : A)
| Raise (e : exn).
Arguments Ok {A} a.
Arguments Raise {A} e.

Definition bind {A B} (r : result A) (k : A → result B) : result B :=
  match r with
  | Ok a => k a
  | Raise e => Raise e
  end.

#[global] Instance result_bind : MBind result := λ A B k r, bind r k.
#[global] Instance result_ret : MRet result := @Ok.

Definition of_option {A} (o : option A) (e : exn) : result A :=
  match o with
  | Some a => Ok a
  | None => Raise e
  end.

(** *** Values *)

(** The values that flow through the pipeline are those of JSON documents:
    [None], [bool], [int], [float], [str], [list] and [dict] with [str] keys
    (kept in insertion order). *)
Inductive pyval :=
| PNone
| PBool (b : bool)
| PInt (z : Z)
| PFloat (f : spec_float)
| PStr (s : pystr)
| PList (l : list pyval)
| PDict (d : list (pystr * pyval)).

Definition streq (a b : pystr) : bool := bool_decide (a = b).

(** [bool(v)] *)
Definition truthy (v : pyval) : bool :=
  match v with
  | PNone => false
  | PBool b => b
  | PInt z => negb (z =? 0)
  | PFloat (S754_zero _) => false
  | PFloat _ => true
  | PStr s => match s with [] => false | _ => true end
  | PList l => match l with [] => false | _ => true end
  | PDict d => match d with [] => false | _ => true end
  end.

(** [a or b] *)
Definition py_or (a b : pyval) : pyval := if truthy a then a else b.

(** [d.get(k)] on the entries of a dict: the value, or nothing when the key
    is absent. *)
Fixpoint dict_get {V} (d : list (pystr * V)) (k : pystr) : option V :=
  match d with
  | [] => None
  | (k', v) :: d' => if streq k' k then Some v else dict_get d' k
  end.

(** [d[k] = v]: an existing key keeps its place, a new key goes last. *)
Fixpoint dict_set {V} (d : list (pystr * V)) (k : pystr) (v : V)
    : list (pystr * V) :=
  match d with
  | [] => [(k, v)]
  | (k', v') :: d' =>
      if streq k' k then (k', v) :: d' else (k', v') :: dict_set d' k v
  end.

(** [dict(pairs)] *)
Definition dict_of_pairs {V} (pairs : list (pystr * V)) : list (pystr * V) :=
  foldl (λ d kv, dict_set d kv.1 kv.2) [] pairs.

(** [v.get(k)] and [v.get(k, default)]: only a dict has [get]. *)
Definition get (v : pyval) (k : pystr) (default : pyval) : result pyval :=
  match v with
  | PDict d => Ok (from_option id default (dict_get d k))
  | _ => Raise AttributeError
  end.

(** [isinstance(v, int)]: [bool] is a subclass of [int]. *)
Definition as_int (v : pyval) : option Z :=
  match v with
  | PBool b => Some (if b then 1 else 0)
  | PInt z => Some z
  | _ => None
  end.

(** [len(v)] *)
Definition len (v : pyval) : result Z :=
  match v with
  | PStr s => Ok (Z.of_nat (length s))
  | PList l => Ok (Z.of_nat (length l))
  | PDict d => Ok (Z.of_nat (length d))
  | _ => Raise TypeError
  end.

(** [v[i]] for an int [i]. A dict from a JSON document has only [str] keys,
    so an int key is never found. *)
Definition getitem_int (v : pyval) (i : Z) : result pyval :=
  match v with
  | PStr s => of_option ((λ ch, PStr [ch]) <$> index s i) IndexError
  | PList l => of_option (index l i) IndexError
  | PDict _ => Raise KeyError
  | _ => Raise TypeError
  end.

(** Iterating over a value ([for x in v], [enumerate(v)]): the elements of
    a list, the characters of a str, the keys of a dict. *)
Definition iter (v : pyval) : result (list pyval) :=
  match v with
  | PStr s => Ok (map (λ ch, PStr [ch]) s)
  | PList l => Ok l
  | PDict d => Ok (map (λ kv, PStr kv.1) d)
  | _ => Raise TypeError
  end.

(** *** Hashable keys *)

Definition hashable (v : pyval) : bool :=
  match v with
  | PList _ | PDict _ => false
  | _ => true
  end.

(** [float == int], exact. *)
Definition float_eq_int (f : spec_float) (z : Z) : bool :=
  match f with
  | S754_zero _ => z =? 0
  | S754_finite sg m e =>
      let sm := if sg then Z.neg m else Z.pos m in
      if 0 <=? e then z =? sm * 2 ^ e else z * 2 ^ (- e) =? sm
  | _ => false
  end.

(** [a == b] on hashable values of different identity, as a dict lookup
    compares keys: numbers compare by value across [bool], [int] and
    [float]. *)
Definition key_eqb (a b : pyval) : bool :=
  match a, b with
  | PNone, PNone => true
  | PStr s, PStr t => streq s t
  | PFloat f, PFloat g => SFeqb f g
  | PFloat f, _ => from_option (float_eq_int f) false (as_int b)
  | _, PFloat g => from_option (float_eq_int g) false (as_int a)
  | _, _ =>
      match as_int a, as_int b with
      | Some x, Some y => x =? y
      | _, _ => false
      end
  end.

End Py.

(** ** Python's [json] decoder, as the sources call it *)

Module Json.
Import Py.

Definition is_ws (c : N) : bool :=
  ((c =? 32) || (c =? 9) || (c =? 10) || (c =? 13))%N.

(** [WHITESPACE.match(s, end).end()] *)
Fixpoint skip_ws (l : pystr) : pystr :=
  match l with
  | [] => []
  | c :: l' => if is_ws c then skip_ws l' else l
  end.

Definition is_digit (c : N) : bool := ((48 <=? c) && (c <=? 57))%N.

Definition hex_value (c : N) : option N :=
  if is_digit c then Some (c - 48)%N
  else if ((65 <=? c) && (c <=? 70))%N then Some (c - 55)%N
  else if ((97 <=? c) && (c <=? 102))%N then Some (c - 87)%N
  else None.

(** [s[i:i+n] == p] *)
Fixpoint starts_with (p l : pystr) : bool :=
  match p, l with
  | [], _ => true
  | _ :: _, [] => false
  | a :: p', b :: l' => (a =? b)%N && starts_with p' l'
  end.

(** [_decode_uXXXX]: four hex digits after the [u]. *)
Definition decode_uXXXX (l : pystr) : result N :=
  match l with
  | a :: b :: c :: d :: _ =>
      match hex_value a, hex_value b, hex_value c, hex_value d with
      | Some x, Some y, Some z, Some w => Ok (((x * 16 + y) * 16 + z) * 16 + w)%N
      | _, _, _, _ => Raise JSONDecodeError
      end
  | _ => Raise JSONDecodeError
  end.

(** The [BACKSLASH] table. *)
Definition backslash (esc : N) : option N :=
  if (esc =? 34)%N then Some 34%N            (* quote *)
  else if (esc =? 92)%N then Some 92%N       (* backslash *)
  else if (esc =? 47)%N then Some 47%N       (* slash *)
  else if (esc =? 98)%N then Some 8%N        (* b *)
  else if (esc =? 102)%N then Some 12%N      (* f *)
  else if (esc =? 110)%N then Some 10%N      (* n *)
  else if (esc =? 114)%N then Some 13%N      (* r *)
  else if (esc =? 116)%N then Some 9%N       (* t *)
  else None.

(** [scanstring(s, end, strict=True)], reading after the opening quote. *)
Fixpoint scanstring (fuel : nat) (l : pystr) (acc : pystr)
    : result (pystr * pystr) :=
  match fuel with
  | O => Raise OutOfFuel
  | S fuel' =>
      match l with
      | [] => Raise JSONDecodeError
      | c :: l' =>
          if (c =? 34)%N then Ok (acc, l')
          else if (c =? 92)%N then
            match l' with
            | [] => Raise JSONDecodeError
            | esc :: l'' =>
                if (esc =? 117)%N then
                  uni ← decode_uXXXX l'';
                  let l3 := drop 4 l'' in
                  if ((55296 <=? uni) && (uni <=? 56319))%N
                     && starts_with [92; 117]%N l3
                  then
                    uni2 ← decode_uXXXX (drop 2 l3);
                    if ((56320 <=? uni2) && (uni2 <=? 57343))%N
                    then scanstring fuel' (drop 6 l3)
                           (acc ++ [65536 + N.lor (N.shiftl (uni - 55296) 10)
                                                  (uni2 - 56320)])%N
                    else scanstring fuel' l3 (acc ++ [uni])
                  else scanstring fuel' l3 (acc ++ [uni])
                else
                  match backslash esc with
                  | Some ch => scanstring fuel' l'' (acc ++ [ch])
                  | None => Raise JSONDecodeError
                  end
            end
          else if (c <? 32)%N then Raise JSONDecodeError
          else scanstring fuel' l' (acc ++ [c])
      end
  end.

(** [NUMBER_RE]: an optional minus sign and either 0 or a digit 1-9 with
    any digits after it; then optionally a dot with one digit or more; then
    optionally e or E, an optional sign and one digit or more. *)
Fixpoint span_digits (l : pystr) : pystr * pystr :=
  match l with
  | [] => ([], [])
  | c :: l' =>
      if is_digit c
      then let '(ds, r) := span_digits l' in (c :: ds, r)
      else ([], l)
  end.

Definition match_integer (l : pystr) : option (pystr * pystr) :=
  let '(sign, l1) :=
    match l with
    | c :: l' => if (c =? 45)%N then ([45%N], l') else ([], l)
    | [] => ([], l)
    end in
  match l1 with
  | c :: l2 =>
      if (c =? 48)%N then Some (sign ++ [c], l2)
      else if is_digit c
      then let '(ds, r) := span_digits l2 in Some (sign ++ c :: ds, r)
      else None
  | [] => None
  end.

Definition match_frac (l : pystr) : pystr * pystr :=
  match l with
  | c :: l' =>
      if (c =? 46)%N
      then match span_digits l' with
           | ([], _) => ([], l)
           | (ds, r) => (c :: ds, r)
           end
      else ([], l)
  | [] => ([], l)
  end.

Definition match_exp (l : pystr) : pystr * pystr :=
  match l with
  | c :: l' =>
      if ((c =? 101) || (c =? 69))%N
      then
        let '(sign, l2) :=
          match l' with
          | sg :: l'' => if ((sg =? 45) || (sg =? 43))%N then ([sg], l'') else ([], l')
          | [] => ([], l')
          end in
        match span_digits l2 with
        | ([], _) => ([], l)
        | (ds, r) => (c :: sign ++ ds, r)
        end
      else ([], l)
  | [] => ([], l)
  end.

(** [int(text)] on what [NUMBER_RE]'s first group matched. The limits that
    an interpreter is configured with (the digits of an [int] conversion,
    the recursion depth) are not part of the embedding: integers are
    unbounded and nesting is bounded by the fuel only. *)
Definition digits_value (ds : pystr) : Z :=
  foldl (λ acc c, acc * 10 + Z.of_N (c - 48)) 0 ds.

Definition parse_int (text : pystr) : Z :=
  match text with
  | c :: ds => if (c =? 45)%N then - digits_value ds else digits_value text
  | [] => 0
  end.

Section Decoder.
(** The decoder's [parse_float] hook ([float] unless configured). *)
Variable parse_float : pystr → spec_float.

(** [scan_once], with [JSONObject] and [JSONArray]; a [StopIteration] is
    reported as the [JSONDecodeError] that [raw_decode] and the parsers
    turn it into. *)
Fixpoint scan_once (fuel : nat) (l : pystr) : result (pyval * pystr) :=
  match fuel with
  | O => Raise OutOfFuel
  | S fuel' =>
      match l with
      | [] => Raise JSONDecodeError
      | c :: l' =>
          if (c =? 34)%N then
            '(str, r) ← scanstring (S (length l')) l' []; Ok (PStr str, r)
          else if (c =? 123)%N then json_object fuel' l'
          else if (c =? 91)%N then json_array fuel' l'
          else if starts_with (lit "null") l then Ok (PNone, drop 4 l)
          else if starts_with (lit "true") l then Ok (PBool true, drop 4 l)
          else if starts_with (lit "false") l then Ok (PBool false, drop 5 l)
          else
            match match_integer l with
            | Some (integer, r1) =>
                let '(frac, r2) := match_frac r1 in
                let '(exp, r3) := match_exp r2 in
                match frac, exp with
                | [], [] => Ok (PInt (parse_int integer), r3)
                | _, _ => Ok (PFloat (parse_float (integer ++ frac ++ exp)), r3)
                end
            | None =>
                if starts_with (lit "NaN") l then Ok (PFloat S754_nan, drop 3 l)
                else if starts_with (lit "Infinity") l
                then Ok (PFloat (S754_infinity false), drop 8 l)
                else if starts_with (lit "-Infinity") l
                then Ok (PFloat (S754_infinity true), drop 9 l)
                else Raise JSONDecodeError
            end
      end
  end
(** after the opening brace *)
with json_object (fuel : nat) (l : pystr) : result (pyval * pystr) :=
  match fuel with
  | O => Raise OutOfFuel
  | S fuel' =>
      match skip_ws l with
      | c :: l1 =>
          if (c =? 125)%N then Ok (PDict [], l1)
          else if (c =? 34)%N then object_members fuel' l1 []
          else Raise JSONDecodeError
      | [] => Raise JSONDecodeError
      end
  end
(** the [while True] loop of [JSONObject], after a key's opening quote *)
with object_members (fuel : nat) (l : pystr) (pairs : list (pystr * pyval))
    : result (pyval * pystr) :=
  match fuel with
  | O => Raise OutOfFuel
  | S fuel' =>
      '(key, l1) ← scanstring (S (length l)) l [];
      match skip_ws l1 with
      | c :: l2 =>
          if (c =? 58)%N then
            '(value, l3) ← scan_once fuel' (skip_ws l2);
            let pairs' := pairs ++ [(key, value)] in
            match skip_ws l3 with
            | c' :: l4 =>
                if (c' =? 125)%N then Ok (PDict (dict_of_pairs pairs'), l4)
                else if (c' =? 44)%N then
                  match skip_ws l4 with
                  | c'' :: l5 =>
                      if (c'' =? 34)%N then object_members fuel' l5 pairs'
                      else Raise JSONDecodeError
                  | [] => Raise JSONDecodeError
                  end
                else Raise JSONDecodeError
            | [] => Raise JSONDecodeError
            end
          else Raise JSONDecodeError
      | [] => Raise JSONDecodeError
      end
  end
(** after the opening bracket *)
with json_array (fuel : nat) (l : pystr) : result (pyval * pystr) :=
  match fuel with
  | O => Raise OutOfFuel
  | S fuel' =>
      match skip_ws l with
      | c :: l1 =>
          if (c =? 93)%N then Ok (PList [], l1)
          else array_elems fuel' (c :: l1) []
      | [] => array_elems fuel' [] []
      end
  end
(** the [while True] loop of [JSONArray] *)
with array_elems (fuel : nat) (l : pystr) (values : list pyval)
    : result (pyval * pystr) :=
  match fuel with
  | O => Raise OutOfFuel
  | S fuel' =>
      '(value, l1) ← scan_once fuel' l;
      let values' := values ++ [value] in
      match skip_ws l1 with
      | c :: l2 =>
          if (c =? 93)%N then Ok (PList values', l2)
          else if (c =? 44)%N then array_elems fuel' (skip_ws l2) values'
          else Raise JSONDecodeError
      | [] => Raise JSONDecodeError
      end
  end.

(** Every nesting level reads at least one character and takes at most
    three calls. *)
Definition fuel_for (s : pystr) : nat := 3 * length s + 3.

(** [JSONDecoder.raw_decode(s, idx)]: the value that starts at [idx] and
    the index where it ends. *)
Definition raw_decode (s : pystr) (idx : nat) : result (pyval * nat) :=
  '(v, rest) ← scan_once (fuel_for s) (drop idx s);
  Ok (v, (length s - length rest)%nat).

(** [json.loads(s)] *)
Definition loads (s : pystr) : result pyval :=
  if starts_with [65279%N] s then Raise JSONDecodeError
  else
    '(v, e) ← raw_decode s (length s - length (skip_ws s));
    match skip_ws (drop e s) with
    | [] => Ok v
    | _ => Raise JSONDecodeError
    end.
End Decoder.

End Json.

(** ** Python's [hashlib.sha1] and [str.encode] *)

Module Hashlib.
Import Py.

(** [s.encode()]: UTF-8; a surrogate cannot be encoded. *)
Definition utf8_code_point (c : N) : option (list Z) :=
  let z := Z.of_N c in
  if z <? 128 then Some [z]
  else if z <? 2048 then
    Some [Z.lor 192 (Z.shiftr z 6); Z.lor 128 (Z.land z 63)]
  else if z <? 65536 then
    if (55296 <=? z) && (z <=? 57343) then None
    else Some [Z.lor 224 (Z.shiftr z 12);
               Z.lor 128 (Z.land (Z.shiftr z 6) 63);
               Z.lor 128 (Z.land z 63)]
  else if z <? 1114112 then
    Some [Z.lor 240 (Z.shiftr z 18);
          Z.lor 128 (Z.land (Z.shiftr z 12) 63);
          Z.lor 128 (Z.land (Z.shiftr z 6) 63);
          Z.lor 128 (Z.land z 63)]
  else None.

Fixpoint encode (s : pystr) : option (list Z) :=
  match s with
  | [] => Some []
  | c :: s' =>
      match utf8_code_point c, encode s' with
      | Some bs, Some rest => Some (bs ++ rest)
      | _, _ => None
      end
  end.

(** 32-bit words: addition wraps, rotation is circular. *)
Definition mask32 (x : Z) : Z := Z.land x 4294967295.
Definition add32 (x y : Z) : Z := mask32 (x + y).
Definition rotl32 (n x : Z) : Z :=
  mask32 (Z.lor (Z.shiftl x n) (Z.shiftr x (32 - n))).

(** Big-endian bytes of a number, [n] bytes wide. *)
Fixpoint be_bytes (n : nat) (x : Z) : list Z :=
  match n with
  | O => []
  | S n' => be_bytes n' (Z.shiftr x 8) ++ [Z.land x 255]
  end.

Definition be_word (bs : list Z) : Z := foldl (λ acc b, acc * 256 + b) 0 bs.

(** Padding: a 1 bit, zeros up to 56 mod 64 bytes, the bit length on 8
    bytes. *)
Definition pad (msg : list Z) : list Z :=
  let n := length msg in
  let zeros := ((64 - (n + 9) mod 64) mod 64)%nat in
  msg ++ [128] ++ repeat 0 zeros ++ be_bytes 8 (8 * Z.of_nat n).

Fixpoint group (size count : nat) (bs : list Z) : list (list Z) :=
  match count with
  | O => []
  | S count' => take size bs :: group size count' (drop size bs)
  end.

(** The 80-word message schedule of one block. *)
Fixpoint schedule (extra : nat) (w : list Z) : list Z :=
  match extra with
  | O => w
  | S extra' =>
      let t := length w in
      let at_ (k : nat) := nth (t - k) w 0 in
      schedule extra'
        (w ++ [rotl32 1 (Z.lxor (Z.lxor (at_ 3%nat) (at_ 8%nat))
                                (Z.lxor (at_ 14%nat) (at_ 16%nat)))])
  end.

Definition lnot32 (x : Z) : Z := Z.lxor x 4294967295.

Definition round (st : Z * Z * Z * Z * Z) (tw : nat * Z) : Z * Z * Z * Z * Z :=
  let '(a, b, c, d, e) := st in
  let '(t, w) := tw in
  let '(f, k) :=
    if (t <? 20)%nat then (Z.lor (Z.land b c) (Z.land (lnot32 b) d), 1518500249)
    else if (t <? 40)%nat then (Z.lxor (Z.lxor b c) d, 1859775393)
    else if (t <? 60)%nat
    then (Z.lor (Z.lor (Z.land b c) (Z.land b d)) (Z.land c d), 2400959708)
    else (Z.lxor (Z.lxor b c) d, 3395469782) in
  let temp := add32 (add32 (add32 (add32 (rotl32 5 a) f) e) k) w in
  (temp, a, rotl32 30 b, c, d).

Definition compress (h : Z * Z * Z * Z * Z) (block : list Z) : Z * Z * Z * Z * Z :=
  let w := schedule 64 (map be_word (group 4 16 block)) in
  let '(h0, h1, h2, h3, h4) := h in
  let '(a, b, c, d, e) := foldl round h (imap (λ t x, (t, x)) w) in
  (add32 h0 a, add32 h1 b, add32 h2 c, add32 h3 d, add32 h4 e).

Definition sha1 (msg : list Z) : list Z :=
  let padded := pad msg in
  let '(h0, h1, h2, h3, h4) :=
    foldl compress (1732584193, 4023233417, 2562383102, 271733878, 3285377520)
          (group 64 (length padded / 64) padded) in
  be_bytes 4 h0 ++ be_bytes 4 h1 ++ be_bytes 4 h2 ++ be_bytes 4 h3 ++ be_bytes 4 h4.

Definition hex_digit (x : Z) : N :=
  if x <? 10 then Z.to_N (48 + x) else Z.to_N (87 + x).

(** [hexdigest()] *)
Definition hexdigest (digest : list Z) : pystr :=
  flat_map (λ b, [hex_digit (Z.shiftr b 4); hex_digit (Z.land b 15)]) digest.

End Hashlib.

(** ** The on-disk article corpus *)

Module Store.
Import Py.

(** What [open] and [json.load] make of a file: the JSON document it holds,
    or the exception they raise on it. *)
Inductive file :=
| JsonDoc (v : pyval)
| Unreadable (e : exn).

(** The files under the working directory by relative path, in the order
    the operating system lists them. *)
Definition fs := list (pystr * file).

Fixpoint ends_with (suffix s : pystr) : bool :=
  if bool_decide (s = suffix) then true
  else match s with
       | [] => false
       | _ :: s' => ends_with suffix s'
       end.

(** A path that the pattern [data/*.json] matches: an entry of [data] whose
    name ends in [.json] and is not hidden. *)
Definition is_data_json (p : pystr) : bool :=
  let name := drop 5 p in
  Json.starts_with (lit "data/") p
  && negb (bool_decide (47%N ∈ name))
  && ends_with (lit ".json") name
  && negb (Json.starts_with (lit ".") name).

(** [glob.glob("data/*.json")] *)
Definition glob_data_json (files : fs) : list pystr :=
  filter (λ p, Is_true (is_data_json p)) (map fst files).

(** [with open(p) as f: json.load(f)] *)
Definition read_json (files : fs) (p : pystr) : result pyval :=
  match dict_get files p with
  | Some (JsonDoc v) => Ok v
  | Some (Unreadable e) => Raise e
  | None => Raise OSError
  end.

(** What [json.dump(v, f, ensure_ascii=False)] can write to a file opened
    with [encoding="utf-8"]: the dump hands every [str] of [v], the keys
    included, to the file as it is, and the file refuses a string that
    UTF-8 cannot encode (a lone surrogate). *)
Definition encodable (s : pystr) : bool :=
  match Hashlib.encode s with
  | Some _ => true
  | None => false
  end.

Fixpoint dumpable (v : pyval) : bool :=
  match v with
  | PStr s => encodable s
  | PList l => forallb dumpable l
  | PDict d => forallb (λ kv, encodable kv.1 && dumpable kv.2) d
  | _ => true
  end.

(** [with open(p, "w", encoding="utf-8") as f: json.dump(v, f,
    ensure_ascii=False, indent=2)]. [open] creates or truncates the file.
    When a string of [v] cannot be encoded, the dump raises
    [UnicodeEncodeError] part-way and the file is left with the beginning
    of the document, on which [json.load] raises. Every other value of a
    JSON document can be written; a failing disk is not modelled. *)
Definition write_json (files : fs) (p : pystr) (v : pyval) : fs * result unit :=
  if dumpable v then (dict_set files p (JsonDoc v), Ok tt)
  else (dict_set files p (Unreadable JSONDecodeError), Raise UnicodeEncodeError).

(** [a <= b] on [str]: lexicographic on code points. *)
Fixpoint str_leb (a b : pystr) : bool :=
  match a, b with
  | [], _ => true
  | _ :: _, [] => false
  | x :: a', y :: b' =>
      if (x <? y)%N then true
      else if (x =? y)%N then str_leb a' b'
      else false
  end.

Definition str_le (a b : pystr) : Prop := str_leb a b = true.

#[global] Instance str_le_dec : RelDecision str_le.
Proof. intros a b. unfold str_le. apply _. Defined.

(** [sorted(paths)]: equal strings are indistinguishable, so the sorting
    algorithm does not matter. *)
Definition sorted (paths : list pystr) : list pystr := merge_sort str_le paths.

End Store.

(** ** app/news_fetcher.py *)

Module NewsFetcher.
Import Py.

Definition BASE : pystr := lit "https://newsapi.org/v2/everything".

Section Fetch.
(** [os.getenv("NEWSAPI_KEY")], read when the module is imported. *)
Variable NEWSAPI_KEY : option pystr.
(** [(datetime.utcnow() - timedelta(days=from_days)).strftime("%Y-%m-%d")] *)
Variable from_date : Z → pystr.
(** [requests.get(url, params=params, timeout=15)] followed by
    [raise_for_status()] and [json()]: the decoded answer, or the exception
    raised on the way. *)
Variable http_get : pystr → list (pystr * pyval) → result pyval.

Definition fetch_news (query : pystr) (from_days page_size : Z) : result pyval :=
  match NEWSAPI_KEY with
  | None | Some [] => Raise (RuntimeError (lit "NEWSAPI_KEY not found in .env file"))
  | Some key =>
      let params :=
        [(lit "q", PStr query);
         (lit "from", PStr (from_date from_days));
         (lit "language", PStr (lit "en"));
         (lit "pageSize", PInt page_size);
         (lit "sortBy", PStr (lit "relevancy"));
         (lit "apiKey", PStr key)] in
      answer ← http_get BASE params;
      get answer (lit "articles") (PList [])
  end.
End Fetch.

End NewsFetcher.

(** ** app/ingestion.py: the chunker and the document store *)

Module Ingestion.
Import Py Store.

(** The [while i < len(words)] loop of [chunk_text]; [None] when the fuel
    runs out before the loop condition fails. *)
Fixpoint chunk_loop (fuel : nat) (words : list pystr) (chunk_size overlap : Z)
    (i : Z) (chunks : list pystr) : option (list pystr) :=
  match fuel with
  | O => None
  | S fuel' =>
      if i <? Z.of_nat (length words)
      then
        let chunk := join (lit " ") (slice words i (i + chunk_size)) in
        chunk_loop fuel' words chunk_size overlap
          (i + (chunk_size - overlap)) (chunks ++ [chunk])
      else Some chunks
  end.

Definition chunk_text (fuel : nat) (text : pystr) (chunk_size overlap : Z)
    : option (list pystr) :=
  chunk_loop fuel (split text) chunk_size overlap 0 [].

(** [doc_id_from_url]: the SHA-1 of the URL's UTF-8 bytes, in hex. Only a
    [str] has [encode]. *)
Definition doc_id_from_url (url : pyval) : result pystr :=
  match url with
  | PStr u =>
      match Hashlib.encode u with
      | Some bytes => Ok (Hashlib.hexdigest (Hashlib.sha1 bytes))
      | None => Raise UnicodeEncodeError
      end
  | _ => Raise AttributeError
  end.

(** The dict that [extract_full_text] returns; its [except] branch returns
    it with [None] fields. *)
Record details := Details {
  d_title : pyval;
  d_text : pyval;
  d_publish_date : pyval;
  d_authors : pyval
}.

(** What one run sees of the network: the news API's answer and the
    scraper's result per URL. *)
Record web := Web {
  fetch_news : pystr → Z → Z → result pyval;
  extract_full_text : pyval → details
}.

(** [chunk_text(full_text)] with the default window of 350 words and
    overlap of 50: only a [str] has [split]. *)
Definition chunk_text_default (full_text : pyval) : result (list pystr) :=
  match full_text with
  | PStr text =>
      of_option (chunk_text (S (length (split text))) text 350 50) OutOfFuel
  | _ => Raise AttributeError
  end.

(** [os.path.join(DATA_DIR, f"{doc_id}.json")] *)
Definition record_path (doc_id : pystr) : pystr :=
  lit "data/" ++ doc_id ++ lit ".json".

(** The body of [for art in articles] up to the write: nothing for an
    article that [continue] skips, else the identifier and the record
    built. *)
Definition doc_record_of (w : web) (art : pyval) : result (option (pystr * pyval)) :=
  url ← get art (lit "url") PNone;
  if negb (truthy url) then Ok None
  else
    doc_id ← doc_id_from_url url;
    let details := extract_full_text w url in
    content ← get art (lit "content") PNone;
    description ← get art (lit "description") PNone;
    let full_text := py_or (py_or (d_text details) content) description in
    if negb (truthy full_text) then Ok None
    else
      chunks ← chunk_text_default full_text;
      title ← get art (lit "title") PNone;
      src ← get art (lit "source") (PDict []);
      source ← get src (lit "name") PNone;
      publishedAt ← get art (lit "publishedAt") PNone;
      let doc_record :=
        PDict [(lit "doc_id", PStr doc_id);
               (lit "title", py_or (d_title details) title);
               (lit "url", url);
               (lit "source", source);
               (lit "publishedAt", publishedAt);
               (lit "chunks", PList (map PStr chunks))] in
      Ok (Some (doc_id, doc_record)).

(** The body of [for art in articles]: the files afterwards, and the record
    appended to [ingested_docs], if any, or the exception raised. *)
Definition ingest_article (w : web) (files : fs) (art : pyval)
    : fs * result (option pyval) :=
  match doc_record_of w art with
  | Ok (Some (doc_id, doc_record)) =>
      let '(files', written) := write_json files (record_path doc_id) doc_record in
      (files', written ≫= λ _, Ok (Some doc_record))
  | Ok None => (files, Ok None)
  | Raise e => (files, Raise e)
  end.

(** The loop: an exception ends it and leaves the files as they are at
    that point. *)
Fixpoint ingest_loop (w : web) (files : fs) (articles : list pyval)
    (ingested_docs : list pyval) : fs * result (list pyval) :=
  match articles with
  | [] => (files, Ok ingested_docs)
  | art :: articles' =>
      match ingest_article w files art with
      | (files', Ok (Some doc_record)) =>
          ingest_loop w files' articles' (ingested_docs ++ [doc_record])
      | (files', Ok None) => ingest_loop w files' articles' ingested_docs
      | (files', Raise e) => (files', Raise e)
      end
  end.

Definition ingest_query (w : web) (files : fs) (query : pystr)
    (from_days max_articles : Z) : fs * result (list pyval) :=
  match fetch_news w query from_days max_articles ≫= iter with
  | Ok articles => ingest_loop w files articles []
  | Raise e => (files, Raise e)
  end.

End Ingestion.

(** ** app/embed_index.py *)

Module EmbedIndex.
Import Py Store.

(** The metadata dict that [collect_docs] builds for chunk [i] of a record. *)
Definition metadata_entry (doc_id title url source publishedAt : pyval) (i : nat)
    : pyval :=
  PDict [(lit "doc_id", doc_id); (lit "title", title); (lit "url", url);
         (lit "source", source); (lit "publishedAt", publishedAt);
         (lit "chunk_index", PInt (Z.of_nat i))].

(** The body of [for p in paths]. *)
Definition collect_file (files : fs) (acc : list pyval * list pyval) (p : pystr)
    : result (list pyval * list pyval) :=
  rec ← read_json files p;
  doc_id ← get rec (lit "doc_id") PNone;
  title ← get rec (lit "title") PNone;
  url ← get rec (lit "url") PNone;
  source ← get rec (lit "source") PNone;
  publishedAt ← get rec (lit "publishedAt") PNone;
  chunks ← get rec (lit "chunks") (PList []);
  items ← iter chunks;
  Ok (acc.1 ++ items,
      acc.2 ++ imap (λ i _, metadata_entry doc_id title url source publishedAt i) items).

Fixpoint collect_loop (files : fs) (acc : list pyval * list pyval)
    (paths : list pystr) : result (list pyval * list pyval) :=
  match paths with
  | [] => Ok acc
  | p :: paths' => acc' ← collect_file files acc p; collect_loop files acc' paths'
  end.

(** [collect_docs()]: the texts to embed and the parallel metadata. *)
Definition collect_docs (files : fs) : result (list pyval * list pyval) :=
  let paths := sorted (glob_data_json files) in
  match paths with
  | [] => Raise (RuntimeError (lit "No json files found in data. Run ingestion first."))
  | _ => collect_loop files ([], []) paths
  end.

(** One search result, [{"rank": ..., "score": ..., "metadata": ...}]. *)
Record hit := Hit { rank : Z; score : spec_float; metadata : pyval }.

Section Index.
(** The embedding model and the FAISS index are external: vectors, the
    index and the embedding array are opaque. *)
Variables vec faiss_index ndarray : Type.
(** [model.encode([query_text], convert_to_numpy=True).astype("float32")] *)
Variable encode_query : pystr → vec.
(** [model.encode(docs, ...)], made float32 *)
Variable encode_docs : list pyval → result ndarray.
(** [embs.shape] *)
Variable shape : ndarray → list Z.
(** [faiss.IndexFlatL2(dim)] followed by [index.add(embs)] *)
Variable index_flat_l2 : Z → ndarray → result faiss_index.
(** [index.search(q_emb, top_k)]: the rows [D[0]] and [I[0]]. *)
Variable search : faiss_index → vec → Z → result (list spec_float * list Z).

(** The three artifacts under [index_data], when they have been written. *)
Definition index_store : Type :=
  option (faiss_index * list pyval * ndarray).

(** [build_faiss_index(docs, metadatas)]: the artifacts it persists. *)
Definition build_faiss_index (docs metadatas : list pyval)
    : result (faiss_index * list pyval * ndarray) :=
  embs ← encode_docs docs;
  dim ← of_option (shape embs !! 1%nat) IndexError;
  index ← index_flat_l2 dim embs;
  Ok (index, metadatas, embs).

(** The build entry point ([__main__]): collect, then build. *)
Definition build_index (files : fs)
    : result (faiss_index * list pyval * ndarray) :=
  '(docs, metadatas) ← collect_docs files;
  build_faiss_index docs metadatas.

Definition load_index (st : index_store)
    : result (faiss_index * list pyval * ndarray) :=
  of_option st (RuntimeError (lit "Index file not found. Run build first.")).

(** The [for rank, idx in enumerate(I[0])] loop of [query_index]. *)
Fixpoint query_loop (metadatas : list pyval) (D0 : list spec_float)
    (rank : nat) (I0 : list Z) (results : list hit) : result (list hit) :=
  match I0 with
  | [] => Ok results
  | idx :: I0' =>
      meta ← of_option (index metadatas idx) IndexError;
      sc ← of_option (D0 !! rank) IndexError;
      query_loop metadatas D0 (S rank) I0'
        (results ++ [Hit (Z.of_nat rank + 1) sc meta])
  end.

Definition query_index (st : index_store) (query_text : pystr) (top_k : Z)
    : result (list hit) :=
  let q_emb := encode_query query_text in
  '(index, metadatas, _) ← load_index st;
  '(D0, I0) ← search index q_emb top_k;
  query_loop metadatas D0 0 I0 [].
End Index.

Arguments build_faiss_index {faiss_index ndarray}.
Arguments build_index {faiss_index ndarray}.
Arguments load_index {faiss_index ndarray}.
Arguments query_index {vec faiss_index ndarray}.

End EmbedIndex.

(** ** app/rag.py: evidence assembly *)

Module Rag.
Import Py Store.

(** Results and their metadata are objects with an identity: a result dict
    [{"rank": ..., "score": ..., "metadata": md}] refers to its metadata
    dict, which several results can share. The values stored inside a
    metadata dict are JSON values. *)
Definition loc := positive.

Record item := Item { rank : pyval; score : pyval; metadata : loc }.

Inductive obj :=
| OItem (it : item)
| ODict (d : list (pystr * pyval)).

Abbreviation heap := (gmap loc obj).

(** A new object at an address that is not in use. *)
Definition alloc (h : heap) (o : obj) : loc * heap :=
  let l := fresh (dom h) in (l, <[l := o]> h).

Definition placeholder : pystr := lit "(passage text unavailable)".

(** [data_map]: a dict keyed by the records' [doc_id] values. *)
Fixpoint dm_get (data_map : list (pyval * pyval)) (k : pyval) : option pyval :=
  match data_map with
  | [] => None
  | (k', v) :: data_map' => if key_eqb k' k then Some v else dm_get data_map' k
  end.

Fixpoint dm_set (data_map : list (pyval * pyval)) (k v : pyval)
    : list (pyval * pyval) :=
  match data_map with
  | [] => [(k, v)]
  | (k', v') :: data_map' =>
      if key_eqb k' k then (k', v) :: data_map'
      else (k', v') :: dm_set data_map' k v
  end.

(** The body of [for p in glob.glob("data/*.json")]: any exception skips
    the file. *)
Definition load_record (files : fs) (data_map : list (pyval * pyval))
    (p : pystr) : list (pyval * pyval) :=
  match read_json files p with
  | Ok rec =>
      match get rec (lit "doc_id") PNone with
      | Ok k => if hashable k then dm_set data_map k rec else data_map
      | Raise _ => data_map
      end
  | Raise _ => data_map
  end.

Definition load_data_map (files : fs) : list (pyval * pyval) :=
  foldl (load_record files) [] (glob_data_json files).

Definition md_get (md : list (pystr * pyval)) (k : pystr) : pyval :=
  from_option id PNone (dict_get md k).

(** The value of [chunk_text] after the lookup ([None] when it was not
    set). *)
Definition lookup_chunk (data_map : list (pyval * pyval))
    (md : list (pystr * pyval)) : result pyval :=
  let doc_id := md_get md (lit "doc_id") in
  let chunk_i := md_get md (lit "chunk_index") in
  if truthy doc_id then
    if hashable doc_id then
      match dm_get data_map doc_id with
      | Some rec =>
          chunks ← get rec (lit "chunks") (PList []);
          match as_int chunk_i with
          | Some i =>
              if 0 <=? i then
                n ← len chunks;
                if i <? n then getitem_int chunks i else Ok PNone
              else Ok PNone
          | None => Ok PNone
          end
      | None => Ok PNone
      end
    else Raise TypeError
  else Ok PNone.

(** The value stored under ["chunk_text"]. *)
Definition chunk_text_value (md : list (pystr * pyval)) (chunk_text : pyval)
    : pyval :=
  if truthy chunk_text then chunk_text
  else py_or (md_get md (lit "chunk_text")) (PStr placeholder).

(** The body of [for item in raw_results]: copy the metadata, set its
    ["chunk_text"], build the enriched result. (A reference that is not to
    a result object with a metadata dict cannot occur in a Python list of
    results; the embedding reports it as a [TypeError].) *)
Definition enrich_item (data_map : list (pyval * pyval)) (h : heap) (l : loc)
    : result (loc * heap) :=
  match h !! l with
  | Some (OItem it) =>
      match h !! metadata it with
      | Some (ODict md0) =>
          let '(lmd, h1) := alloc h (ODict md0) in
          chunk_text ← lookup_chunk data_map md0;
          let h2 :=
            <[lmd := ODict (dict_set md0 (lit "chunk_text")
                              (chunk_text_value md0 chunk_text))]> h1 in
          let '(li, h3) := alloc h2 (OItem (Item (rank it) (score it) lmd)) in
          Ok (li, h3)
      | _ => Raise TypeError
      end
  | _ => Raise TypeError
  end.

Fixpoint enrich_loop (data_map : list (pyval * pyval)) (h : heap)
    (raw_results : list loc) (enriched : list loc) : result (list loc * heap) :=
  match raw_results with
  | [] => Ok (enriched, h)
  | l :: raw_results' =>
      '(li, h') ← enrich_item data_map h l;
      enrich_loop data_map h' raw_results' (enriched ++ [li])
  end.

Definition prepare_retrieved_with_texts (files : fs) (h : heap)
    (raw_results : list loc) : result (list loc * heap) :=
  enrich_loop (load_data_map files) h raw_results [].

(** The passage shown for a result. *)
Definition passage_text (md : list (pystr * pyval)) : pyval :=
  py_or (py_or (md_get md (lit "chunk_text")) (md_get md (lit "snippet")))
        (PStr placeholder).

Section Evidence.
(** How an f-string renders a value, and [textwrap.fill(text, width=500)]. *)
Variable fmt : pyval → pystr.
Variable fill : pystr → pystr.

Definition dash : pystr := [32; 8212; 32]%N.

(** The body of [for i, item in enumerate(retrieved, start=1)]: the three
    lines and the citation entry of one result. *)
Definition evidence_entry (h : heap) (i : Z) (l : loc)
    : result (list pystr * pyval) :=
  match h !! l with
  | Some (OItem it) =>
      match h !! metadata it with
      | Some (ODict md) =>
          let title := py_or (md_get md (lit "title")) (PStr (lit "Untitled")) in
          let source := py_or (md_get md (lit "source")) (PStr []) in
          let url := py_or (md_get md (lit "url")) (PStr []) in
          let pub := py_or (md_get md (lit "publishedAt")) (PStr []) in
          let chunk_index := md_get md (lit "chunk_index") in
          let header :=
            lit "[" ++ fmt (PInt i) ++ lit "] (" ++ fmt source ++ lit ") "
            ++ fmt title ++ dash ++ fmt pub ++ dash
            ++ lit "chunk:" ++ fmt chunk_index in
          match passage_text md with
          | PStr text =>
              Ok ([header; fill text; []],
                  PDict [(lit "idx", PInt i); (lit "title", title);
                         (lit "url", url); (lit "source", source)])
          | _ => Raise AttributeError
          end
      | _ => Raise TypeError
      end
  | _ => Raise TypeError
  end.

Fixpoint evidence_loop (h : heap) (i : Z) (retrieved : list loc)
    (lines : list pystr) (mapping : list pyval)
    : result (list pystr * list pyval) :=
  match retrieved with
  | [] => Ok (lines, mapping)
  | l :: retrieved' =>
      '(ls, m) ← evidence_entry h i l;
      evidence_loop h (i + 1) retrieved' (lines ++ ls) (mapping ++ [m])
  end.

Definition build_evidence_block (h : heap) (retrieved : list loc)
    : result (pystr * list pyval) :=
  '(lines, mapping) ← evidence_loop h 1 retrieved [] [];
  Ok (join [10%N] lines, mapping).
End Evidence.

Definition SYSTEM_INSTRUCTION : pystr :=
  lit "You are a professional news summarizer. Use ONLY the numbered evidence passages provided below to write a concise, factual news-style summary that directly answers the user's query. Do NOT invent facts or use external knowledge. If the evidence does not mention the query, explicitly say 'No relevant evidence found for the query: <query>'.".

Definition PROMPT_INSTRUCTIONS : pystr :=
  lit "TASK:" ++ [10%N]
  ++ lit "1) Using only the Evidence passages below, write a NEWS SUMMARY (120-250 words) that answers the user's query exactly." ++ [10%N]
  ++ lit "2) Do NOT provide unrelated background. If the evidence doesn't support the query, say so clearly." ++ [10%N]
  ++ lit "3) Use inline numeric citations [n] only where evidence supports a fact. If you cannot support a fact with provided evidence, do not state it." ++ [10; 10]%N
  ++ lit "OUTPUT FORMAT:" ++ [10%N]
  ++ lit "Only output plain human-readable text. No JSON, no lists, no metadata. Write 1-3 short paragraphs." ++ [10%N].

(** [build_prompt(query, evidence_text)] for a [str] query, which an
    f-string renders as it is. *)
Definition build_prompt (query evidence_text : pystr) : pystr :=
  join [10; 10]%N
    [SYSTEM_INSTRUCTION;
     [10%N] ++ lit "User Query: " ++ query ++ [10%N];
     lit "Evidence:" ++ [10%N];
     evidence_text;
     [10%N] ++ PROMPT_INSTRUCTIONS].

End Rag.

(** ** app/ollama_client.py: the generation-response parser *)

Module OllamaClient.
Import Py Json.

(** [s.find(ch, pos)], with [None] for -1. *)
Fixpoint find_char (ch : N) (l : pystr) : option nat :=
  match l with
  | [] => None
  | c :: l' => if (c =? ch)%N then Some 0%nat else S <$> find_char ch l'
  end.

Definition find (s : pystr) (ch : N) (pos : nat) : option nat :=
  (λ i, (pos + i)%nat) <$> find_char ch (drop pos s).

(** [isinstance(v, str)] *)
Definition is_str (v : pyval) : bool :=
  match v with PStr _ => true | _ => false end.

(** ["".join(parts)]: every part has to be a [str]. *)
Fixpoint join_parts (parts : list pyval) : result pystr :=
  match parts with
  | [] => Ok []
  | PStr p :: parts' => rest ← join_parts parts'; Ok (p ++ rest)
  | _ :: _ => Raise TypeError
  end.

(** The [for it in out] loop over a list-valued ["output"]. *)
Fixpoint output_items (out : list pyval) (parts : list pyval) : list pyval :=
  match out with
  | [] => parts
  | it :: out' =>
      match it with
      | PStr _ => output_items out' (parts ++ [it])
      | PDict d =>
          match dict_get d (lit "response") with
          | Some r => output_items out' (parts ++ [r])
          | None => output_items out' parts
          end
      | _ => output_items out' parts
      end
  end.

(** One pass of the [for o in objs] loop of
    [_assemble_responses_from_objs]. *)
Definition assemble_step (parts : list pyval) (o : pyval) : list pyval :=
  match o with
  | PDict d =>
      match dict_get d (lit "response") with
      | Some (PStr r) => parts ++ [PStr r]
      | _ =>
          match dict_get d (lit "text") with
          | Some (PStr t) => parts ++ [PStr t]
          | _ =>
              match dict_get d (lit "output") with
              | Some out =>
                  match out with
                  | PList items => output_items items parts
                  | PStr _ => parts ++ [out]
                  | _ => parts
                  end
              | None =>
                  match dict_get d (lit "message") with
                  | Some (PDict msg) =>
                      let content :=
                        py_or (from_option id PNone (dict_get msg (lit "content")))
                              (from_option id PNone (dict_get msg (lit "text"))) in
                      if is_str content then parts ++ [content] else parts
                  | _ => parts
                  end
              end
          end
      end
  | _ => parts
  end.

Definition _assemble_responses_from_objs (objs : list pyval) : result pystr :=
  joined ← join_parts (foldl assemble_step [] objs);
  Ok (strip joined).

Section Client.
Variable parse_float : pystr → spec_float.
(** [str(v)] and [json.dumps(v)], which format floats. *)
Variable py_str : pyval → pystr.
Variable json_dumps : pyval → pystr.

(** The [while True] loop of [_extract_json_objects_from_text]: a decode
    error at a brace skips that brace. *)
Fixpoint extract_loop (fuel : nat) (s : pystr) (pos : nat) (objs : list pyval)
    : result (list pyval) :=
  match fuel with
  | O => Raise OutOfFuel
  | S fuel' =>
      match find s 123%N pos with
      | None => Ok objs
      | Some brace =>
          match raw_decode parse_float s brace with
          | Ok (obj, e) => extract_loop fuel' s e (objs ++ [obj])
          | Raise JSONDecodeError => extract_loop fuel' s (brace + 1) objs
          | Raise e => Raise e
          end
      end
  end.

(** Every pass moves [pos] past one brace at least. *)
Definition _extract_json_objects_from_text (s : pystr) : result (list pyval) :=
  extract_loop (S (length s)) s 0 [].

(** The [for k in ("text", "response", "output")] loop on a parsed dict. *)
Fixpoint first_text_field (d : list (pystr * pyval)) (keys : list pystr)
    : option pystr :=
  match keys with
  | [] => None
  | k :: keys' =>
      match dict_get d k with
      | Some (PStr val) => Some (strip val)
      | Some (PList val) => Some (strip (join (lit " ") (map py_str val)))
      | _ => first_text_field d keys'
      end
  end.

(** [generate_with_ollama] from [raw_text] on: what it returns for a
    response body. *)
Definition response_text (raw_text : pystr) : result pystr :=
  let multi :=
    objs ← _extract_json_objects_from_text raw_text;
    match objs with
    | [] => Ok raw_text
    | _ =>
        assembled ← _assemble_responses_from_objs objs;
        match assembled with
        | [] => Ok raw_text
        | _ => Ok assembled
        end
    end in
  match loads parse_float raw_text with
  | Ok (PDict d) =>
      match first_text_field d [lit "text"; lit "response"; lit "output"] with
      | Some text => Ok text
      | None => Ok (json_dumps (PDict d))
      end
  | Ok _ => multi
  | Raise JSONDecodeError => multi
  | Raise e => Raise e
  end.
End Client.

(** An HTTP POST as [requests.post(url, json=payload, ...)] sends it. *)
Record request := Request { req_url : pystr; req_json : pyval }.

Section Generate.
Variable parse_float : pystr → spec_float.
Variable py_str : pyval → pystr.
Variable json_dumps : pyval → pystr.
(** [OLLAMA_URL] and [OLLAMA_MODEL], read from the environment when the
    module is imported. *)
Variable OLLAMA_URL : pystr.
Variable OLLAMA_MODEL : pystr.
(** The server: what [requests.post], [raise_for_status] and the decoding
    of [resp.content] give for a request, after the requests sent so far:
    the body as text, or the exception raised on the way. *)
Variable post : list request → request → result pystr.

Definition GENERATE_ENDPOINT : pystr := OLLAMA_URL ++ lit "/api/generate".
Definition CHAT_ENDPOINT : pystr := OLLAMA_URL ++ lit "/api/chat".

(** [generate_with_ollama(prompt, model, max_tokens, use_chat)]: the
    requests sent when it returns or raises, and its outcome. *)
Definition generate_with_ollama (sent : list request) (prompt model max_tokens : pyval)
    (use_chat : bool) : list request * result pystr :=
  let model := py_or model (PStr OLLAMA_MODEL) in
  let url := if use_chat then CHAT_ENDPOINT else GENERATE_ENDPOINT in
  let payload :=
    if use_chat then
      PDict [(lit "model", model);
             (lit "messages",
              PList [PDict [(lit "role", PStr (lit "system"));
                            (lit "content", PStr (lit "You are a helpful assistant."))];
                     PDict [(lit "role", PStr (lit "user"));
                            (lit "content", prompt)]]);
             (lit "max_tokens", max_tokens)]
    else
      PDict [(lit "model", model); (lit "prompt", prompt);
             (lit "max_tokens", max_tokens)] in
  let req := Request url payload in
  (sent ++ [req],
   raw_text ← post sent req;
   response_text parse_float py_str json_dumps raw_text).
End Generate.

End OllamaClient.

(** ** app/rag.py: the end-to-end call *)

Module RunRag.
Import Py Store Rag OllamaClient.

(** The index artifacts as [build_faiss_index] persists them from
    [collect_docs]: every metadata entry is a dict. *)
Definition index_store (faiss_index ndarray : Type) : Type :=
  option (faiss_index * list (list (pystr * pyval)) * ndarray).

(** The dict that [run_rag] returns. *)
Record rag_result := RagResult {
  query : pystr;
  summary_text : pystr;
  raw_ollama : pystr;
  sources : list pyval;
  retrieved : list loc
}.

(** [pickle.load(f)]: every stored metadata entry becomes a dict object. *)
Fixpoint load_metadatas (h : heap) (entries : list (list (pystr * pyval)))
    : list loc * heap :=
  match entries with
  | [] => ([], h)
  | d :: entries' =>
      let '(l, h1) := alloc h (ODict d) in
      let '(ls, h2) := load_metadatas h1 entries' in
      (l :: ls, h2)
  end.

(** The [for rank, idx in enumerate(I[0])] loop of [query_index], building
    its result dicts as objects that refer to the loaded metadata. *)
Fixpoint result_loop (h : heap) (metadatas : list loc) (D0 : list spec_float)
    (rank : nat) (I0 : list Z) (results : list loc) : result (list loc * heap) :=
  match I0 with
  | [] => Ok (results, h)
  | idx :: I0' =>
      meta ← of_option (index metadatas idx) IndexError;
      sc ← of_option (D0 !! rank) IndexError;
      let '(l, h') :=
        alloc h (OItem (Item (PInt (Z.of_nat rank + 1)) (PFloat sc) meta)) in
      result_loop h' metadatas D0 (S rank) I0' (results ++ [l])
  end.

Section Run.
Variables vec faiss_index ndarray : Type.
Variable encode_query : pystr → vec.
Variable search : faiss_index → vec → Z → result (list spec_float * list Z).
Variable fmt : pyval → pystr.
Variable fill : pystr → pystr.
Variable parse_float : pystr → spec_float.
Variable py_str : pyval → pystr.
Variable json_dumps : pyval → pystr.
Variable OLLAMA_URL : pystr.
Variable OLLAMA_MODEL : pystr.
Variable post : list request → request → result pystr.

(** [query_index(query, top_k)] as [run_rag] receives its results: as
    objects. *)
Definition query_index (st : index_store faiss_index ndarray) (h : heap)
    (query_text : pystr) (top_k : Z) : result (list loc * heap) :=
  let q_emb := encode_query query_text in
  '(index, entries, _) ←
    of_option st (RuntimeError (lit "Index file not found. Run build first."));
  let '(metadatas, h1) := load_metadatas h entries in
  '(D0, I0) ← search index q_emb top_k;
  result_loop h1 metadatas D0 0 I0 [].

(** [run_rag(query, top_k, model_name, max_tokens)]: the objects and the
    requests sent when it returns or raises, and its outcome. *)
Definition run_rag (st : index_store faiss_index ndarray) (files : fs) (h : heap)
    (sent : list request) (query : pystr) (top_k : Z) (model_name max_tokens : pyval)
    : heap * list request * result rag_result :=
  match query_index st h query top_k with
  | Raise e => (h, sent, Raise e)
  | Ok (raw, h1) =>
      match prepare_retrieved_with_texts files h1 raw with
      | Raise e => (h1, sent, Raise e)
      | Ok (enriched, h2) =>
          match build_evidence_block fmt fill h2 enriched with
          | Raise e => (h2, sent, Raise e)
          | Ok (evidence_text, mapping) =>
              let prompt := PStr (build_prompt query evidence_text) in
              let generate sent :=
                generate_with_ollama parse_float py_str json_dumps
                  OLLAMA_URL OLLAMA_MODEL post sent prompt model_name max_tokens
                  false in
              let '(sent1, first) := generate sent in
              let '(sent2, ollama_out) :=
                match first with
                | Raise TypeError => generate sent1
                | _ => (sent1, first)
                end in
              (h2, sent2,
               text ← ollama_out;
               Ok (RagResult query text text mapping enriched))
          end
      end
  end.
End Run.

Arguments query_index {vec faiss_index ndarray}.
Arguments run_rag {vec faiss_index ndarray}.

End RunRag.

(** ** app/streamlit_app.py: the PDF export *)

Module StreamlitApp.
Import Py.

(** The [while len(line) > 90] loop of [create_pdf_bytes]: the pieces
    passed to [text.textLine] and what is left of the line; [None] when
    the fuel runs out. *)
Fixpoint wrap_loop (fuel : nat) (line : pystr) (out : list pystr)
    : option (list pystr * pystr) :=
  match fuel with
  | O => None
  | S fuel' =>
      if 90 <? Z.of_nat (length line)
      then wrap_loop fuel' (slice line 90 (Z.of_nat (length line)))
             (out ++ [slice line 0 90])
      else Some (out, line)
  end.

(** The body of [for line in summary.split(...)]: the text lines written
    for one line of the summary. *)
Definition text_lines (line : pystr) : option (list pystr) :=
  '(out, rest) ← wrap_loop (S (length line)) line [];
  Some (out ++ [rest]).

(** The [for line in summary.split(...)] loop: the text lines written,
    grouped by line of the summary. *)
Definition summary_lines (summary : pystr) : option (list (list pystr)) :=
  mapM text_lines (split_on 10 [] summary).

(** What is drawn on the canvas of the sources page. *)
Inductive canvas_op :=
| showPage
| setFont (name : pystr) (size : Z)
| drawString (x y : Z) (text : pystr).

Section Pdf.
(** How an f-string renders a value. *)
Variable fmt : pyval → pystr.

(** The line of one source, [f"[{idx}] {title} — {url}"]. *)
Definition source_line (s : pyval) : result pystr :=
  idx ← get s (lit "idx") PNone;
  title ← get s (lit "title") (PStr []);
  url ← get s (lit "url") (PStr []);
  Ok (lit "[" ++ fmt idx ++ lit "] " ++ fmt title ++ Rag.dash ++ fmt url).

(** The [for s in sources] loop of [create_pdf_bytes]: the operations on
    the canvas, and [y] when the loop ends. *)
Fixpoint sources_loop (sources : list pyval) (y : Z) (ops : list canvas_op)
    : result (list canvas_op * Z) :=
  match sources with
  | [] => Ok (ops, y)
  | s :: sources' =>
      line ← source_line s;
      let '(ops1, y1) :=
        if y <? 120
        then (ops ++ [showPage; setFont (lit "Helvetica") 10], 740)
        else (ops, y) in
      sources_loop sources' (y1 - 14) (ops1 ++ [drawString 72 y1 (slice line 0 240)])
  end.
End Pdf.

End StreamlitApp.

(** ** Vocabulary of the specification *)

Module Spec.
Import Py.

(** "When overlaps are removed": the first chunk's words, then every later
    chunk's words without its first [overlap] ones ([ws[overlap:]]). *)
Definition remove_overlaps (overlap : Z) (chunk_words : list (list pystr))
    : list pystr :=
  match chunk_words with
  | [] => []
  | first :: later =>
      first ++ concat (map (λ ws, slice ws overlap (Z.of_nat (length ws))) later)
  end.

(** A word: not empty and free of white space. *)
Definition nospace (w : pystr) : Prop := Forall (λ ch, isspace ch = false) w.
Definition is_word (w : pystr) : Prop := w ≠ [] ∧ nospace w.

(** The chunks of the record file at [p], in order (none when the file does
    not hold a record). *)
Definition chunks_of (files : Store.fs) (p : pystr) : list pyval :=
  let items :=
    rec ← Store.read_json files p;
    chunks ← get rec (lit "chunks") (PList []);
    iter chunks in
  match items with
  | Ok items => items
  | Raise _ => []
  end.

Definition field (rec : pyval) (k : pystr) : pyval :=
  match get rec k PNone with
  | Ok v => v
  | Raise _ => PNone
  end.

(** The metadata entry that describes chunk [i] of the record file at [p]:
    the record's identifier, title, url, source and publish timestamp, and
    the chunk position. *)
Definition describes (files : Store.fs) (p : pystr) (i : nat) : pyval :=
  match Store.read_json files p with
  | Ok rec =>
      EmbedIndex.metadata_entry (field rec (lit "doc_id")) (field rec (lit "title"))
        (field rec (lit "url")) (field rec (lit "source"))
        (field rec (lit "publishedAt")) i
  | Raise _ => PNone
  end.

(** The entries that describe the chunks of the record file at [p]. *)
Definition entries_of (files : Store.fs) (p : pystr) : list pyval :=
  imap (λ i _, describes files p i) (chunks_of files p).

(** An article file: a readable JSON object whose [chunks], when present,
    can be enumerated. *)
Definition article_file (files : Store.fs) (p : pystr) : Prop :=
  ∃ d items,
    Store.read_json files p = Ok (PDict d)
    ∧ iter (from_option id (PList []) (dict_get d (lit "chunks"))) = Ok items.

(** What [index.search(q, k)] returns on an index of [n] vectors, as FAISS
    documents it: [k] distances and [k] labels; the first [min k n] rows
    are the nearest neighbours, nearest first, each label a position of
    the index; the rows after them are padding with label [-1]. *)
Definition knn_rows (n : nat) (k : Z) (D0 : list spec_float) (I0 : list Z)
    : Prop :=
  length D0 = Z.to_nat k
  ∧ length I0 = Z.to_nat k
  ∧ (∀ (r : nat) (idx : Z), I0 !! r = Some idx →
       if decide (r < n)%nat then 0 ≤ idx < Z.of_nat n else idx = -1)
  ∧ (∀ (r1 r2 : nat) (d1 d2 : spec_float), (r1 < r2)%nat →
       D0 !! r1 = Some d1 → D0 !! r2 = Some d2 → SFleb d1 d2 = true).




(** *** Evidence assembly *)

(** The lookup of a result's (article identifier, chunk position) against
    the corpus fails: the entry has no identifier; or no readable record
    file holds that identifier (the file is missing or cannot be read); or
    the record is there and the chunk position is not a position of its
    chunks. *)
Inductive lookup_fails (files : Store.fs) (md : list (pystr * pyval)) : Prop :=
| no_identifier :
    truthy (Rag.md_get md (lit "doc_id")) = false →
    lookup_fails files md
| record_missing :
    hashable (Rag.md_get md (lit "doc_id")) = true →
    (∀ p rec k,
       p ∈ Store.glob_data_json files →
       Store.read_json files p = Ok rec →
       get rec (lit "doc_id") PNone = Ok k →
       key_eqb k (Rag.md_get md (lit "doc_id")) = false) →
    lookup_fails files md
| position_out_of_range (rec chunks : pyval) (n : Z) :
    hashable (Rag.md_get md (lit "doc_id")) = true →
    Rag.dm_get (Rag.load_data_map files) (Rag.md_get md (lit "doc_id")) = Some rec →
    get rec (lit "chunks") (PList []) = Ok chunks →
    len chunks = Ok n →
    (∀ i, as_int (Rag.md_get md (lit "chunk_index")) = Some i → ¬ (0 ≤ i < n)) →
    lookup_fails files md.

(** A metadata entry as the index stores it: without chunk text. *)
Definition no_stored_text (md : list (pystr * pyval)) : Prop :=
  truthy (Rag.md_get md (lit "chunk_text")) = false.

(** A retrieval result in the store: a result object whose metadata is a
    dict object with a plain (hashable) identifier. *)
Definition retrieval_result (h : Rag.heap) (l : Rag.loc) : Prop :=
  ∃ it md,
    h !! l = Some (Rag.OItem it)
    ∧ h !! Rag.metadata it = Some (Rag.ODict md)
    ∧ hashable (Rag.md_get md (lit "doc_id")) = true.

(** Every readable record (a JSON object in a record file) keeps its chunks
    in a list. *)
Definition records_typed (files : Store.fs) : Prop :=
  ∀ p d,
    p ∈ Store.glob_data_json files →
    Store.read_json files p = Ok (PDict d) →
    ∃ cs, get (PDict d) (lit "chunks") (PList []) = Ok (PList cs).

(** The result object [li] of the heap [h'] enriches the result object [l]
    of the heap [h]: it and its metadata dict are new objects; rank and
    score are those of [l]; every metadata field other than [chunk_text]
    is as in [l]'s metadata; [chunk_text] is the chunk that the lookup
    found, or else the text already stored, or else the placeholder. *)
Definition enriched_from (data_map : list (pyval * pyval)) (h h' : Rag.heap)
    (l li : Rag.loc) : Prop :=
  ∃ it md it' md' found,
    h !! l = Some (Rag.OItem it)
    ∧ h !! Rag.metadata it = Some (Rag.ODict md)
    ∧ h !! li = None
    ∧ h !! Rag.metadata it' = None
    ∧ h' !! li = Some (Rag.OItem it')
    ∧ h' !! Rag.metadata it' = Some (Rag.ODict md')
    ∧ Rag.rank it' = Rag.rank it
    ∧ Rag.score it' = Rag.score it
    ∧ (∀ k, k ≠ lit "chunk_text" → dict_get md' k = dict_get md k)
    ∧ Rag.lookup_chunk data_map md = Ok found
    ∧ dict_get md' (lit "chunk_text")
      = Some (if truthy found then found
              else py_or (Rag.md_get md (lit "chunk_text")) (PStr Rag.placeholder)).

(** *** Identifiers and record paths *)

(** A lowercase hexadecimal digit. *)
Definition is_hex_digit (c : N) : Prop := (48 ≤ c ≤ 57)%N ∨ (97 ≤ c ≤ 102)%N.

(** A code point that UTF-8 can encode: a Unicode scalar value, that is,
    any code point but a surrogate. *)
Definition scalar_value (c : N) : Prop :=
  (c < 55296)%N ∨ (57343 < c < 1114112)%N.

(** An article as the news API documents it, with a usable text: a JSON
    object with a non-empty [url] free of surrogates; a non-empty string
    free of surrogates as its text (the scraped text, else [content], else
    [description]); a [source] that is an object when present; and a title
    (the scraped one, else the article's), a date and a source name that
    [json.dump] can write. *)
Definition complete_article (w : Ingestion.web) (art : pyval) : Prop :=
  ∃ (d : list (pystr * pyval)) (u text : pystr),
    art = PDict d
    ∧ dict_get d (lit "url") = Some (PStr u)
    ∧ u ≠ []
    ∧ Forall scalar_value u
    ∧ py_or (py_or (Ingestion.d_text (Ingestion.extract_full_text w (PStr u)))
                   (from_option id PNone (dict_get d (lit "content"))))
            (from_option id PNone (dict_get d (lit "description")))
      = PStr text
    ∧ text ≠ []
    ∧ Forall scalar_value text
    ∧ Store.dumpable
        (py_or (Ingestion.d_title (Ingestion.extract_full_text w (PStr u)))
               (from_option id PNone (dict_get d (lit "title")))) = true
    ∧ Store.dumpable (from_option id PNone (dict_get d (lit "publishedAt"))) = true
    ∧ (dict_get d (lit "source") = None
       ∨ ∃ src, dict_get d (lit "source") = Some (PDict src)
                ∧ Store.dumpable (from_option id PNone (dict_get src (lit "name")))
                  = true).

(** A store as ingestion leaves it: every readable record file is
    [data/<id>.json] for a non-empty [<id>] and holds a JSON object whose
    [doc_id] is the string [<id>] and whose [chunks] are a list of
    strings. *)
Definition keyed_records (files : Store.fs) : Prop :=
  ∀ p rec,
    p ∈ Store.glob_data_json files →
    Store.read_json files p = Ok rec →
    ∃ (id : pystr) (d : list (pystr * pyval)) (cs : list pystr),
      rec = PDict d
      ∧ p = Ingestion.record_path id
      ∧ id ≠ []
      ∧ dict_get d (lit "doc_id") = Some (PStr id)
      ∧ dict_get d (lit "chunks") = Some (PList (map PStr cs)).

(** *** Passages *)

(** The passage that the evidence block shows for the result object [l] is
    the string [text]: the [chunk_text] of its metadata, else its
    [snippet], else the placeholder. *)
Definition has_passage (h : Rag.heap) (l : Rag.loc) (text : pystr) : Prop :=
  ∃ it md,
    h !! l = Some (Rag.OItem it)
    ∧ h !! Rag.metadata it = Some (Rag.ODict md)
    ∧ Rag.passage_text md = PStr text.

(** Every readable record keeps its chunks in a list of strings, as
    [ingest_query] writes them. *)
Definition records_of_strings (files : Store.fs) : Prop :=
  ∀ p d,
    p ∈ Store.glob_data_json files →
    Store.read_json files p = Ok (PDict d) →
    ∃ cs : list pystr,
      get (PDict d) (lit "chunks") (PList []) = Ok (PList (map PStr cs)).

(** A retrieval result over an index built by [collect_docs]: a result
    object whose metadata is a dict object with a plain identifier and no
    text of its own. *)
Definition index_result (h : Rag.heap) (l : Rag.loc) : Prop :=
  ∃ it md,
    h !! l = Some (Rag.OItem it)
    ∧ h !! Rag.metadata it = Some (Rag.ODict md)
    ∧ hashable (Rag.md_get md (lit "doc_id")) = true
    ∧ no_stored_text md.

(** *** Streamed response objects *)

(** An object of a streamed body whose fragment is appended without a type
    check: neither its ["response"] nor its ["text"] is a string, its
    ["output"] is a list, and that list holds a dict whose ["response"] is
    not a string. *)
Definition unguarded_fragment (o : pyval) : Prop :=
  ∃ (d : list (pystr * pyval)) (items : list pyval)
    (it : list (pystr * pyval)) (r : pyval),
    o = PDict d
    ∧ (∀ s, dict_get d (lit "response") ≠ Some (PStr s))
    ∧ (∀ s, dict_get d (lit "text") ≠ Some (PStr s))
    ∧ dict_get d (lit "output") = Some (PList items)
    ∧ PDict it ∈ items
    ∧ dict_get it (lit "response") = Some r
    ∧ OllamaClient.is_str r = false.

(** A character that can begin a JSON value: a quote, a brace, a bracket,
    a minus sign, a digit, or the first letter of [null], [true], [false],
    [NaN] and [Infinity]. *)
Definition starts_value (c : N) : bool :=
  bool_decide (c ∈ [34; 123; 91; 45; 110; 116; 102; 78; 73]%N) || Json.is_digit c.

(** A response body that is plain text: blank, or beginning (after JSON
    white space) with a character that cannot begin a JSON value. *)
Definition plain_text (raw_text : pystr) : Prop :=
  match Json.skip_ws raw_text with
  | [] => True
  | c :: _ => starts_value c = false
  end.

(** *** The index store *)


(** The result object [l] of the heap [h] holds the result [hit]: its rank,
    its score, and a metadata object with the fields of its metadata. *)
Definition holds_hit (h : Rag.heap) (hit : EmbedIndex.hit) (l : Rag.loc) : Prop :=
  ∃ it d,
    h !! l = Some (Rag.OItem it)
    ∧ Rag.rank it = PInt (EmbedIndex.rank hit)
    ∧ Rag.score it = PFloat (EmbedIndex.score hit)
    ∧ h !! Rag.metadata it = Some (Rag.ODict d)
    ∧ EmbedIndex.metadata hit = PDict d.

(** *** The sources page of the PDF *)

(** The height at which the line of source [j] is drawn: the first page
    starts at 720 and holds 43 lines, the pages after it start at 740 and
    hold 45 lines, 14 points apart. *)
Definition source_height (j : nat) : Z :=
  if (j <? 43)%nat then 720 - 14 * Z.of_nat j
  else 740 - 14 * (Z.of_nat (j - 43) mod 45).

(** Source [j] opens a new page. *)
Definition page_start (j : nat) : bool :=
  (43 <=? j)%nat && ((j - 43) mod 45 =? 0)%nat.

(** What is drawn for source [j] with the line [line]: a page break when
    it opens a page, and the line, cut at 240 characters, at its height. *)
Definition source_ops (j : nat) (line : pystr) : list StreamlitApp.canvas_op :=
  (if page_start j
   then [StreamlitApp.showPage; StreamlitApp.setFont (lit "Helvetica") 10]
   else [])
  ++ [StreamlitApp.drawString 72 (source_height j) (slice line 0 240)].

(** The embedding did not run out of fuel. *)
Definition no_oof {A} (r : result A) : Prop :=
  match r with
  | Raise OutOfFuel => False
  | _ => True
  end.

End Spec.

(** ** Sample data for the examples and witnesses *)

Module Examples.
Import Py.

(** Two record files, listed out of order, with one chunk and two chunks. *)
Definition two_files : Store.fs :=
  [(lit "data/b.json",
    Store.JsonDoc (PDict [(lit "doc_id", PStr (lit "b"));
                          (lit "chunks", PList [PStr (lit "b0")])]));
   (lit "data/a.json",
    Store.JsonDoc (PDict [(lit "doc_id", PStr (lit "a"));
                          (lit "chunks", PList [PStr (lit "a0"); PStr (lit "a1")])]))].

(** Two metadata entries, as [collect_docs] builds them. *)
Definition two_entries : list pyval :=
  [EmbedIndex.metadata_entry (PStr (lit "a")) PNone PNone PNone PNone 0;
   EmbedIndex.metadata_entry (PStr (lit "a")) PNone PNone PNone PNone 1].

(** The floats 0.0, 1.0 and the largest float32, FAISS's padding distance. *)
Definition f_zero : spec_float := S754_zero false.
Definition f_one : spec_float := S754_finite false 4503599627370496 (-52).
Definition f_max32 : spec_float := S754_finite false 9007198717870080 75.

(** A search that finds entry 1 at distance 0.0 and entry 0 at distance 1.0. *)
Definition search_two (_ _ : unit) (k : Z) : result (list spec_float * list Z) :=
  Ok ([f_zero; f_one], [1; 0]).

(** A search over a one-vector index asked for two neighbours. *)
Definition search_padded (_ _ : unit) (k : Z) : result (list spec_float * list Z) :=
  Ok ([f_zero; f_max32], [0; -1]).

(** A JSON text written with apostrophes in place of double quotes. *)
Definition json_text (s : string) : pystr :=
  map (λ c, if (c =? 39)%N then 34%N else c) (lit s).

(** Two response objects written back-to-back. *)
Definition streamed_body : pystr :=
  json_text "{'response':'A '}{'response':'B'}".

(** A network on which the scraper fails and the news API returns one
    article for the URL [http://e.x/1] with the given content. *)
Definition failed_scrape : Ingestion.details := Ingestion.Details PNone PNone PNone PNone.

Definition one_article (content : string) : Ingestion.web :=
  Ingestion.Web
    (λ _ _ _, Ok (PList [PDict [(lit "url", PStr (lit "http://e.x/1"));
                                 (lit "title", PStr (lit "T"));
                                 (lit "content", PStr (lit content))]]))
    (λ _, failed_scrape).


(** The records that this first run returns. *)
Definition first_run_docs : list pyval :=
  match (Ingestion.ingest_query (one_article "old words") [] (lit "q") 1 5).2 with
  | Ok docs => docs
  | Raise _ => []
  end.

(** The store after ingesting an article whose text is only white space. *)
Definition blank_article_store : Store.fs :=
  (Ingestion.ingest_query (one_article "  ") [] (lit "q") 1 5).1.

(** The fields of a metadata entry without title, url, source or date. *)
Definition entry_fields (doc_id : string) (i : Z) : list (pystr * pyval) :=
  [(lit "doc_id", PStr (lit doc_id)); (lit "title", PNone); (lit "url", PNone);
   (lit "source", PNone); (lit "publishedAt", PNone); (lit "chunk_index", PInt i)].

(** Two results that share one metadata dict, for chunk 1 of record "a". *)
Definition shared_heap : Rag.heap :=
  <[1%positive := Rag.OItem (Rag.Item (PInt 1) (PFloat f_zero) 3%positive)]>
    (<[2%positive := Rag.OItem (Rag.Item (PInt 2) (PFloat f_one) 3%positive)]>
       (<[3%positive := Rag.ODict (entry_fields "a" 1)]> ∅)).

(** One result for a record that is no longer on disk. *)
Definition stale_entry : list (pystr * pyval) := entry_fields "gone" 0.

Definition stale_heap : Rag.heap :=
  <[1%positive := Rag.OItem (Rag.Item (PInt 1) (PFloat f_zero) 2%positive)]>
    (<[2%positive := Rag.ODict stale_entry]> ∅).

(** A news API that answers every request with two articles, behind a
    scraper that fails. *)
Definition two_articles : list pyval :=
  [PDict [(lit "url", PStr (lit "http://e.x/1")); (lit "content", PStr (lit "one"))];
   PDict [(lit "url", PStr (lit "http://e.x/2")); (lit "description", PStr (lit "two"));
          (lit "source", PDict [(lit "name", PStr (lit "S"))])]].

Definition newsapi_web : Ingestion.web :=
  Ingestion.Web
    (NewsFetcher.fetch_news (Some (lit "k")) (λ _, lit "2024-01-01")
       (λ _ _, Ok (PDict [(lit "status", PStr (lit "ok"));
                          (lit "articles", PList two_articles)])))
    (λ _, failed_scrape).

(** A generation response in one JSON object, and two metadata entries. *)
Definition hello_body : pystr := json_text "{'response': 'hello'}".

Definition a_entries : list (list (pystr * pyval)) :=
  [entry_fields "a" 0; entry_fields "a" 1].

(** One citation entry, as [build_evidence_block] returns it. *)
Definition one_source : pyval :=
  PDict [(lit "idx", PInt 1); (lit "title", PStr (lit "T"));
         (lit "url", PStr (lit "http://e.x/1")); (lit "source", PStr (lit "S"))].

(** A news API whose second article carries [null] as its source. *)
Definition null_source_article : pyval :=
  PDict [(lit "url", PStr (lit "http://e.x/3")); (lit "content", PStr (lit "three"));
         (lit "source", PNone)].

Definition null_source_web : Ingestion.web :=
  Ingestion.Web
    (λ _ _ _, Ok (PList (take 1 two_articles ++ null_source_article
                           :: drop 1 two_articles)))
    (λ _, failed_scrape).

(** A news API whose second article repeats the URL of the first and
    carries a lone surrogate in its title (the JSON text [\ud83d]). *)
Definition surrogate_title_article : pyval :=
  PDict [(lit "url", PStr (lit "http://e.x/1")); (lit "title", PStr [55357%N]);
         (lit "content", PStr (lit "again"))].

Definition surrogate_title_web : Ingestion.web :=
  Ingestion.Web
    (λ _ _ _, Ok (PList (take 1 two_articles ++ surrogate_title_article
                           :: drop 1 two_articles)))
    (λ _, failed_scrape).

(** What [collect_docs] returns on the two sample files. *)
Definition collected_docs : list pyval :=
  [PStr (lit "a0"); PStr (lit "a1"); PStr (lit "b0")].

Definition collected_entries : list (list (pystr * pyval)) :=
  [entry_fields "a" 0; entry_fields "a" 1; entry_fields "b" 0].

End Examples.

Import Py.

Example split_example :
  split (lit "  the quick  brown fox ") =
  [lit "the"; lit "quick"; lit "brown"; lit "fox"].
Proof. reflexivity. Qed.

Example chunk_text_example :
  Ingestion.chunk_text 10 (lit "a b c d e") 3 1 =
  Some [lit "a b c"; lit "c d e"; lit "e"].
Proof. reflexivity. Qed.

(** Published SHA-1 test vectors. *)
Example sha1_empty :
  Hashlib.hexdigest (Hashlib.sha1 []) = lit "da39a3ee5e6b4b0d3255bfef95601890afd80709".
Proof. vm_compute. reflexivity. Qed.

Example sha1_abc :
  Hashlib.hexdigest <$> (Hashlib.sha1 <$> Hashlib.encode (lit "abc"))
  = Some (lit "a9993e364706816aba3e25717850c26c9cd0d89d").
Proof. vm_compute. reflexivity. Qed.

Example sha1_two_blocks :
  Hashlib.hexdigest <$> (Hashlib.sha1 <$> Hashlib.encode
    (lit "abcdbcdecdefdefgefghfghighijhijkijkljklmklmnlmnomnopnopq"))
  = Some (lit "84983e441c3bd26ebaae4aa1f95129e5e54670f1").
Proof. vm_compute. reflexivity. Qed.

(** UTF-8: U+00E9, U+20AC and U+1F600. *)
Example utf8_example :
  Hashlib.encode [233; 8364; 128512]%N
  = Some [195; 169; 226; 130; 172; 240; 159; 152; 128].
Proof. reflexivity. Qed.

(** The decoder on nested values, a duplicate key, escapes and a surrogate
    pair; and on texts that are not JSON. *)
Example loads_nested parse_float :
  Json.loads parse_float
    (Examples.json_text " {'a': [1, -20, true, null, {'b': 'x\ny'}], 'a': 'z'} ")
  = Ok (PDict [(lit "a", PStr (lit "z"))]).
Proof. vm_compute. reflexivity. Qed.

Example loads_escapes parse_float :
  Json.loads parse_float (Examples.json_text "['\u0041\ud83d\ude00\t']")
  = Ok (PList [PStr [65; 128512; 9]%N]).
Proof. vm_compute. reflexivity. Qed.

Example loads_leading_zero parse_float :
  Json.loads parse_float (lit "01") = Raise JSONDecodeError.
Proof. vm_compute. reflexivity. Qed.

Example raw_decode_stops_after_value parse_float :
  Json.raw_decode parse_float (lit "x[1, 2] tail") 1 = Ok (PList [PInt 1; PInt 2], 7%nat).
Proof. vm_compute. reflexivity. Qed.

(** * Properties *)

(** ** Slices and words *)

Section SliceFacts.
Context {A : Type}.
Implicit Types l : list A.

Lemma slice_window l (a c : nat) :
  slice l (Z.of_nat a) (Z.of_nat a + Z.of_nat c) = take c (drop a l).
Proof.
  unfold slice, clamp_index.
  destruct (Z.ltb_spec (Z.of_nat a) 0); [lia |].
  destruct (Z.ltb_spec (Z.of_nat a + Z.of_nat c) 0); [lia |].
  destruct (Nat.le_gt_cases (length l) a) as [Hge | Hlt].
  - rewrite (drop_ge l a) by done.
    rewrite drop_ge by lia. by rewrite !take_nil.
  - replace (Z.to_nat (Z.of_nat a `min` Z.of_nat (length l))) with a by lia.
    destruct (Nat.le_gt_cases (a + c) (length l)) as [Hin | Hout].
    + f_equal. lia.
    + rewrite (take_ge (drop a l) c) by (rewrite length_drop; lia).
      apply take_ge. rewrite length_drop. lia.
Qed.

Lemma slice_from_nat l (o : nat) :
  slice l (Z.of_nat o) (Z.of_nat (length l)) = drop o l.
Proof.
  unfold slice, clamp_index.
  destruct (Z.ltb_spec (Z.of_nat o) 0); [lia |].
  destruct (Z.ltb_spec (Z.of_nat (length l)) 0); [lia |].
  destruct (Nat.le_gt_cases (length l) o) as [Hge | Hlt].
  - rewrite (drop_ge l o) by done.
    rewrite drop_ge by lia. by rewrite take_nil.
  - replace (Z.to_nat (Z.of_nat o `min` Z.of_nat (length l))) with o by lia.
    apply take_ge. rewrite length_drop. lia.
Qed.

(** The first window followed by the later windows without their first
    [o] elements is a prefix of the list: window [j] starts at [j * s]
    and spans [o + s] elements. *)
Lemma glue_windows l (o s k : nat) :
  take (o + s) (drop 0 l)
    ++ concat (map (λ j, drop o (take (o + s) (drop (j * s) l))) (seq 1 k))
  = take (k * s + (o + s)) l.
Proof.
  induction k as [| k IH].
  - by rewrite app_nil_r.
  - rewrite seq_S, map_app, concat_app, app_assoc, IH. simpl.
    rewrite app_nil_r.
    rewrite <- (take_drop_commute _ s o), drop_drop.
    replace (s + k * s + o)%nat with (k * s + (o + s))%nat by lia.
    rewrite take_take_drop. f_equal. lia.
Qed.
End SliceFacts.

(** ** Words: what [split] returns and [join] puts back together *)

Lemma split_ws_words s : ∀ cur, Spec.nospace cur → Forall Spec.is_word (split_ws cur s).
Proof.
  induction s as [| ch s IH]; intros cur Hcur; simpl.
  - destruct cur; [constructor |].
    apply Forall_cons. split; [| constructor]. by split.
  - destruct (isspace ch) eqn:Hch.
    + destruct cur.
      * apply IH. constructor.
      * apply Forall_cons. split; [by split |]. apply IH. constructor.
    + apply IH. apply Forall_app. split; [done |].
      apply Forall_cons. split; [done | constructor].
Qed.

Lemma split_words s : Forall Spec.is_word (split s).
Proof. apply split_ws_words. constructor. Qed.

Lemma split_ws_app_word w : ∀ cur rest,
  Spec.nospace w → split_ws cur (w ++ rest) = split_ws (cur ++ w) rest.
Proof.
  induction w as [| ch w IH]; intros cur rest Hw; simpl.
  - by rewrite app_nil_r.
  - inversion Hw as [| ? ? Hch Hw']; subst. rewrite Hch.
    rewrite IH by done. by rewrite <- app_assoc.
Qed.

Lemma split_join ws : Forall Spec.is_word ws → split (join (lit " ") ws) = ws.
Proof.
  induction 1 as [| w ws [Hne Hw] Hws IH]; [done |].
  unfold split in *. destruct ws as [| w' ws'].
  - simpl. rewrite <- (app_nil_r w) at 1.
    rewrite split_ws_app_word by done. simpl. by destruct w.
  - change (join (lit " ") (w :: w' :: ws'))
      with (w ++ 32%N :: join (lit " ") (w' :: ws')).
    rewrite split_ws_app_word by done.
    cbn [app split_ws]. change (isspace 32) with true. cbn match.
    rewrite IH. by destruct w.
Qed.

(** ** The chunker's loop *)

Section ChunkLoop.
Import Ingestion.
Variable words : list pystr.
Variables chunk_size overlap : Z.

(** More fuel never changes a result. *)
Lemma chunk_loop_mono fuel : ∀ fuel' i acc r,
  chunk_loop fuel words chunk_size overlap i acc = Some r →
  (fuel <= fuel')%nat →
  chunk_loop fuel' words chunk_size overlap i acc = Some r.
Proof.
  induction fuel as [| fuel IH]; intros fuel' i acc r Hrun Hle; [done |].
  destruct fuel' as [| fuel']; [lia |]. simpl in *.
  destruct (i <? Z.of_nat (length words)); [| done].
  eapply IH; [done | lia].
Qed.

(** With a step that is not positive the index never passes the end. *)
Lemma chunk_loop_stuck fuel : ∀ i acc,
  chunk_size ≤ overlap → i < Z.of_nat (length words) →
  chunk_loop fuel words chunk_size overlap i acc = None.
Proof.
  induction fuel as [| fuel IH]; intros i acc Hstep Hi; [done |].
  simpl. destruct (Z.ltb_spec i (Z.of_nat (length words))); [| lia].
  apply IH; lia.
Qed.

(** With a positive step the loop emits the windows at [a], [a + s],
    [a + 2s], ... until the start passes the end. *)
Lemma chunk_loop_windows (c o : nat) :
  chunk_size = Z.of_nat c → overlap = Z.of_nat o → (o < c)%nat →
  ∀ fuel a acc, (length words - a < fuel)%nat →
  ∃ k : nat,
    chunk_loop fuel words chunk_size overlap (Z.of_nat a) acc
    = Some (acc ++ map (λ j, join (lit " ") (take c (drop (a + j * (c - o)) words)))
                       (seq 0 k))
    ∧ (length words <= a + k * (c - o))%nat
    ∧ (∀ j, (j < k)%nat → (a + j * (c - o) < length words)%nat).
Proof.
  intros -> -> Hlt. induction fuel as [| fuel IH]; intros a acc Hfuel; [lia |].
  cbn [chunk_loop]. destruct (Z.ltb_spec (Z.of_nat a) (Z.of_nat (length words))) as [Hin | Hout].
  - replace (Z.of_nat a + (Z.of_nat c - Z.of_nat o))
      with (Z.of_nat (a + (c - o))) by lia.
    destruct (IH (a + (c - o))%nat
                (acc ++ [join (lit " ") (slice words (Z.of_nat a) (Z.of_nat a + Z.of_nat c))]))
      as (k & Hrun & Hend & Hstarts); [lia |].
    exists (S k). split; [| split].
    + rewrite Hrun. f_equal. rewrite <- app_assoc. f_equal.
      rewrite slice_window. cbn [seq map]. rewrite Nat.add_0_r. f_equal.
      rewrite <- seq_shift, map_map. apply map_ext. intros j.
      do 3 f_equal. lia.
    + lia.
    + intros [| j] Hj; [lia |]. specialize (Hstarts j). lia.
  - exists 0%nat. split; [by rewrite app_nil_r |]. split; [lia |]. intros; lia.
Qed.
End ChunkLoop.

(** With an overlap that is not below the window size, the chunker returns
    for no text that has a word. *)
Lemma chunk_text_never_returns (text : pystr) (chunk_size overlap : Z) :
  split text ≠ [] → chunk_size ≤ overlap →
  ∀ fuel, Ingestion.chunk_text fuel text chunk_size overlap = None.
Proof.
  intros Hwords Hstep fuel. unfold Ingestion.chunk_text.
  apply chunk_loop_stuck; [done |]. destruct (split text); [done | simpl; lia].
Qed.

(** With the default window of 350 words and overlap of 50 the chunker
    returns for every text. *)
Lemma chunk_text_default_total (text : pystr) :
  ∃ chunks, Ingestion.chunk_text_default (PStr text) = Ok chunks.
Proof.
  unfold Ingestion.chunk_text_default, Ingestion.chunk_text.
  destruct (chunk_loop_windows (split text) 350 50 350 50 eq_refl eq_refl)
    with (fuel := S (length (split text))) (a := 0%nat) (acc := @nil pystr)
    as (k & Hrun & _); [lia | lia |].
  change (Z.of_nat 0) with 0 in Hrun. rewrite Hrun. by eexists.
Qed.

(** ** Chunker: claims *)

(** C1 (the code lacks the guard). With [overlap = chunk_size = 1] on the
    one-word text "a" the step [chunk_size - overlap] is 0: no configuration
    error is raised, the loop condition [i < len(words)] stays true, and no
    amount of fuel lets [chunk_text] return. *)
Theorem chunk_text_overlap_unguarded :
  ∀ fuel, Ingestion.chunk_text fuel (lit "a") 1 1 = None.
Proof.
  intros fuel. unfold Ingestion.chunk_text.
  apply chunk_loop_stuck; [lia |]. vm_compute. reflexivity.
Qed.

(** C2. For [0 ≤ overlap < chunk_size], [chunk_text] returns (any fuel above
    the word count suffices) a list of chunks in which chunk [j] is the
    window of [chunk_size] words starting at word [j * (chunk_size -
    overlap)], every such start lies inside the text, and the chunks' words
    with the overlaps removed are exactly [text.split()]. *)
Theorem chunk_text_reconstructs (text : pystr) (chunk_size overlap : Z) :
  0 ≤ overlap < chunk_size →
  ∃ chunks : list pystr,
    (∀ fuel, (length (split text) < fuel)%nat →
       Ingestion.chunk_text fuel text chunk_size overlap = Some chunks)
    ∧ (∀ (j : nat) (c : pystr), chunks !! j = Some c →
         let start := Z.of_nat j * (chunk_size - overlap) in
         start < Z.of_nat (length (split text))
         ∧ c = join (lit " ") (slice (split text) start (start + chunk_size)))
    ∧ Spec.remove_overlaps overlap (map split chunks) = split text.
Proof.
  intros [Ho Hc].
  set (words := split text).
  assert (∃ c : nat, chunk_size = Z.of_nat c) as [c ->]
    by (exists (Z.to_nat chunk_size); lia).
  assert (∃ o : nat, overlap = Z.of_nat o) as [o ->]
    by (exists (Z.to_nat overlap); lia).
  assert (Hoc : (o < c)%nat) by lia.
  destruct (chunk_loop_windows words _ _ c o eq_refl eq_refl Hoc
              (S (length words)) 0%nat []) as (k & Hrun & Hend & Hstarts); [lia |].
  rewrite app_nil_l in Hrun. simpl Nat.add in Hrun, Hend, Hstarts.
  eexists. split; [| split].
  - intros fuel Hfuel. unfold Ingestion.chunk_text. fold words.
    eapply chunk_loop_mono; [exact Hrun | lia].
  - intros j ch Hj. cbn zeta.
    apply list_lookup_fmap_Some in Hj as (j' & -> & Hj').
    apply lookup_seq in Hj' as [-> Hjk]. simpl Nat.add.
    split; [specialize (Hstarts j Hjk); nia |].
    replace (Z.of_nat j * (Z.of_nat c - Z.of_nat o))
      with (Z.of_nat (j * (c - o))) by nia.
    by rewrite slice_window.
  - rewrite map_map.
    rewrite (map_ext_in _ (λ j, take c (drop (j * (c - o)) words))).
    2:{ intros j Hj. apply split_join.
        eapply Forall_take, Forall_drop, split_words. }
    destruct k as [| k].
    + simpl. destruct words; [done | simpl in Hend; lia].
    + cbn [seq map Spec.remove_overlaps]. rewrite map_map.
      rewrite (map_ext_in _ (λ j, drop o (take (o + (c - o)) (drop (j * (c - o)) words)))).
      2:{ intros j _. rewrite slice_from_nat. do 2 f_equal. lia. }
      replace c with (o + (c - o))%nat at 1 by lia.
      change (0 * (c - o))%nat with 0%nat.
      rewrite (glue_windows words o (c - o) k).
      apply take_ge. lia.
Qed.

(** Witness for C2: a five-word text with windows of 3 words overlapping
    by 1. *)
Lemma chunk_text_reconstructs_witness :
  0 ≤ 1 < 3
  ∧ ∃ chunks : list pystr,
      (∀ fuel, (length (split (lit "a b c d e")) < fuel)%nat →
         Ingestion.chunk_text fuel (lit "a b c d e") 3 1 = Some chunks)
      ∧ Spec.remove_overlaps 1 (map split chunks) = split (lit "a b c d e").
Proof.
  assert (Hparams : 0 ≤ 1 < 3) by lia.
  split; [exact Hparams |].
  destruct (chunk_text_reconstructs (lit "a b c d e") 3 1 Hparams)
    as (chunks & Hrun & _ & Hwords).
  exists chunks. split; [exact Hrun | exact Hwords].
Defined.

(** ** The order on paths *)

#[local] Instance str_le_total : Total Store.str_le.
Proof.
  intros a. unfold Store.str_le.
  induction a as [| x a IH]; intros [| y b]; simpl; auto.
  destruct (N.ltb_spec x y), (N.ltb_spec y x); auto; try lia.
  destruct (N.eqb_spec x y), (N.eqb_spec y x); auto; lia.
Qed.

#[local] Instance str_le_trans : Transitive Store.str_le.
Proof.
  intros a. unfold Store.str_le.
  induction a as [| x a IH]; intros [| y b] [| z c]; simpl; auto; try done.
  destruct (N.ltb_spec x y), (N.ltb_spec y z), (N.ltb_spec x z); auto; try lia.
  - destruct (N.eqb_spec y z); [lia | done].
  - destruct (N.eqb_spec x y); [lia | done].
  - destruct (N.eqb_spec x y), (N.eqb_spec y z), (N.eqb_spec x z);
      try done; try lia. apply IH.
Qed.

(** ** Collecting the corpus *)

Section Collect.
Import Store EmbedIndex.
Variable files : fs.

Lemma collect_file_article acc p :
  Spec.article_file files p →
  collect_file files acc p
  = Ok (acc.1 ++ Spec.chunks_of files p, acc.2 ++ Spec.entries_of files p).
Proof.
  intros (d & items & Hread & Hiter).
  unfold collect_file, Spec.entries_of, Spec.chunks_of, Spec.describes.
  rewrite Hread. cbn [mbind result_bind bind get Spec.field].
  rewrite Hiter. reflexivity.
Qed.

Lemma collect_loop_articles paths : ∀ acc,
  Forall (Spec.article_file files) paths →
  collect_loop files acc paths
  = Ok (acc.1 ++ concat (map (Spec.chunks_of files) paths),
        acc.2 ++ concat (map (Spec.entries_of files) paths)).
Proof.
  induction paths as [| p paths IH]; intros [docs metas] Hall.
  - simpl. by rewrite !app_nil_r.
  - inversion Hall as [| ? ? Hp Hrest]; subst.
    cbn [collect_loop]. rewrite collect_file_article by done.
    cbn [mbind result_bind bind]. rewrite IH by done.
    cbn [fst snd map concat]. by rewrite !app_assoc.
Qed.

Lemma length_entries_of p :
  length (Spec.entries_of files p) = length (Spec.chunks_of files p).
Proof. apply length_imap. Qed.

(** Position [j] of the flattened metadata falls in some file [p] at some
    chunk position [i], and the flattened chunks hold that file's chunk
    [i] at the same position [j]. *)
Lemma aligned_lookup paths : ∀ j m,
  concat (map (Spec.entries_of files) paths) !! j = Some m →
  ∃ p i doc,
    p ∈ paths
    ∧ Spec.chunks_of files p !! i = Some doc
    ∧ concat (map (Spec.chunks_of files) paths) !! j = Some doc
    ∧ m = Spec.describes files p i.
Proof.
  induction paths as [| p paths IH]; intros j m Hj; [done |].
  cbn [map concat] in *.
  destruct (Nat.lt_ge_cases j (length (Spec.entries_of files p))) as [Hlt | Hge].
  - rewrite lookup_app_l in Hj by done.
    unfold Spec.entries_of in Hj. rewrite list_lookup_imap in Hj.
    destruct (Spec.chunks_of files p !! j) as [doc |] eqn:Hdoc; [| done].
    injection Hj as <-. exists p, j, doc.
    split; [apply list_elem_of_here |]. split; [done |]. split; [| done].
    rewrite lookup_app_l; [done |]. by rewrite <- length_entries_of.
  - rewrite lookup_app_r in Hj by done.
    destruct (IH _ _ Hj) as (q & i & doc & Hq & Hdoc & Hcat & ->).
    exists q, i, doc. split; [by apply list_elem_of_further |].
    split; [done |]. split; [| done].
    rewrite lookup_app_r by (rewrite <- length_entries_of; lia).
    by rewrite <- length_entries_of.
Qed.
End Collect.

(** ** Corpus collection: claims *)

(** C3. On a corpus with at least one article file, [collect_docs] returns
    the chunk list and the metadata list with equal lengths; both are laid
    out in corpus order (files by sorted path, chunks in file order); and
    the entry at every position [j] describes the chunk at position [j]:
    it is the entry of some file [p] and chunk position [i], its
    [chunk_index] is [i], and [docs[j]] is chunk [i] of [p]. *)
Theorem collect_docs_aligned (files : Store.fs) :
  Store.glob_data_json files ≠ [] →
  Forall (Spec.article_file files) (Store.glob_data_json files) →
  ∃ docs metadatas : list pyval,
    EmbedIndex.collect_docs files = Ok (docs, metadatas)
    ∧ length docs = length metadatas
    ∧ (let paths := Store.sorted (Store.glob_data_json files) in
       StronglySorted Store.str_le paths
       ∧ paths ≡ₚ Store.glob_data_json files
       ∧ docs = concat (map (Spec.chunks_of files) paths)
       ∧ metadatas
         = concat (map (λ p, imap (λ i _, Spec.describes files p i)
                                  (Spec.chunks_of files p)) paths))
    ∧ (∀ (j : nat) (m : pyval), metadatas !! j = Some m →
       ∃ (p : pystr) (i : nat) (doc : pyval),
         p ∈ Store.glob_data_json files
         ∧ Spec.chunks_of files p !! i = Some doc
         ∧ docs !! j = Some doc
         ∧ m = Spec.describes files p i
         ∧ get m (lit "chunk_index") PNone = Ok (PInt (Z.of_nat i))).
Proof.
  intros Hne Hall.
  pose proof (merge_sort_Permutation Store.str_le (Store.glob_data_json files))
    as Hperm.
  fold (Store.sorted (Store.glob_data_json files)) in Hperm.
  assert (Hsorted_all :
    Forall (Spec.article_file files) (Store.sorted (Store.glob_data_json files)))
    by (by rewrite Hperm).
  exists (concat (map (Spec.chunks_of files)
                      (Store.sorted (Store.glob_data_json files)))),
         (concat (map (Spec.entries_of files)
                      (Store.sorted (Store.glob_data_json files)))).
  split; [| split; [| split]].
  - unfold EmbedIndex.collect_docs.
    destruct (Store.sorted (Store.glob_data_json files)) as [| p paths] eqn:Hs.
    + apply Permutation_nil_l in Hperm. by symmetry in Hperm.
    + by rewrite collect_loop_articles.
  - rewrite !length_concat. f_equal. rewrite !map_map.
    apply map_ext. intros p. symmetry. apply length_entries_of.
  - cbn zeta. split; [apply StronglySorted_merge_sort; apply _ |]. done.
  - intros j m Hj.
    destruct (aligned_lookup files _ _ _ Hj) as (p & i & doc & Hp & Hdoc & Hcat & ->).
    exists p, i, doc. rewrite Hperm in Hp.
    repeat split; try done.
    rewrite Forall_forall in Hall.
    destruct (Hall p) as (d & items & Hread & _); [done |].
    unfold Spec.describes. by rewrite Hread.
Qed.

Example collect_docs_two_files :
  EmbedIndex.collect_docs Examples.two_files
  = Ok ([PStr (lit "a0"); PStr (lit "a1"); PStr (lit "b0")],
        [EmbedIndex.metadata_entry (PStr (lit "a")) PNone PNone PNone PNone 0;
         EmbedIndex.metadata_entry (PStr (lit "a")) PNone PNone PNone PNone 1;
         EmbedIndex.metadata_entry (PStr (lit "b")) PNone PNone PNone PNone 0]).
Proof. vm_compute. reflexivity. Qed.

(** Witness for C3: the two sample files are article files, and the theorem
    applies to them. *)
Lemma collect_docs_aligned_witness :
  Store.glob_data_json Examples.two_files ≠ []
  ∧ Forall (Spec.article_file Examples.two_files)
           (Store.glob_data_json Examples.two_files)
  ∧ ∃ docs metadatas : list pyval,
      EmbedIndex.collect_docs Examples.two_files = Ok (docs, metadatas)
      ∧ length docs = length metadatas
      ∧ ∀ (j : nat) (m : pyval), metadatas !! j = Some m →
        ∃ (p : pystr) (i : nat) (doc : pyval),
          Spec.chunks_of Examples.two_files p !! i = Some doc
          ∧ docs !! j = Some doc
          ∧ get m (lit "chunk_index") PNone = Ok (PInt (Z.of_nat i)).
Proof.
  assert (Hne : Store.glob_data_json Examples.two_files ≠ [])
    by (vm_compute; discriminate).
  assert (Hall : Forall (Spec.article_file Examples.two_files)
                        (Store.glob_data_json Examples.two_files)).
  { change (Store.glob_data_json Examples.two_files)
      with [lit "data/b.json"; lit "data/a.json"].
    repeat apply Forall_cons_2; [| | apply Forall_nil_2];
      eexists _, _; split; vm_compute; reflexivity. }
  split; [exact Hne |]. split; [exact Hall |].
  destruct (collect_docs_aligned Examples.two_files Hne Hall)
    as (docs & metadatas & Hrun & Hlen & _ & Hpos).
  exists docs, metadatas. split; [exact Hrun |]. split; [exact Hlen |].
  intros j m Hj. destruct (Hpos j m Hj) as (p & i & doc & _ & Hdoc & Hj' & _ & Hidx).
  exists p, i, doc. auto.
Defined.

(** ** Querying the index *)

Section Query.
Import EmbedIndex.
Context {vec faiss_index ndarray : Type}.
Variable encode_query : pystr → vec.
Variable search : faiss_index → vec → Z → result (list spec_float * list Z).
Variable metadatas : list pyval.
Variable D0 : list spec_float.

(** The loop emits one hit per label, in order, as long as every label
    indexes the metadata list. *)
Lemma query_loop_hits (I0 : list Z) : ∀ (rank : nat) (acc : list hit),
  (∀ idx, idx ∈ I0 → is_Some (index metadatas idx)) →
  (rank + length I0 <= length D0)%nat →
  ∃ hits : list hit,
    query_loop metadatas D0 rank I0 acc = Ok (acc ++ hits)
    ∧ length hits = length I0
    ∧ ∀ (r : nat) (h : hit), hits !! r = Some h →
        EmbedIndex.rank h = Z.of_nat (rank + r) + 1
        ∧ D0 !! (rank + r)%nat = Some (score h)
        ∧ ∃ idx, I0 !! r = Some idx ∧ index metadatas idx = Some (metadata h).
Proof.
  induction I0 as [| idx I0 IH]; intros rank acc Hidx Hlen.
  - exists []. split; [by rewrite app_nil_r |]. split; [done |]. intros r h Hr. done.
  - destruct (Hidx idx) as [meta Hmeta]; [apply list_elem_of_here |].
    destruct (lookup_lt_is_Some_2 D0 rank) as [sc Hsc]; [simpl in Hlen; lia |].
    destruct (IH (S rank) (acc ++ [Hit (Z.of_nat rank + 1) sc meta]))
      as (hits & Hrun & Hhits & Hspec).
    { intros i Hi. apply Hidx. by apply list_elem_of_further. }
    { simpl in Hlen. lia. }
    exists (Hit (Z.of_nat rank + 1) sc meta :: hits).
    split; [| split].
    + cbn [query_loop]. rewrite Hmeta, Hsc. cbn [of_option mbind result_bind bind].
      rewrite Hrun. by rewrite <- app_assoc.
    + simpl. by rewrite Hhits.
    + intros [| r] h Hr.
      * injection Hr as <-. cbn [EmbedIndex.rank score metadata].
        rewrite Nat.add_0_r. split; [done |]. split; [done |]. by exists idx.
      * destruct (Hspec r h Hr) as (Hrank & Hd & Hi).
        replace (rank + S r)%nat with (S rank + r)%nat by lia. done.
Qed.
Lemma index_nonneg (idx : Z) :
  0 ≤ idx → index metadatas idx = metadatas !! Z.to_nat idx.
Proof. intros Hidx. unfold index. by destruct (Z.ltb_spec idx 0); [lia |]. Qed.

Lemma index_minus_one : index metadatas (-1) = last metadatas.
Proof.
  unfold index. change (-1 <? 0) with true. cbn match.
  rewrite last_lookup. destruct metadatas as [| m ms]; [done |].
  destruct (Z.leb_spec 0 (-1 + Z.of_nat (length (m :: ms)))) as [_ | Hneg];
    [| simpl in Hneg; lia].
  f_equal. simpl. lia.
Qed.

(** C4. When the search over an index of [N] chunks is asked for [k ≤ N]
    neighbours, [query_index] returns exactly [k] results; the result at
    position [r] has rank [r + 1], the distance [D[0][r]] as its score and
    the metadata entry at the returned label [I[0][r]]; and scores do not
    decrease with the rank. *)
Theorem query_index_ranked (index : faiss_index) (embs : ndarray)
    (query_text : pystr) (top_k : Z) (I0 : list Z) :
  search index (encode_query query_text) top_k = Ok (D0, I0) →
  Spec.knn_rows (length metadatas) top_k D0 I0 →
  top_k ≤ Z.of_nat (length metadatas) →
  ∃ results : list hit,
    query_index encode_query search (Some (index, metadatas, embs)) query_text top_k
    = Ok results
    ∧ length results = Z.to_nat top_k
    ∧ (∀ (r : nat) (h : hit), results !! r = Some h →
         EmbedIndex.rank h = Z.of_nat r + 1
         ∧ D0 !! r = Some (score h)
         ∧ ∃ idx, I0 !! r = Some idx
                  ∧ 0 ≤ idx < Z.of_nat (length metadatas)
                  ∧ metadatas !! Z.to_nat idx = Some (metadata h))
    ∧ (∀ (r1 r2 : nat) (h1 h2 : hit), (r1 < r2)%nat →
         results !! r1 = Some h1 → results !! r2 = Some h2 →
         SFleb (score h1) (score h2) = true).
Proof.
  intros Hsearch (HlenD & HlenI & Hlabels & Hsorted) Hk.
  assert (Hvalid : ∀ r idx, I0 !! r = Some idx →
                            0 ≤ idx < Z.of_nat (length metadatas)).
  { intros r idx Hr. specialize (Hlabels r idx Hr).
    apply lookup_lt_Some in Hr. by destruct (decide _); [| lia]. }
  destruct (query_loop_hits I0 0%nat []) as (hits & Hrun & Hlen & Hspec).
  { intros idx [r Hr]%list_elem_of_lookup. destruct (Hvalid r idx Hr).
    rewrite index_nonneg by done. apply lookup_lt_is_Some_2. lia. }
  { lia. }
  exists hits. split; [| split; [| split]].
  - unfold query_index. cbn [load_index of_option mbind result_bind bind].
    rewrite Hsearch. exact Hrun.
  - lia.
  - intros r h Hr. destruct (Hspec r h Hr) as (Hrank & Hd & idx & Hi & Hmeta).
    split; [done |]. split; [done |]. exists idx. split; [done |].
    split; [by eapply Hvalid |]. rewrite <- index_nonneg; [done |].
    by eapply Hvalid.
  - intros r1 r2 h1 h2 Hlt Hr1 Hr2.
    destruct (Hspec r1 h1 Hr1) as (_ & Hd1 & _).
    destruct (Hspec r2 h2 Hr2) as (_ & Hd2 & _).
    by eapply (Hsorted r1 r2).
Qed.

(** C5. When [k] exceeds the number [N ≥ 1] of indexed chunks,
    [query_index] does not raise: it returns [k] results, of which only
    the first [N] are neighbours (each with the metadata at its label);
    every later result is padding, with label [-1] and, through Python's
    negative indexing, the last metadata entry. *)
Theorem query_index_beyond_corpus (index : faiss_index) (embs : ndarray)
    (query_text : pystr) (top_k : Z) (I0 : list Z) :
  search index (encode_query query_text) top_k = Ok (D0, I0) →
  Spec.knn_rows (length metadatas) top_k D0 I0 →
  (0 < length metadatas)%nat →
  Z.of_nat (length metadatas) < top_k →
  ∃ results : list hit,
    query_index encode_query search (Some (index, metadatas, embs)) query_text top_k
    = Ok results
    ∧ length results = Z.to_nat top_k
    ∧ (∀ (r : nat) (h : hit), results !! r = Some h →
         ((r < length metadatas)%nat →
            ∃ idx, I0 !! r = Some idx
                   ∧ 0 ≤ idx < Z.of_nat (length metadatas)
                   ∧ metadatas !! Z.to_nat idx = Some (metadata h))
         ∧ ((length metadatas <= r)%nat →
            I0 !! r = Some (-1) ∧ last metadatas = Some (metadata h))).
Proof.
  intros Hsearch (HlenD & HlenI & Hlabels & Hsorted) Hpos Hk.
  destruct (query_loop_hits I0 0%nat []) as (hits & Hrun & Hlen & Hspec).
  { intros idx [r Hr]%list_elem_of_lookup. specialize (Hlabels r idx Hr).
    destruct (decide _).
    - rewrite index_nonneg by lia. apply lookup_lt_is_Some_2. lia.
    - subst idx. rewrite index_minus_one, last_lookup.
      apply lookup_lt_is_Some_2. lia. }
  { lia. }
  exists hits. split; [| split].
  - unfold query_index. cbn [load_index of_option mbind result_bind bind].
    rewrite Hsearch. exact Hrun.
  - lia.
  - intros r h Hr. destruct (Hspec r h Hr) as (_ & _ & idx & Hi & Hmeta).
    specialize (Hlabels r idx Hi). simpl in Hi. split; intros Hr'.
    + destruct (decide _); [| lia]. exists idx. split; [done |]. split; [done |].
      rewrite <- index_nonneg; [done | lia].
    + destruct (decide _); [lia |]. subst idx. split; [done |].
      by rewrite <- index_minus_one.
Qed.
End Query.

(** Witness for C4: two indexed entries, two neighbours asked for. *)
Lemma query_index_ranked_witness :
  Spec.knn_rows 2 2 [Examples.f_zero; Examples.f_one] [1; 0]
  ∧ ∃ results : list EmbedIndex.hit,
      EmbedIndex.query_index (λ _, tt) Examples.search_two
        (Some (tt, Examples.two_entries, tt)) (lit "q") 2 = Ok results
      ∧ length results = 2%nat.
Proof.
  assert (Hrows : Spec.knn_rows 2 2 [Examples.f_zero; Examples.f_one] [1; 0]).
  { split; [reflexivity |]. split; [reflexivity |]. split.
    - intros [| [| r]] idx Hr; simplify_eq/=; lia.
    - intros [| [| r1]] [| [| [| r2]]] d1 d2 Hlt H1 H2; simplify_eq/=;
        try lia; reflexivity. }
  split; [exact Hrows |].
  destruct (query_index_ranked (λ _, tt) Examples.search_two Examples.two_entries
              [Examples.f_zero; Examples.f_one] tt tt (lit "q") 2 [1; 0]
              eq_refl Hrows)
    as (results & Hrun & Hlen & _); [simpl; lia |].
  exists results. split; [exact Hrun | exact Hlen].
Defined.

(** Witness for C5: one indexed entry, two neighbours asked for. *)
Lemma query_index_beyond_corpus_witness :
  Spec.knn_rows 1 2 [Examples.f_zero; Examples.f_max32] [0; -1]
  ∧ ∃ results : list EmbedIndex.hit,
      EmbedIndex.query_index (λ _, tt) Examples.search_padded
        (Some (tt, take 1 Examples.two_entries, tt)) (lit "q") 2 = Ok results
      ∧ length results = 2%nat.
Proof.
  assert (Hrows : Spec.knn_rows 1 2 [Examples.f_zero; Examples.f_max32] [0; -1]).
  { split; [reflexivity |]. split; [reflexivity |]. split.
    - intros [| [| r]] idx Hr; simplify_eq/=; lia.
    - intros [| [| r1]] [| [| [| r2]]] d1 d2 Hlt H1 H2; simplify_eq/=;
        try lia; reflexivity. }
  split; [exact Hrows |].
  destruct (query_index_beyond_corpus (λ _, tt) Examples.search_padded
              (take 1 Examples.two_entries)
              [Examples.f_zero; Examples.f_max32] tt tt (lit "q") 2 [0; -1]
              eq_refl Hrows)
    as (results & Hrun & Hlen & _); [simpl; lia | simpl; lia |].
  exists results. split; [exact Hrun | exact Hlen].
Defined.

Example query_index_padding :
  EmbedIndex.query_index (λ _, tt) Examples.search_padded
    (Some (tt, take 1 Examples.two_entries, tt)) (lit "q") 2
  = Ok [EmbedIndex.Hit 1 Examples.f_zero
          (EmbedIndex.metadata_entry (PStr (lit "a")) PNone PNone PNone PNone 0);
        EmbedIndex.Hit 2 Examples.f_max32
          (EmbedIndex.metadata_entry (PStr (lit "a")) PNone PNone PNone PNone 0)].
Proof. reflexivity. Qed.

(** ** The decoder always has fuel enough *)

Section DecoderLengths.
Import Json.

Lemma skip_ws_length l : (length (skip_ws l) <= length l)%nat.
Proof. induction l as [| c l IH]; simpl; [lia |]. destruct (is_ws c); simpl; lia. Qed.

Lemma skip_ws_cons l c l1 : skip_ws l = c :: l1 → (S (length l1) <= length l)%nat.
Proof. intros H. pose proof (skip_ws_length l) as Hl. rewrite H in Hl. exact Hl. Qed.

Lemma starts_with_length p l : starts_with p l = true → (length p <= length l)%nat.
Proof.
  revert l. induction p as [| a p IH]; intros [| b l]; simpl; try lia; try done.
  intros [_ H]%andb_true_iff. apply IH in H. lia.
Qed.

Lemma scanstring_shorter fuel : ∀ l acc s r,
  scanstring fuel l acc = Ok (s, r) → (length r < length l)%nat.
Proof.
  induction fuel as [| fuel IH]; intros l acc s r; [done |].
  cbn [scanstring]. destruct l as [| c l']; [done |].
  destruct (c =? 34)%N; [intros [= <- <-]; simpl; lia |].
  destruct (c =? 92)%N.
  - destruct l' as [| esc l'']; [done |].
    destruct (esc =? 117)%N.
    + destruct (decode_uXXXX l'') as [uni |]; [| done]. cbn [mbind result_bind bind].
      destruct (_ && starts_with _ _).
      * destruct (decode_uXXXX _) as [uni2 |]; [| done]. cbn [mbind result_bind bind].
        destruct (_ && _); intros H%IH; rewrite ?length_drop in H; simpl; lia.
      * intros H%IH. rewrite ?length_drop in H. simpl. lia.
    + destruct (backslash esc); [| done]. intros H%IH. simpl. lia.
  - destruct (c <? 32)%N; [done |]. intros H%IH. simpl. lia.
Qed.

Lemma no_oof_bind {A B} (m : result A) (k : A → result B) :
  Spec.no_oof m → (∀ a, m = Ok a → Spec.no_oof (k a)) → Spec.no_oof (m ≫= k).
Proof. destruct m as [a | e]; simpl; auto. Qed.

Lemma scanstring_fuel fuel : ∀ l acc,
  (length l < fuel)%nat → Spec.no_oof (scanstring fuel l acc).
Proof.
  induction fuel as [| fuel IH]; intros l acc Hf; [lia |].
  cbn [scanstring]. destruct l as [| c l']; [done |]. simpl in Hf.
  destruct (c =? 34)%N; [done |].
  destruct (c =? 92)%N.
  - destruct l' as [| esc l'']; [done |]. simpl in Hf.
    destruct (esc =? 117)%N.
    + apply no_oof_bind; [by destruct (decode_uXXXX l'') as [|[]] eqn:E; try done; unfold decode_uXXXX in E; repeat case_match; simplify_eq |].
      intros uni _.
      destruct (_ && starts_with _ _).
      * apply no_oof_bind; [by destruct (decode_uXXXX _) as [|[]] eqn:E; try done; unfold decode_uXXXX in E; repeat case_match; simplify_eq |].
        intros uni2 _.
        destruct (_ && _); apply IH; rewrite ?length_drop; lia.
      * apply IH. rewrite ?length_drop. lia.
    + destruct (backslash esc); [| done]. apply IH. lia.
  - destruct (c <? 32)%N; [done |]. apply IH. lia.
Qed.

Lemma span_digits_length l : ∀ ds r, span_digits l = (ds, r) → (length r <= length l)%nat.
Proof.
  induction l as [| c l IH]; intros ds r; simpl; [intros [= <- <-]; simpl; lia |].
  destruct (is_digit c); [| intros [= <- <-]; simpl; lia].
  destruct (span_digits l) as [ds' r'] eqn:E. intros [= <- <-].
  specialize (IH _ _ eq_refl). lia.
Qed.

Lemma match_integer_shorter l i r :
  match_integer l = Some (i, r) → (length r < length l)%nat.
Proof.
  unfold match_integer. intros H.
  repeat case_match; simplify_eq;
    repeat match goal with
      | E : span_digits _ = _ |- _ => apply span_digits_length in E
      end; cbn [length] in *; try lia.
Qed.

Lemma match_frac_length l f r : match_frac l = (f, r) → (length r <= length l)%nat.
Proof.
  unfold match_frac. intros H.
  repeat case_match; simplify_eq;
    repeat match goal with
      | E : span_digits _ = _ |- _ => apply span_digits_length in E
      end; cbn [length] in *; try lia.
Qed.

Lemma match_exp_length l f r : match_exp l = (f, r) → (length r <= length l)%nat.
Proof.
  unfold match_exp. intros H.
  repeat case_match; simplify_eq;
    repeat match goal with
      | E : span_digits _ = _ |- _ => apply span_digits_length in E
      end; cbn [length] in *; try lia.
Qed.

End DecoderLengths.

Section DecoderFuel.
Import Json.
Variable pf : pystr → spec_float.

Ltac lens :=
  repeat match goal with
    | E : span_digits _ = _ |- _ => apply span_digits_length in E
    | E : match_integer _ = Some _ |- _ => apply match_integer_shorter in E
    | E : match_frac _ = _ |- _ => apply match_frac_length in E
    | E : match_exp _ = _ |- _ => apply match_exp_length in E
    | E : skip_ws _ = _ :: _ |- _ => apply skip_ws_cons in E
    | E : starts_with _ _ = true |- _ => apply starts_with_length in E
    | E : scanstring _ _ _ = Ok _ |- _ => apply scanstring_shorter in E
    end.

Lemma decode_shorter fuel :
  (∀ l v r, scan_once pf fuel l = Ok (v, r) → (length r < length l)%nat)
  ∧ (∀ l v r, json_object pf fuel l = Ok (v, r) → (length r < length l)%nat)
  ∧ (∀ l ps v r, object_members pf fuel l ps = Ok (v, r) → (length r < length l)%nat)
  ∧ (∀ l v r, json_array pf fuel l = Ok (v, r) → (length r < length l)%nat)
  ∧ (∀ l vs v r, array_elems pf fuel l vs = Ok (v, r) → (length r < length l)%nat).
Proof.
  induction fuel as [| fuel (IHs & IHo & IHm & IHa & IHe)]; [by repeat split |].
  repeat split.
  - intros l v r. cbn [scan_once]. intros H.
    destruct l as [| c l']; [done |].
    destruct (c =? 34)%N.
    { destruct (scanstring _ l' []) as [[s r'] |] eqn:E; [| done].
      cbn in H. simplify_eq. lens. simpl. lia. }
    destruct (c =? 123)%N; [apply IHo in H; simpl; lia |].
    destruct (c =? 91)%N; [apply IHa in H; simpl; lia |].
    repeat case_match; simplify_eq; lens; rewrite ?length_drop; cbn [length lit] in *; try lia.
  - intros l v r. cbn [json_object]. intros H.
    repeat case_match; simplify_eq; lens; try (apply IHm in H); cbn [length] in *; lia.
  - intros l ps v r. cbn [object_members]. intros H.
    destruct (scanstring _ l []) as [[key l1] |] eqn:E; [| done].
    cbn [mbind result_bind bind] in H.
    destruct (skip_ws l1) as [| c l2] eqn:E1; [done |].
    destruct (c =? 58)%N; [| done].
    destruct (scan_once pf fuel (skip_ws l2)) as [[value l3] |] eqn:E2; [| done].
    cbn [mbind result_bind bind] in H. apply IHs in E2.
    pose proof (skip_ws_length l2).
    repeat case_match; simplify_eq; lens; try (apply IHm in H); cbn [length] in *; lia.
  - intros l v r. cbn [json_array]. intros H.
    pose proof (skip_ws_length l).
    repeat case_match; simplify_eq; lens; try (apply IHe in H); cbn [length] in *; try lia.
    all: match goal with E : skip_ws _ = _ |- _ => rewrite E in * end; cbn [length] in *; lia.
  - intros l vs v r. cbn [array_elems]. intros H.
    destruct (scan_once pf fuel l) as [[value l1] |] eqn:E2; [| done].
    cbn [mbind result_bind bind] in H. apply IHs in E2.
    destruct (skip_ws l1) as [| c l2] eqn:E1; [done |].
    pose proof (skip_ws_length l2).
    repeat case_match; simplify_eq; lens; try (apply IHe in H); cbn [length] in *; lia.
Qed.
Ltac lens' :=
  repeat match goal with
    | E : span_digits _ = _ |- _ => apply span_digits_length in E
    | E : match_integer _ = Some _ |- _ => apply match_integer_shorter in E
    | E : match_frac _ = _ |- _ => apply match_frac_length in E
    | E : match_exp _ = _ |- _ => apply match_exp_length in E
    | E : skip_ws _ = _ :: _ |- _ => apply skip_ws_cons in E
    | E : starts_with _ _ = true |- _ => apply starts_with_length in E
    | E : scanstring _ _ _ = Ok _ |- _ => apply scanstring_shorter in E
    | E : scan_once _ _ _ = Ok _ |- _ => apply (proj1 (decode_shorter _)) in E
    end.

Lemma decode_fuel fuel :
  (∀ l, (3 * length l + 1 <= fuel)%nat → Spec.no_oof (scan_once pf fuel l))
  ∧ (∀ l, (3 * length l + 3 <= fuel)%nat → Spec.no_oof (json_object pf fuel l))
  ∧ (∀ l ps, (3 * length l + 2 <= fuel)%nat → Spec.no_oof (object_members pf fuel l ps))
  ∧ (∀ l, (3 * length l + 3 <= fuel)%nat → Spec.no_oof (json_array pf fuel l))
  ∧ (∀ l vs, (3 * length l + 2 <= fuel)%nat → Spec.no_oof (array_elems pf fuel l vs)).
Proof.
  induction fuel as [| fuel (IHs & IHo & IHm & IHa & IHe)];
    [repeat split; intros; lia |].
  repeat split.
  - intros l Hf. cbn [scan_once].
    destruct l as [| c l']; [done |]. cbn [length] in Hf.
    destruct (c =? 34)%N.
    { apply no_oof_bind; [apply scanstring_fuel; lia |]. by intros [s r] _. }
    destruct (c =? 123)%N; [apply IHo; lia |].
    destruct (c =? 91)%N; [apply IHa; lia |].
    repeat case_match; done.
  - intros l Hf. cbn [json_object].
    destruct (skip_ws l) as [| c l1] eqn:E; [done |]. lens'.
    repeat case_match; try done. apply IHm. lia.
  - intros l ps Hf. cbn [object_members].
    apply no_oof_bind; [apply scanstring_fuel; lia |].
    intros [key l1] E.
    destruct (skip_ws l1) as [| c l2] eqn:E1; [done |].
    destruct (c =? 58)%N; [| done]. lens'.
    pose proof (skip_ws_length l2).
    apply no_oof_bind; [apply IHs; lia |].
    intros [value l3] E2.
    destruct (skip_ws l3) as [| c' l4] eqn:E3; [done |].
    destruct (c' =? 125)%N; [done |].
    destruct (c' =? 44)%N; [| done].
    destruct (skip_ws l4) as [| c'' l5] eqn:E4; [done |].
    destruct (c'' =? 34)%N; [| done]. lens'.
    apply IHm. lia.
  - intros l Hf. cbn [json_array].
    pose proof (skip_ws_length l).
    destruct (skip_ws l) as [| c l1] eqn:E; [apply IHe; simpl; lia |].
    destruct (c =? 93)%N; [done |]. apply IHe. lia.
  - intros l vs Hf. cbn [array_elems].
    apply no_oof_bind; [apply IHs; lia |].
    intros [value l1] E.
    destruct (skip_ws l1) as [| c l2] eqn:E1; [done |].
    destruct (c =? 93)%N; [done |].
    destruct (c =? 44)%N; [| done]. lens'.
    pose proof (skip_ws_length l2).
    apply IHe. lia.
Qed.

Lemma raw_decode_fuel s idx : Spec.no_oof (raw_decode pf s idx).
Proof.
  unfold raw_decode. apply no_oof_bind; [| by intros [v rest] _].
  apply (proj1 (decode_fuel _)). unfold fuel_for. rewrite length_drop. lia.
Qed.
End DecoderFuel.

Section ClientFuel.
Import Json OllamaClient.
Variable parse_float : pystr → spec_float.
Variables py_str json_dumps : pyval → pystr.

Lemma find_char_bound ch l : ∀ i, find_char ch l = Some i → (i < length l)%nat.
Proof.
  induction l as [| c l IH]; intros i; simpl; [done |].
  destruct (c =? ch)%N; [intros [= <-]; lia |].
  destruct (find_char ch l) as [j |]; [| done].
  intros [= <-]. specialize (IH j eq_refl). lia.
Qed.

Lemma find_bound s ch pos brace :
  find s ch pos = Some brace → (pos <= brace < length s)%nat.
Proof.
  unfold find. destruct (find_char ch (drop pos s)) as [i |] eqn:Hi; [| done].
  intros [= <-]. apply find_char_bound in Hi. rewrite length_drop in Hi. lia.
Qed.

(** A decoded value ends after the place where it starts. *)
Lemma raw_decode_progress s idx v e :
  raw_decode parse_float s idx = Ok (v, e) → (idx < e <= length s)%nat.
Proof.
  unfold raw_decode.
  destruct (scan_once _ _ _) as [[v' rest] |] eqn:Hscan; [| done].
  intros [= <- <-]. apply (proj1 (decode_shorter _ _)) in Hscan.
  rewrite length_drop in Hscan. lia.
Qed.

Lemma extract_loop_fuel s fuel : ∀ pos objs,
  (length s - pos < fuel)%nat →
  Spec.no_oof (extract_loop parse_float fuel s pos objs).
Proof.
  induction fuel as [| fuel IH]; intros pos objs Hf; [lia |].
  cbn [extract_loop].
  destruct (find s 123%N pos) as [brace |] eqn:Hfind; [| done].
  apply find_bound in Hfind.
  pose proof (raw_decode_fuel parse_float s brace) as Hdec.
  destruct (raw_decode parse_float s brace) as [[obj e] | err] eqn:Hraw.
  - apply raw_decode_progress in Hraw. apply IH. lia.
  - destruct err; try done. apply IH. lia.
Qed.

(** The response parser never runs out of fuel: whatever the response body,
    it returns a text or raises a Python exception. *)
Lemma response_text_fuel raw_text :
  Spec.no_oof (response_text parse_float py_str json_dumps raw_text).
Proof.
  assert (Hmulti : Spec.no_oof
    (objs ← _extract_json_objects_from_text parse_float raw_text;
     match objs with
     | [] => Ok raw_text
     | _ =>
         assembled ← _assemble_responses_from_objs objs;
         match assembled with
         | [] => Ok raw_text
         | _ => Ok assembled
         end
     end)).
  { apply no_oof_bind; [apply extract_loop_fuel; lia |].
    intros [| o objs] _; [done |].
    apply no_oof_bind; [| by intros [| c assembled] _].
    unfold _assemble_responses_from_objs.
    apply no_oof_bind; [| done].
    generalize (foldl assemble_step [] (o :: objs)).
    induction l as [| part parts IH]; [done |].
    destruct part; try done. cbn [join_parts].
    by apply no_oof_bind. }
  unfold response_text.
  assert (Hloads : Spec.no_oof (loads parse_float raw_text)).
  { unfold loads. destruct (starts_with _ _); [done |].
    apply no_oof_bind; [apply raw_decode_fuel |].
    intros [v e] _. by destruct (skip_ws _). }
  destruct (loads parse_float raw_text) as [v | err].
  - destruct v; try exact Hmulti. by destruct (first_text_field _ _ _).
  - destruct err; done || exact Hmulti.
Qed.
End ClientFuel.

(** ** The generation-response parser: claims *)

Example streamed_body_text :
  Examples.streamed_body
  = [123; 34; 114; 101; 115; 112; 111; 110; 115; 101; 34; 58; 34; 65; 32; 34; 125;
     123; 34; 114; 101; 115; 112; 111; 110; 115; 101; 34; 58; 34; 66; 34; 125]%N.
Proof. reflexivity. Qed.

Example extract_streamed_body parse_float :
  OllamaClient._extract_json_objects_from_text parse_float Examples.streamed_body
  = Ok [PDict [(lit "response", PStr (lit "A "))];
        PDict [(lit "response", PStr (lit "B"))]].
Proof. vm_compute. reflexivity. Qed.

Example single_object_response parse_float py_str json_dumps :
  OllamaClient.response_text parse_float py_str json_dumps
    (Examples.json_text "{'response': 'hello'}") = Ok (lit "hello").
Proof. vm_compute. reflexivity. Qed.

Example plain_text_response parse_float py_str json_dumps :
  OllamaClient.response_text parse_float py_str json_dumps (lit "just text")
  = Ok (lit "just text").
Proof. vm_compute. reflexivity. Qed.

(** C8. On the two response objects written back-to-back, the parser
    returns "A B": the body is not one JSON document, the two objects are
    extracted in order of occurrence, and their fragments are concatenated
    in that order. This holds whatever the float parser and the
    formatters are. *)
Theorem response_text_streamed
    (parse_float : pystr → spec_float) (py_str json_dumps : pyval → pystr) :
  Json.loads parse_float Examples.streamed_body = Raise JSONDecodeError
  ∧ OllamaClient._extract_json_objects_from_text parse_float Examples.streamed_body
    = Ok [PDict [(lit "response", PStr (lit "A "))];
          PDict [(lit "response", PStr (lit "B"))]]
  ∧ OllamaClient.response_text parse_float py_str json_dumps Examples.streamed_body
    = Ok (lit "A B").
Proof. repeat split; vm_compute; reflexivity. Qed.

(** ** The build path on an empty corpus: claims *)

Example blank_article_record :
  Examples.blank_article_store
  = [(Ingestion.record_path (lit "31011696c5c595b7089baae2cf16bdebe81777dc"),
      Store.JsonDoc
        (PDict [(lit "doc_id", PStr (lit "31011696c5c595b7089baae2cf16bdebe81777dc"));
                (lit "title", PStr (lit "T"));
                (lit "url", PStr (lit "http://e.x/1"));
                (lit "source", PNone);
                (lit "publishedAt", PNone);
                (lit "chunks", PList [])]))].
Proof. vm_compute. reflexivity. Qed.

(** C6, as stated, fails: an article whose text is only white space is
    ingested as a record with no chunks; on that corpus there are zero
    chunks to embed, yet [collect_docs] raises nothing, and the build path
    goes on to [build_faiss_index] with two empty lists, whatever the
    embedding model and FAISS are. *)
Lemma zero_chunks_not_rejected :
  Store.glob_data_json Examples.blank_article_store ≠ []
  ∧ EmbedIndex.collect_docs Examples.blank_article_store = Ok ([], [])
  ∧ ∀ (faiss_index ndarray : Type) (encode_docs : list pyval → result ndarray)
      (shape : ndarray → list Z) (index_flat_l2 : Z → ndarray → result faiss_index),
      EmbedIndex.build_index encode_docs shape index_flat_l2
        Examples.blank_article_store
      = EmbedIndex.build_faiss_index encode_docs shape index_flat_l2 [] [].
Proof.
  split; [vm_compute; discriminate |]. split; [vm_compute; reflexivity |].
  intros. unfold EmbedIndex.build_index.
  replace (EmbedIndex.collect_docs Examples.blank_article_store)
    with (Ok (([] : list pyval), ([] : list pyval))) by (vm_compute; reflexivity).
  reflexivity.
Qed.

Section BuildPath.
Import Store EmbedIndex.
Context {faiss_index ndarray : Type}.
Variable encode_docs : list pyval → result ndarray.
Variable shape : ndarray → list Z.
Variable index_flat_l2 : Z → ndarray → result faiss_index.

(** With zero chunks collected the build goes on to embed an empty list;
    no code of the build path checks for it. *)
Lemma build_index_zero_chunks (files : fs) :
  collect_docs files = Ok ([], []) →
  build_index encode_docs shape index_flat_l2 files
  = build_faiss_index encode_docs shape index_flat_l2 [] [].
Proof. intros Hcollect. unfold build_index. by rewrite Hcollect. Qed.

(** C6, amended. When no file matches [data/*.json], [collect_docs] raises
    the error that tells the user to run ingestion first, and so does the
    build path, before anything is embedded or written. *)
Theorem build_index_no_files (files : fs) :
  glob_data_json files = [] →
  collect_docs files
  = Raise (RuntimeError (lit "No json files found in data. Run ingestion first."))
  ∧ build_index encode_docs shape index_flat_l2 files
    = Raise (RuntimeError (lit "No json files found in data. Run ingestion first.")).
Proof.
  intros Hglob. unfold build_index, collect_docs. rewrite Hglob. by split.
Qed.
End BuildPath.

(** Witness for C6 (amended): a working directory whose only file is not a
    record file. *)
Lemma build_index_no_files_witness :
  Store.glob_data_json [(lit "notes.txt", Store.Unreadable OSError)] = []
  ∧ EmbedIndex.collect_docs [(lit "notes.txt", Store.Unreadable OSError)]
    = Raise (RuntimeError (lit "No json files found in data. Run ingestion first.")).
Proof.
  split; [reflexivity |].
  apply (build_index_no_files (faiss_index := unit) (ndarray := unit)
           (λ _, Raise OSError) (λ _, []) (λ _ _, Raise OSError)
           [(lit "notes.txt", Store.Unreadable OSError)]).
  reflexivity.
Defined.

(** ** The document store under re-ingestion *)

Lemma streq_true (a b : pystr) : streq a b = true ↔ a = b.
Proof. unfold streq. apply bool_decide_eq_true. Qed.

Lemma streq_false (a b : pystr) : streq a b = false ↔ a ≠ b.
Proof. unfold streq. apply bool_decide_eq_false. Qed.

Ltac streq_facts :=
  repeat match goal with
    | H : streq _ _ = true |- _ => apply streq_true in H
    | H : streq _ _ = false |- _ => apply streq_false in H
    end.

Lemma dict_get_set {V} (d : list (pystr * V)) (k k' : pystr) (v : V) :
  dict_get (dict_set d k v) k'
  = if streq k k' then Some v else dict_get d k'.
Proof.
  induction d as [| [k0 v0] d IH]; simpl; [done |].
  destruct (streq k0 k) eqn:E1; simpl; rewrite ?IH;
    destruct (streq k0 k') eqn:E2; destruct (streq k k') eqn:E3;
    streq_facts; congruence.
Qed.


(** ** What one article does to the store *)

Section IngestCases.
Import Store Ingestion.
Variable w : web.

Lemma doc_record_of_cases (art : pyval) :
  (∃ e, doc_record_of w art = Raise e)
  ∨ doc_record_of w art = Ok None
  ∨ ∃ (u full_text : pyval) (id : pystr) (chunks : list pystr)
      (d : list (pystr * pyval)),
      get art (lit "url") PNone = Ok u
      ∧ doc_id_from_url u = Ok id
      ∧ truthy full_text = true
      ∧ chunk_text_default full_text = Ok chunks
      ∧ dict_get d (lit "doc_id") = Some (PStr id)
      ∧ dict_get d (lit "url") = Some u
      ∧ dict_get d (lit "chunks") = Some (PList (map PStr chunks))
      ∧ doc_record_of w art = Ok (Some (id, PDict d)).
Proof.
  unfold doc_record_of.
  destruct (get art (lit "url") PNone) as [u | e] eqn:Hurl; [| left; by exists e].
  cbn [mbind result_bind bind].
  destruct (truthy u); cbn [negb]; [| right; left; done].
  destruct (doc_id_from_url u) as [id | e] eqn:Hid; [| left; by exists e].
  cbn [mbind result_bind bind].
  destruct (get art (lit "content") PNone) as [content | e]; [| left; by exists e].
  destruct (get art (lit "description") PNone) as [description | e];
    [| left; by exists e].
  cbn [mbind result_bind bind].
  destruct (truthy (py_or _ _)) eqn:Htext; cbn [negb]; [| right; left; done].
  destruct (chunk_text_default _) as [chunks | e] eqn:Hchunks; [| left; by exists e].
  destruct (get art (lit "title") PNone) as [title | e]; [| left; by exists e].
  destruct (get art (lit "source") (PDict [])) as [src | e]; [| left; by exists e].
  cbn [mbind result_bind bind].
  destruct (get src (lit "name") PNone) as [source | e]; [| left; by exists e].
  destruct (get art (lit "publishedAt") PNone) as [publishedAt | e];
    [| left; by exists e].
  cbn [mbind result_bind bind].
  right; right.
  exists u, (py_or (py_or (d_text (extract_full_text w u)) content) description),
    id, chunks,
    [(lit "doc_id", PStr id);
     (lit "title", py_or (d_title (extract_full_text w u)) title);
     (lit "url", u); (lit "source", source); (lit "publishedAt", publishedAt);
     (lit "chunks", PList (map PStr chunks))].
  by repeat split.
Qed.

(** An article raises before the write, or is skipped, or has its record
    written: the write succeeds, or fails and leaves the file unreadable. *)
Lemma ingest_article_cases (art : pyval) :
  (∃ e, ∀ files, ingest_article w files art = (files, Raise e))
  ∨ (∀ files, ingest_article w files art = (files, Ok None))
  ∨ ∃ (u full_text : pyval) (id : pystr) (chunks : list pystr)
      (d : list (pystr * pyval)),
      get art (lit "url") PNone = Ok u
      ∧ doc_id_from_url u = Ok id
      ∧ truthy full_text = true
      ∧ chunk_text_default full_text = Ok chunks
      ∧ dict_get d (lit "doc_id") = Some (PStr id)
      ∧ dict_get d (lit "url") = Some u
      ∧ dict_get d (lit "chunks") = Some (PList (map PStr chunks))
      ∧ ∀ files, ingest_article w files art
                 = if dumpable (PDict d)
                   then (dict_set files (record_path id) (JsonDoc (PDict d)),
                         Ok (Some (PDict d)))
                   else (dict_set files (record_path id) (Unreadable JSONDecodeError),
                         Raise UnicodeEncodeError).
Proof.
  unfold ingest_article.
  destruct (doc_record_of_cases art)
    as [[e ->] | [-> | (u & text & id & chunks & d & ? & ? & ? & ? & ? & ? & ? & ->)]].
  - left. by exists e.
  - right. by left.
  - right. right. exists u, text, id, chunks, d. repeat (split; [done |]).
    intros files. unfold write_json. by destruct (dumpable (PDict d)).
Qed.

End IngestCases.

Section Ingest.
Import Store Ingestion.
Variable w : web.



End Ingest.


(** ** Evidence assembly: the store and the data map *)

Section Heap.
Import Rag.
Implicit Types h : heap.

Lemma alloc_spec h o l h' :
  alloc h o = (l, h') → h !! l = None ∧ h' = <[l := o]> h.
Proof.
  unfold alloc. intros [= <- <-]. split; [| done].
  apply not_elem_of_dom, is_fresh.
Qed.

(** What the loop body does to the store, when the lookup does not raise. *)
Lemma enrich_item_spec data_map h l it md found :
  h !! l = Some (OItem it) →
  h !! metadata it = Some (ODict md) →
  lookup_chunk data_map md = Ok found →
  ∃ li lmd h',
    enrich_item data_map h l = Ok (li, h')
    ∧ h !! li = None ∧ h !! lmd = None ∧ h ⊆ h'
    ∧ h' !! li = Some (OItem (Item (rank it) (score it) lmd))
    ∧ h' !! lmd
      = Some (ODict (dict_set md (lit "chunk_text") (chunk_text_value md found))).
Proof.
  intros Hl Hmd Hfound. unfold enrich_item. rewrite Hl, Hmd.
  destruct (alloc h (ODict md)) as [lmd h1] eqn:Ha1.
  apply alloc_spec in Ha1 as [Hlmd ->].
  rewrite Hfound. cbn [mbind result_bind bind].
  rewrite insert_insert_eq.
  destruct (alloc _ (OItem (Item (rank it) (score it) lmd))) as [li h3] eqn:Ha2.
  apply alloc_spec in Ha2 as [Hli ->].
  assert (li ≠ lmd) by (intros ->; by rewrite lookup_insert_eq in Hli).
  rewrite lookup_insert_ne in Hli by done.
  exists li, lmd. eexists. split; [reflexivity |].
  split; [done |]. split; [done |]. split; [| split].
  - etrans; [| apply insert_subseteq; by rewrite lookup_insert_ne].
    by apply insert_subseteq.
  - apply lookup_insert_eq.
  - rewrite lookup_insert_ne by done. apply lookup_insert_eq.
Qed.
End Heap.

Section DataMap.
Import Store Rag.
Variable files : fs.

Lemma dm_get_none data_map x :
  Forall (λ kv, key_eqb kv.1 x = false) data_map → dm_get data_map x = None.
Proof.
  induction 1 as [| [k v] data_map Hk _ IH]; [done |].
  simpl in *. by rewrite Hk.
Qed.

Lemma dm_get_elem data_map x v :
  dm_get data_map x = Some v → ∃ k, (k, v) ∈ data_map.
Proof.
  induction data_map as [| [k0 v0] data_map IH]; [done |]. simpl.
  destruct (key_eqb k0 x).
  - intros [= ->]. exists k0. apply list_elem_of_here.
  - intros [k Hk]%IH. exists k. by apply list_elem_of_further.
Qed.

Lemma dm_set_keys (P : pyval → Prop) data_map k v :
  Forall (λ kv, P kv.1) data_map → P k →
  Forall (λ kv, P kv.1) (dm_set data_map k v).
Proof.
  intros Hall Hk. induction Hall as [| [k0 v0] data_map Hk0 Hrest IH]; simpl.
  - constructor; [done | constructor].
  - destruct (key_eqb k0 k); by constructor.
Qed.

Lemma dm_set_values (Q : pyval → Prop) data_map k v :
  Forall (λ kv, Q kv.2) data_map → Q v →
  Forall (λ kv, Q kv.2) (dm_set data_map k v).
Proof.
  intros Hall Hv. induction Hall as [| [k0 v0] data_map Hv0 Hrest IH]; simpl.
  - constructor; [done | constructor].
  - destruct (key_eqb k0 k); by constructor.
Qed.

(** Keys of the data map are identifiers of readable record files. *)
Lemma load_data_map_keys (P : pyval → Prop) :
  (∀ p rec k, p ∈ glob_data_json files → read_json files p = Ok rec →
              get rec (lit "doc_id") PNone = Ok k → P k) →
  Forall (λ kv, P kv.1) (load_data_map files).
Proof.
  intros HP. unfold load_data_map.
  assert (Hgen : ∀ paths data_map,
            (∀ p, p ∈ paths → p ∈ glob_data_json files) →
            Forall (λ kv, P kv.1) data_map →
            Forall (λ kv, P kv.1) (foldl (load_record files) data_map paths)).
  { induction paths as [| p paths IH]; intros data_map Hsub Hdm; [done |].
    simpl. apply IH; [intros q Hq; apply Hsub; by apply list_elem_of_further |].
    unfold load_record.
    destruct (read_json files p) as [rec |] eqn:Hread; [| done].
    destruct (get rec (lit "doc_id") PNone) as [k |] eqn:Hk; [| done].
    destruct (hashable k); [| done].
    apply dm_set_keys; [done |]. eapply HP; [| done..].
    apply Hsub, list_elem_of_here. }
  apply Hgen; [done | constructor].
Qed.

(** Values of the data map are the JSON objects of readable record files. *)
Lemma load_data_map_values (Q : pyval → Prop) :
  (∀ p d, p ∈ glob_data_json files → read_json files p = Ok (PDict d) →
          Q (PDict d)) →
  Forall (λ kv, Q kv.2) (load_data_map files).
Proof.
  intros HQ. unfold load_data_map.
  assert (Hgen : ∀ paths data_map,
            (∀ p, p ∈ paths → p ∈ glob_data_json files) →
            Forall (λ kv, Q kv.2) data_map →
            Forall (λ kv, Q kv.2) (foldl (load_record files) data_map paths)).
  { induction paths as [| p paths IH]; intros data_map Hsub Hdm; [done |].
    simpl. apply IH; [intros q Hq; apply Hsub; by apply list_elem_of_further |].
    unfold load_record.
    destruct (read_json files p) as [rec |] eqn:Hread; [| done].
    destruct (get rec (lit "doc_id") PNone) as [k |] eqn:Hk; [| done].
    destruct (hashable k); [| done].
    apply dm_set_values; [done |].
    destruct rec; try done. eapply HQ; [| done].
    apply Hsub, list_elem_of_here. }
  apply Hgen; [done | constructor].
Qed.

(** A failed lookup leaves [chunk_text] unset, and raises nothing. *)
Lemma lookup_fails_unset md :
  Spec.lookup_fails files md → lookup_chunk (load_data_map files) md = Ok PNone.
Proof.
  unfold lookup_chunk.
  intros [Hfalsy | Hhash Hmissing | rec chunks n Hhash Hrec Hchunks Hlen Hrange].
  - by rewrite Hfalsy.
  - rewrite Hhash. destruct (truthy _); [| done].
    rewrite dm_get_none; [done |].
    by apply (load_data_map_keys
                (λ k, key_eqb k (md_get md (lit "doc_id")) = false)).
  - rewrite Hhash, Hrec. destruct (truthy _); [| done].
    rewrite Hchunks. cbn [mbind result_bind bind].
    destruct (as_int _) as [i |] eqn:Hi; [| done].
    destruct (Z.leb_spec 0 i); [| done].
    rewrite Hlen. cbn [mbind result_bind bind].
    destruct (Z.ltb_spec i n); [| done].
    destruct (Hrange i eq_refl). lia.
Qed.

(** On typed records and a plain identifier the lookup raises nothing. *)
Lemma lookup_chunk_total md :
  Spec.records_typed files →
  hashable (md_get md (lit "doc_id")) = true →
  ∃ found, lookup_chunk (load_data_map files) md = Ok found.
Proof.
  intros Htyped Hhash. unfold lookup_chunk. rewrite Hhash.
  destruct (truthy _); [| by eexists].
  destruct (dm_get _ _) as [rec |] eqn:Hrec; [| by eexists].
  apply dm_get_elem in Hrec as [k Hk].
  pose proof (load_data_map_values
                (λ rec, ∃ cs, get rec (lit "chunks") (PList []) = Ok (PList cs))
                Htyped) as Hvals.
  rewrite Forall_forall in Hvals. destruct (Hvals _ Hk) as [cs Hcs].
  cbn [snd] in Hcs. rewrite Hcs. cbn [mbind result_bind bind].
  destruct (as_int _) as [i |]; [| by eexists].
  destruct (Z.leb_spec 0 i); [| by eexists].
  cbn [len mbind result_bind bind].
  destruct (Z.ltb_spec i (Z.of_nat (length cs))); [| by eexists].
  unfold getitem_int, index. destruct (Z.ltb_spec i 0); [lia |].
  destruct (lookup_lt_is_Some_2 cs (Z.to_nat i)) as [c ->]; [lia |].
  by eexists.
Qed.
End DataMap.

Lemma chunk_text_key_ne (k : pystr) :
  k ≠ lit "chunk_text" → streq (lit "chunk_text") k = false.
Proof. intros Hk. apply streq_false. congruence. Qed.

Section Enrich.
Import Store Rag.
Variable files : fs.

(** The loop enriches the results one by one, in order, into new objects. *)
Lemma enrich_loop_spec (raw_results : list loc) : ∀ (h0 h : heap) (acc : list loc),
  Spec.records_typed files →
  h0 ⊆ h →
  Forall (Spec.retrieval_result h0) raw_results →
  ∃ (news : list loc) (h' : heap),
    enrich_loop (load_data_map files) h raw_results acc = Ok (acc ++ news, h')
    ∧ h ⊆ h'
    ∧ Forall2 (Spec.enriched_from (load_data_map files) h0 h') raw_results news.
Proof.
  induction raw_results as [| l raw_results IH]; intros h0 h acc Htyped Hsub Hall.
  - exists [], h. rewrite app_nil_r. by repeat split.
  - inversion Hall as [| ? ? (it & md & Hl & Hmd & Hhash) Hrest]; subst.
    destruct (lookup_chunk_total files md Htyped Hhash) as [found Hfound].
    destruct (enrich_item_spec (load_data_map files) h l it md found)
      as (li & lmd & h1 & Hrun & Hli & Hlmd & Hsub1 & Hli1 & Hlmd1);
      [by eapply lookup_weaken | by eapply lookup_weaken | done |].
    destruct (IH h0 h1 (acc ++ [li]) Htyped) as (news & h' & Hloop & Hsub' & Hrel);
      [by etrans | done |].
    exists (li :: news), h'. split; [| split].
    + cbn [enrich_loop]. rewrite Hrun. cbn [mbind result_bind bind].
      rewrite Hloop. by rewrite <- app_assoc.
    + by etrans.
    + constructor; [| done].
      exists it, md, (Item (rank it) (score it) lmd),
             (dict_set md (lit "chunk_text") (chunk_text_value md found)), found.
      cbn [rank score metadata].
      split; [done |]. split; [done |].
      split; [by eapply lookup_weaken_None |].
      split; [by eapply lookup_weaken_None |].
      split; [by eapply lookup_weaken |].
      split; [by eapply lookup_weaken |].
      split; [done |]. split; [done |].
      split; [| split; [done |]].
      * intros k Hk. by rewrite dict_get_set, chunk_text_key_ne.
      * rewrite dict_get_set. by rewrite (proj2 (streq_true _ _) eq_refl).
Qed.

(** C10. On retrieval results over typed records,
    [prepare_retrieved_with_texts] returns a list of the same length and
    order; each returned result is a new object with the rank and score of
    the input result at its position and a new metadata dict that agrees
    with the input's on every field but [chunk_text], which is set; and
    every object that existed before the call is unchanged. *)
Theorem prepare_retrieved_frame (h : heap) (raw_results : list loc) :
  Spec.records_typed files →
  Forall (Spec.retrieval_result h) raw_results →
  ∃ (enriched : list loc) (h' : heap),
    prepare_retrieved_with_texts files h raw_results = Ok (enriched, h')
    ∧ length enriched = length raw_results
    ∧ (∀ (j : nat) (l li : loc),
         raw_results !! j = Some l → enriched !! j = Some li →
         Spec.enriched_from (load_data_map files) h h' l li)
    ∧ (∀ (l : loc) (o : obj), h !! l = Some o → h' !! l = Some o).
Proof.
  intros Htyped Hall.
  destruct (enrich_loop_spec raw_results h h [] Htyped) as (news & h' & Hrun & Hsub & Hrel);
    [done | done |].
  exists news, h'. split; [exact Hrun |]. split; [| split].
  - symmetry. by eapply Forall2_length.
  - intros j l li Hl Hli. by eapply Forall2_lookup_lr.
  - intros l o Hl. by eapply lookup_weaken.
Qed.
End Enrich.

Section Placeholder.
Import Store Rag.
Variable fmt : pyval → pystr.
Variable fill : pystr → pystr.
Variable files : fs.

Lemma placeholder_passage (md : list (pystr * pyval)) :
  passage_text (dict_set md (lit "chunk_text") (PStr placeholder))
  = PStr placeholder.
Proof.
  unfold passage_text, md_get. rewrite dict_get_set.
  by rewrite (proj2 (streq_true _ _) eq_refl).
Qed.

(** C7. For a retrieved result whose lookup against the corpus fails (and
    whose metadata entry stores no text of its own), the enrichment step
    raises nothing and stores the placeholder as the result's
    [chunk_text]; the loop goes on with the remaining results; the
    evidence entry of the enriched result is built without raising and
    shows the placeholder as its passage; and so a request made of this
    single result goes through both functions. *)
Theorem failed_lookup_placeholder (h : heap) (l : loc) (it : item)
    (md : list (pystr * pyval)) :
  h !! l = Some (OItem it) →
  h !! metadata it = Some (ODict md) →
  Spec.lookup_fails files md →
  Spec.no_stored_text md →
  ∃ (li lmd : loc) (h' : heap) (md' : list (pystr * pyval)),
    enrich_item (load_data_map files) h l = Ok (li, h')
    ∧ h' !! li = Some (OItem (Item (rank it) (score it) lmd))
    ∧ h' !! lmd = Some (ODict md')
    ∧ dict_get md' (lit "chunk_text") = Some (PStr placeholder)
    ∧ passage_text md' = PStr placeholder
    ∧ (∀ (rest enriched : list loc),
         enrich_loop (load_data_map files) h (l :: rest) enriched
         = enrich_loop (load_data_map files) h' rest (enriched ++ [li]))
    ∧ (∀ (h'' : heap) (i : Z), h' ⊆ h'' →
         ∃ header entry,
           evidence_entry fmt fill h'' i li
           = Ok ([header; fill placeholder; []], entry))
    ∧ prepare_retrieved_with_texts files h [l] = Ok ([li], h')
    ∧ ∃ header entry,
        build_evidence_block fmt fill h' [li]
        = Ok (join [10%N] [header; fill placeholder; []], [entry]).
Proof.
  intros Hl Hmd Hfails Hnotext.
  pose proof (lookup_fails_unset files md Hfails) as Hunset.
  destruct (enrich_item_spec (load_data_map files) h l it md PNone Hl Hmd Hunset)
    as (li & lmd & h' & Hrun & Hli & Hlmd & Hsub & Hli' & Hlmd').
  assert (Hvalue : chunk_text_value md PNone = PStr placeholder).
  { unfold chunk_text_value, py_or. cbn [truthy].
    unfold Spec.no_stored_text in Hnotext. by rewrite Hnotext. }
  rewrite Hvalue in Hlmd'.
  assert (Hentry : ∀ (h'' : heap) (i : Z), h' ⊆ h'' →
            ∃ header entry,
              evidence_entry fmt fill h'' i li
              = Ok ([header; fill placeholder; []], entry)).
  { intros h'' i Hsub''. unfold evidence_entry.
    rewrite (lookup_weaken _ _ _ _ Hli' Hsub''). cbn [metadata].
    rewrite (lookup_weaken _ _ _ _ Hlmd' Hsub'').
    rewrite placeholder_passage. by eexists _, _. }
  exists li, lmd, h', (dict_set md (lit "chunk_text") (PStr placeholder)).
  split; [done |]. split; [done |]. split; [done |].
  split; [| split; [| split; [| split; [| split]]]].
  - rewrite dict_get_set. by rewrite (proj2 (streq_true _ _) eq_refl).
  - apply placeholder_passage.
  - intros rest enriched. cbn [enrich_loop]. by rewrite Hrun.
  - exact Hentry.
  - unfold prepare_retrieved_with_texts. cbn [enrich_loop]. by rewrite Hrun.
  - destruct (Hentry h' 1) as (header & entry & Hev); [done |].
    exists header, entry. unfold build_evidence_block. cbn [evidence_loop].
    by rewrite Hev.
Qed.
End Placeholder.

(** ** Evidence assembly on the sample corpus *)

Lemma two_files_glob :
  Store.glob_data_json Examples.two_files = [lit "data/b.json"; lit "data/a.json"].
Proof. reflexivity. Qed.

Lemma two_files_typed : Spec.records_typed Examples.two_files.
Proof.
  intros p d Hp Hread. rewrite two_files_glob in Hp.
  apply elem_of_cons in Hp as [-> | Hp];
    [| apply list_elem_of_singleton in Hp as ->].
  - injection Hread as <-. by exists [PStr (lit "b0")].
  - injection Hread as <-. by exists [PStr (lit "a0"); PStr (lit "a1")].
Qed.

Lemma stale_entry_fails : Spec.lookup_fails Examples.two_files Examples.stale_entry.
Proof.
  apply Spec.record_missing; [reflexivity |].
  intros p rec k Hp Hread Hk. rewrite two_files_glob in Hp.
  apply elem_of_cons in Hp as [-> | Hp];
    [| apply list_elem_of_singleton in Hp as ->];
    injection Hread as <-; injection Hk as <-; reflexivity.
Qed.

Example prepare_shared_metadata :
  ∃ h', Rag.prepare_retrieved_with_texts Examples.two_files Examples.shared_heap
          [1%positive; 2%positive] = Ok ([5%positive; 7%positive], h')
        ∧ h' !! 3%positive = Some (Rag.ODict (Examples.entry_fields "a" 1))
        ∧ h' !! 4%positive
          = Some (Rag.ODict (Examples.entry_fields "a" 1
                               ++ [(lit "chunk_text", PStr (lit "a1"))]))
        ∧ h' !! 5%positive
          = Some (Rag.OItem (Rag.Item (PInt 1) (PFloat Examples.f_zero) 4%positive)).
Proof. eexists. split; [vm_compute; reflexivity |]. by vm_compute. Qed.

(** Witness for C10: the two results that share a metadata dict. *)
Lemma prepare_retrieved_frame_witness :
  Spec.records_typed Examples.two_files
  ∧ Forall (Spec.retrieval_result Examples.shared_heap) [1%positive; 2%positive]
  ∧ ∃ (enriched : list Rag.loc) (h' : Rag.heap),
      Rag.prepare_retrieved_with_texts Examples.two_files Examples.shared_heap
        [1%positive; 2%positive] = Ok (enriched, h')
      ∧ length enriched = 2%nat
      ∧ ∀ (l : Rag.loc) (o : Rag.obj),
          Examples.shared_heap !! l = Some o → h' !! l = Some o.
Proof.
  assert (Hall : Forall (Spec.retrieval_result Examples.shared_heap)
                        [1%positive; 2%positive]).
  { repeat apply Forall_cons_2; [| | apply Forall_nil_2];
      eexists _, _; (split; [reflexivity |]); split; reflexivity. }
  split; [exact two_files_typed |]. split; [exact Hall |].
  destruct (prepare_retrieved_frame Examples.two_files Examples.shared_heap
              [1%positive; 2%positive] two_files_typed Hall)
    as (enriched & h' & Hrun & Hlen & _ & Hframe).
  exists enriched, h'. split; [exact Hrun |]. split; [exact Hlen | exact Hframe].
Defined.

(** Witness for C7: the record of the one result is gone from the corpus. *)
Lemma failed_lookup_placeholder_witness :
  Spec.lookup_fails Examples.two_files Examples.stale_entry
  ∧ Spec.no_stored_text Examples.stale_entry
  ∧ ∃ (li : Rag.loc) (h' : Rag.heap),
      Rag.prepare_retrieved_with_texts Examples.two_files Examples.stale_heap
        [1%positive] = Ok ([li], h')
      ∧ ∃ header entry,
          Rag.build_evidence_block (λ _, []) id h' [li]
          = Ok (join [10%N] [header; Rag.placeholder; []], [entry]).
Proof.
  split; [exact stale_entry_fails |]. split; [reflexivity |].
  destruct (failed_lookup_placeholder (λ _, []) id Examples.two_files
              Examples.stale_heap 1%positive
              (Rag.Item (PInt 1) (PFloat Examples.f_zero) 2%positive)
              Examples.stale_entry eq_refl eq_refl stale_entry_fails eq_refl)
    as (li & lmd & h' & md' & _ & _ & _ & _ & _ & _ & _ & Hprep & Hev).
  exists li, h'. split; [exact Hprep | exact Hev].
Defined.


(** The three ways a lookup fails, on sample data: the record's file cannot
    be read; no file holds the identifier; the chunk position lies beyond
    the record's chunks. *)
Lemma unreadable_corpus_fails (files : Store.fs) (md : list (pystr * pyval)) :
  hashable (Rag.md_get md (lit "doc_id")) = true →
  (∀ p, p ∈ Store.glob_data_json files → ∃ e, Store.read_json files p = Raise e) →
  Spec.lookup_fails files md.
Proof.
  intros Hhash Hbad. apply Spec.record_missing; [done |].
  intros p rec k Hp Hread. destruct (Hbad p Hp) as [e He]. congruence.
Qed.

Example position_beyond_chunks :
  Spec.lookup_fails Examples.two_files (Examples.entry_fields "a" 7).
Proof.
  eapply (Spec.position_out_of_range _ _ _ (PList [PStr (lit "a0"); PStr (lit "a1")]) 2);
    [reflexivity | reflexivity | reflexivity | reflexivity |].
  intros i [= <-]. lia.
Qed.

Example lookup_finds_chunk :
  Rag.lookup_chunk (Rag.load_data_map Examples.two_files) (Examples.entry_fields "a" 1)
  = Ok (PStr (lit "a1")).
Proof. reflexivity. Qed.

(** * Further properties of the code *)

(** ** The chunker: sizes, count and shared words *)

(** The chunks, in terms of the word list: chunk [j] joins the [c] words
    from position [j * (c - o)] on. *)
Lemma chunk_text_windows (text : pystr) (c o : nat) :
  (o < c)%nat →
  ∃ k : nat,
    (∀ fuel, (length (split text) < fuel)%nat →
       Ingestion.chunk_text fuel text (Z.of_nat c) (Z.of_nat o)
       = Some (map (λ j, join (lit " ") (take c (drop (j * (c - o)) (split text))))
                   (seq 0 k)))
    ∧ (length (split text) <= k * (c - o))%nat
    ∧ (∀ j, (j < k)%nat → (j * (c - o) < length (split text))%nat).
Proof.
  intros Hoc.
  destruct (chunk_loop_windows (split text) _ _ c o eq_refl eq_refl Hoc
              (S (length (split text))) 0%nat []) as (k & Hrun & Hend & Hstarts);
    [lia |].
  rewrite app_nil_l in Hrun. simpl Nat.add in Hrun, Hend, Hstarts.
  exists k. split; [| done].
  intros fuel Hfuel. unfold Ingestion.chunk_text.
  eapply chunk_loop_mono; [exact Hrun | lia].
Qed.

Lemma window_words (words : list pystr) (c a : nat) :
  Forall Spec.is_word words →
  split (join (lit " ") (take c (drop a words))) = take c (drop a words).
Proof. intros Hw. apply split_join. by apply Forall_take, Forall_drop. Qed.

(** X1. For [0 ≤ overlap < chunk_size] and a text of [n] words,
    [chunk_text] returns [ceil(n / (chunk_size - overlap))] chunks, and
    chunk [j] holds [min(chunk_size, n - j * (chunk_size - overlap))] words:
    at least one, at most [chunk_size]. *)
Theorem chunk_text_count_and_sizes (text : pystr) (chunk_size overlap : Z) :
  0 ≤ overlap < chunk_size →
  let n := Z.of_nat (length (split text)) in
  let step := chunk_size - overlap in
  ∃ chunks : list pystr,
    (∀ fuel, (length (split text) < fuel)%nat →
       Ingestion.chunk_text fuel text chunk_size overlap = Some chunks)
    ∧ Z.of_nat (length chunks) = (n + step - 1) / step
    ∧ ∀ (j : nat) (c : pystr), chunks !! j = Some c →
        Z.of_nat (length (split c)) = Z.min chunk_size (n - Z.of_nat j * step)
        ∧ 1 ≤ Z.of_nat (length (split c)) ≤ chunk_size.
Proof.
  intros [Ho Hc]. cbn zeta.
  assert (∃ c : nat, chunk_size = Z.of_nat c) as [c ->]
    by (exists (Z.to_nat chunk_size); lia).
  assert (∃ o : nat, overlap = Z.of_nat o) as [o ->]
    by (exists (Z.to_nat overlap); lia).
  destruct (chunk_text_windows text c o) as (k & Hrun & Hend & Hstarts); [lia |].
  eexists. split; [exact Hrun |]. split.
  - rewrite length_map, length_seq.
    apply (Z.div_unique_pos _ _ _
      (Z.of_nat (length (split text)) + (Z.of_nat c - Z.of_nat o) - 1
       - (Z.of_nat c - Z.of_nat o) * Z.of_nat k)).
    + destruct k as [| k]; [nia |]. specialize (Hstarts k). nia.
    + lia.
  - intros j ch Hj.
    apply list_lookup_fmap_Some in Hj as (j' & -> & Hj').
    apply lookup_seq in Hj' as [-> Hjk]. simpl Nat.add.
    rewrite window_words by apply split_words.
    rewrite length_take, length_drop.
    specialize (Hstarts j Hjk). nia.
Qed.

(** Witness for X1: five words, windows of 3 overlapping by 1. *)
Lemma chunk_text_count_and_sizes_witness :
  0 ≤ 1 < 3
  ∧ ∃ chunks : list pystr,
      (∀ fuel, (length (split (lit "a b c d e")) < fuel)%nat →
         Ingestion.chunk_text fuel (lit "a b c d e") 3 1 = Some chunks)
      ∧ Z.of_nat (length chunks) = 3.
Proof.
  assert (Hparams : 0 ≤ 1 < 3) by lia.
  split; [exact Hparams |].
  destruct (chunk_text_count_and_sizes (lit "a b c d e") 3 1 Hparams)
    as (chunks & Hrun & Hcount & _).
  exists chunks. split; [exact Hrun | exact Hcount].
Defined.

(** X2. For [0 ≤ overlap < chunk_size], consecutive chunks share their
    words: what is left of a chunk after its first [chunk_size - overlap]
    words is exactly the first [overlap] words of the next chunk. *)
Theorem chunk_text_overlap_shared (text : pystr) (chunk_size overlap : Z) :
  0 ≤ overlap < chunk_size →
  ∃ chunks : list pystr,
    (∀ fuel, (length (split text) < fuel)%nat →
       Ingestion.chunk_text fuel text chunk_size overlap = Some chunks)
    ∧ ∀ (j : nat) (c c' : pystr),
        chunks !! j = Some c → chunks !! S j = Some c' →
        slice (split c) (chunk_size - overlap) (Z.of_nat (length (split c)))
        = slice (split c') 0 overlap.
Proof.
  intros [Ho Hc].
  assert (∃ c : nat, chunk_size = Z.of_nat c) as [c ->]
    by (exists (Z.to_nat chunk_size); lia).
  assert (∃ o : nat, overlap = Z.of_nat o) as [o ->]
    by (exists (Z.to_nat overlap); lia).
  destruct (chunk_text_windows text c o) as (k & Hrun & Hend & Hstarts); [lia |].
  eexists. split; [exact Hrun |].
  intros j ch ch' Hj Hj'.
  apply list_lookup_fmap_Some in Hj as (j0 & -> & Hj0).
  apply lookup_seq in Hj0 as [-> Hjk].
  apply list_lookup_fmap_Some in Hj' as (j1 & -> & Hj1).
  apply lookup_seq in Hj1 as [-> Hjk']. simpl Nat.add.
  rewrite !window_words by apply split_words.
  replace (Z.of_nat c - Z.of_nat o) with (Z.of_nat (c - o)) by lia.
  rewrite slice_from_nat.
  pose proof (slice_window (take c (drop (S j * (c - o)) (split text))) 0 o) as Hs.
  change (Z.of_nat 0 + Z.of_nat o) with (Z.of_nat o) in Hs.
  change (Z.of_nat 0) with 0 in Hs. rewrite Hs, drop_0, take_take.
  replace (o `min` c)%nat with o by lia.
  replace (take c (drop (j * (c - o)) (split text)))
    with (take ((c - o) + o) (drop (j * (c - o)) (split text))) by (f_equal; lia).
  rewrite <- take_drop_commute, drop_drop. do 2 f_equal. lia.
Qed.

(** Witness for X2. *)
Lemma chunk_text_overlap_shared_witness :
  0 ≤ 1 < 3
  ∧ ∃ chunks : list pystr,
      (∀ fuel, (length (split (lit "a b c d e")) < fuel)%nat →
         Ingestion.chunk_text fuel (lit "a b c d e") 3 1 = Some chunks)
      ∧ ∀ (c c' : pystr), chunks !! 0%nat = Some c → chunks !! 1%nat = Some c' →
          slice (split c) (3 - 1) (Z.of_nat (length (split c)))
          = slice (split c') 0 1.
Proof.
  assert (Hparams : 0 ≤ 1 < 3) by lia.
  split; [exact Hparams |].
  destruct (chunk_text_overlap_shared (lit "a b c d e") 3 1 Hparams)
    as (chunks & Hrun & Hshare).
  exists chunks. split; [exact Hrun |]. intros c c'. apply Hshare.
Defined.

(** X3. Without the guard, an overlap that is not below the window size is
    harmless exactly on texts without a word: [chunk_text] returns (and
    then returns the empty list) if and only if the text is empty or white
    space only. *)
Theorem chunk_text_unguarded_returns_iff (text : pystr) (chunk_size overlap : Z) :
  chunk_size ≤ overlap →
  ((∃ fuel chunks, Ingestion.chunk_text fuel text chunk_size overlap = Some chunks)
   ↔ split text = [])
  ∧ ∀ fuel chunks,
      Ingestion.chunk_text fuel text chunk_size overlap = Some chunks → chunks = [].
Proof.
  intros Hstep.
  assert (Hnone : split text ≠ [] →
            ∀ fuel, Ingestion.chunk_text fuel text chunk_size overlap = None).
  { intros Hwords fuel. unfold Ingestion.chunk_text.
    apply chunk_loop_stuck; [done |].
    destruct (split text); [done | simpl; lia]. }
  split; [split |].
  - intros (fuel & chunks & Hrun).
    destruct (split text) eqn:Hs; [done |].
    rewrite Hnone in Hrun; done.
  - intros Hs. exists 1%nat, []. unfold Ingestion.chunk_text. by rewrite Hs.
  - intros fuel chunks Hrun.
    destruct (split text) eqn:Hs.
    + unfold Ingestion.chunk_text in Hrun. rewrite Hs in Hrun.
      destruct fuel; simpl in Hrun; by simplify_eq.
    + rewrite Hnone in Hrun; done.
Qed.

(** Witness for X3: a text of white space, overlap 5 on a window of 1. *)
Lemma chunk_text_unguarded_returns_iff_witness :
  1 ≤ 5 ∧ ∃ fuel chunks, Ingestion.chunk_text fuel (lit "  ") 1 5 = Some chunks.
Proof.
  assert (Hparams : 1 ≤ 5) by lia.
  split; [exact Hparams |].
  apply (proj1 (chunk_text_unguarded_returns_iff (lit "  ") 1 5 Hparams)).
  reflexivity.
Defined.

(** ** Article identifiers *)

Lemma be_bytes_length n : ∀ x, length (Hashlib.be_bytes n x) = n.
Proof. induction n as [| n IH]; intros x; simpl; [done |]. rewrite length_app, IH. simpl. lia. Qed.

Lemma be_bytes_range n : ∀ x, Forall (λ b, 0 ≤ b < 256) (Hashlib.be_bytes n x).
Proof.
  induction n as [| n IH]; intros x; simpl; [constructor |].
  apply Forall_app. split; [apply IH |]. constructor; [| constructor].
  change 255 with (Z.ones 8). rewrite Z.land_ones by lia. apply Z.mod_pos_bound. lia.
Qed.

Lemma sha1_length msg : length (Hashlib.sha1 msg) = 20%nat.
Proof.
  unfold Hashlib.sha1. cbn zeta.
  destruct (foldl _ _ _) as [[[[h0 h1] h2] h3] h4].
  rewrite !length_app, !be_bytes_length. done.
Qed.

Lemma sha1_bytes msg : Forall (λ b, 0 ≤ b < 256) (Hashlib.sha1 msg).
Proof.
  unfold Hashlib.sha1. cbn zeta.
  destruct (foldl _ _ _) as [[[[h0 h1] h2] h3] h4].
  rewrite !Forall_app. repeat split; apply be_bytes_range.
Qed.

Lemma hex_digit_hex x : 0 ≤ x < 16 → Spec.is_hex_digit (Hashlib.hex_digit x).
Proof.
  intros Hx. unfold Hashlib.hex_digit, Spec.is_hex_digit.
  destruct (Z.ltb_spec x 10); lia.
Qed.

Lemma hexdigest_length digest : length (Hashlib.hexdigest digest) = (2 * length digest)%nat.
Proof.
  unfold Hashlib.hexdigest. induction digest as [| b digest IH]; simpl; [done |]. rewrite IH. lia.
Qed.

Lemma hexdigest_hex digest :
  Forall (λ b, 0 ≤ b < 256) digest → Forall Spec.is_hex_digit (Hashlib.hexdigest digest).
Proof.
  unfold Hashlib.hexdigest. induction 1 as [| b digest Hb _ IH]; simpl; [constructor |].
  constructor; [| constructor; [| exact IH]]; apply hex_digit_hex.
  - rewrite Z.shiftr_div_pow2 by lia. change (2 ^ 4) with 16.
    split; [apply Z.div_pos; lia | apply Z.div_lt_upper_bound; lia].
  - change 15 with (Z.ones 4). rewrite Z.land_ones by lia. apply Z.mod_pos_bound. lia.
Qed.

Lemma utf8_scalar c : is_Some (Hashlib.utf8_code_point c) ↔ Spec.scalar_value c.
Proof.
  unfold Hashlib.utf8_code_point, Spec.scalar_value. cbn zeta.
  destruct (Z.ltb_spec (Z.of_N c) 128); [split; [lia | eauto] |].
  destruct (Z.ltb_spec (Z.of_N c) 2048); [split; [lia | eauto] |].
  destruct (Z.ltb_spec (Z.of_N c) 65536).
  - destruct (Z.leb_spec 55296 (Z.of_N c)), (Z.leb_spec (Z.of_N c) 57343); simpl;
      (split; [intros Hs; try lia; by destruct Hs | intros; try lia; eauto]).
  - destruct (Z.ltb_spec (Z.of_N c) 1114112); (split; [intros Hs; try lia; by destruct Hs | intros; try lia; eauto]).
Qed.

Lemma encode_scalar u : is_Some (Hashlib.encode u) ↔ Forall Spec.scalar_value u.
Proof.
  induction u as [| c u IH]; simpl.
  - split; [constructor | eauto].
  - rewrite Forall_cons, <- IH, <- utf8_scalar.
    destruct (Hashlib.utf8_code_point c), (Hashlib.encode u); split;
      try (intros [? ?]); try (intros [? ?]); eauto; try done.
    all: try (by destruct H). all: try (by destruct H0).
Qed.

Lemma starts_with_app p l : Json.starts_with p (p ++ l) = true.
Proof.
  induction p as [| c p IH]; simpl; [by destruct l |].
  by rewrite N.eqb_refl.
Qed.

Lemma ends_with_app suffix s : Store.ends_with suffix (s ++ suffix) = true.
Proof.
  induction s as [| c s IH]; simpl.
  - destruct suffix as [| c suffix]; cbn [app Store.ends_with];
      by rewrite bool_decide_eq_true_2.
  - cbn [app Store.ends_with]. destruct (bool_decide _); [done | exact IH].
Qed.

Lemma record_path_globbed (id : pystr) :
  id ≠ [] → Forall Spec.is_hex_digit id →
  Store.is_data_json (Ingestion.record_path id) = true.
Proof.
  intros Hne Hhex. unfold Store.is_data_json, Ingestion.record_path. cbn zeta.
  rewrite starts_with_app.
  replace (drop 5 (lit "data/" ++ id ++ lit ".json")) with (id ++ lit ".json")
    by reflexivity.
  rewrite ends_with_app.
  rewrite bool_decide_eq_false_2.
  - destruct id as [| c id]; [done |].
    apply Forall_cons in Hhex as [Hc _].
    cbn [app]. unfold Json.starts_with, lit.
    change (N_of_ascii "."%char) with 46%N.
    destruct (N.eqb_spec 46 c) as [<- |]; [| done].
    unfold Spec.is_hex_digit in Hc. lia.
  - intros [Hin | Hin]%elem_of_app.
    + rewrite Forall_forall in Hhex. specialize (Hhex _ Hin).
      unfold Spec.is_hex_digit in Hhex. lia.
    + vm_compute in Hin. 
      repeat (apply elem_of_cons in Hin as [Hin | Hin]; [done |]).
      by apply elem_of_nil in Hin.
Qed.

Lemma doc_id_shape (u id : pystr) :
  Ingestion.doc_id_from_url (PStr u) = Ok id →
  length id = 40%nat ∧ Forall Spec.is_hex_digit id.
Proof.
  unfold Ingestion.doc_id_from_url.
  destruct (Hashlib.encode u) as [bytes |]; [| done]. intros [= <-]. split.
  - by rewrite hexdigest_length, sha1_length.
  - apply hexdigest_hex, sha1_bytes.
Qed.

(** X4. For a URL made of Unicode scalar values (no surrogate code point),
    [doc_id_from_url] returns an identifier of exactly 40 lowercase
    hexadecimal digits, and the record path [data/<doc_id>.json] built from
    it is one that the pattern [data/*.json] matches. *)
Theorem doc_id_from_url_hex (u : pystr) :
  Forall Spec.scalar_value u →
  ∃ id : pystr,
    Ingestion.doc_id_from_url (PStr u) = Ok id
    ∧ length id = 40%nat
    ∧ Forall Spec.is_hex_digit id
    ∧ Store.is_data_json (Ingestion.record_path id) = true.
Proof.
  intros Hu. apply encode_scalar in Hu as [bytes Henc].
  assert (Hid : Ingestion.doc_id_from_url (PStr u)
                = Ok (Hashlib.hexdigest (Hashlib.sha1 bytes)))
    by (unfold Ingestion.doc_id_from_url; by rewrite Henc).
  eexists. split; [exact Hid |].
  destruct (doc_id_shape _ _ Hid) as [Hlen Hhex].
  split; [done |]. split; [done |].
  apply record_path_globbed; [| done].
  intros Hnil. by rewrite Hnil in Hlen.
Qed.

(** Witness for X4: the URL [http://e.x/1]. *)
Lemma doc_id_from_url_hex_witness :
  Forall Spec.scalar_value (lit "http://e.x/1")
  ∧ ∃ id : pystr,
      Ingestion.doc_id_from_url (PStr (lit "http://e.x/1")) = Ok id
      ∧ length id = 40%nat.
Proof.
  assert (Hurl : Forall Spec.scalar_value (lit "http://e.x/1")).
  { apply Forall_forall. intros c Hc. left.
    repeat (apply elem_of_cons in Hc as [-> | Hc]; [reflexivity |]).
    by apply elem_of_nil in Hc. }
  split; [exact Hurl |].
  destruct (doc_id_from_url_hex (lit "http://e.x/1") Hurl) as (id & Hid & Hlen & _).
  exists id. split; [exact Hid | exact Hlen].
Defined.

(** ** Association lists *)

Section Assoc.
Context {V : Type}.
Implicit Types (d : list (pystr * V)) (k : pystr) (v : V).

Lemma dict_get_None d k : k ∉ d.*1 → dict_get d k = None.
Proof.
  induction d as [| [k0 v0] d IH]; simpl; [done |].
  intros Hk. apply not_elem_of_cons in Hk as [Hne Hk].
  destruct (streq k0 k) eqn:E; [apply streq_true in E; congruence | auto].
Qed.

Lemma dict_get_Some_key d k v : dict_get d k = Some v → k ∈ d.*1.
Proof.
  induction d as [| [k0 v0] d IH]; simpl; [done |].
  destruct (streq k0 k) eqn:E.
  - apply streq_true in E as ->. intros _. apply list_elem_of_here.
  - intros Hk. apply list_elem_of_further. auto.
Qed.

Lemma dict_get_elem d k v : NoDup d.*1 → (k, v) ∈ d ↔ dict_get d k = Some v.
Proof.
  induction d as [| [k0 v0] d IH]; simpl.
  - intros _. split; [by intros ?%elem_of_nil | done].
  - intros [Hk0 Hnd]%NoDup_cons. specialize (IH Hnd).
    destruct (streq k0 k) eqn:E.
    + apply streq_true in E as ->. split.
      * intros [[= ->] | Hin]%elem_of_cons; [done |].
        exfalso. apply Hk0. apply list_elem_of_fmap. by exists (k, v).
      * intros [= ->]. apply list_elem_of_here.
    + apply streq_false in E. rewrite <- IH. split.
      * intros [[= -> ->] | Hin]%elem_of_cons; [done | done].
      * intros Hin. by apply list_elem_of_further.
Qed.

Lemma dict_set_keys d k v :
  (dict_set d k v).*1 = if bool_decide (k ∈ d.*1) then d.*1 else d.*1 ++ [k].
Proof.
  induction d as [| [k0 v0] d IH]; [done |].
  cbn [dict_set]. destruct (streq k0 k) eqn:E; rewrite !fmap_cons; cbn [fst].
  - apply streq_true in E as ->.
    rewrite bool_decide_eq_true_2; [done | apply list_elem_of_here].
  - apply streq_false in E. rewrite IH.
    destruct (bool_decide (k ∈ d.*1)) eqn:Hin.
    + apply bool_decide_eq_true in Hin.
      rewrite bool_decide_eq_true_2; [done | by apply list_elem_of_further].
    + apply bool_decide_eq_false in Hin.
      rewrite bool_decide_eq_false_2; [done |].
      intros [-> | ?]%elem_of_cons; done.
Qed.

Lemma elem_of_dict_set_keys d k v k' :
  k' ∈ (dict_set d k v).*1 ↔ k' ∈ d.*1 ∨ k' = k.
Proof.
  rewrite dict_set_keys. destruct (bool_decide (k ∈ d.*1)) eqn:Hin.
  - apply bool_decide_eq_true in Hin. split; [auto | by intros [? | ->]].
  - rewrite elem_of_app, list_elem_of_singleton. done.
Qed.

Lemma dict_set_NoDup d k v : NoDup d.*1 → NoDup (dict_set d k v).*1.
Proof.
  intros Hnd. rewrite dict_set_keys. destruct (bool_decide (k ∈ d.*1)) eqn:Hin; [done |].
  apply bool_decide_eq_false in Hin.
  apply NoDup_app. split; [done |]. split; [| apply NoDup_singleton].
  intros x Hx ->%list_elem_of_singleton. done.
Qed.

Lemma assoc_ext d1 : ∀ d2,
  NoDup d1.*1 → d1.*1 = d2.*1 → (∀ k, dict_get d1 k = dict_get d2 k) → d1 = d2.
Proof.
  induction d1 as [| [k1 v1] d1 IH]; intros [| [k2 v2] d2] Hnd Hkeys Hget;
    try done.
  rewrite !fmap_cons in Hkeys, Hnd. cbn [fst] in Hkeys, Hnd.
  assert (k1 = k2 ∧ d1.*1 = d2.*1) as [<- Hkeys'] by (by injection Hkeys).
  clear Hkeys. rename Hkeys' into Hkeys.
  apply NoDup_cons in Hnd as [Hk1 Hnd].
  pose proof (Hget k1) as Hhead. simpl in Hhead.
  rewrite (proj2 (streq_true k1 k1) eq_refl) in Hhead. injection Hhead as <-.
  f_equal. apply IH; [done | done |].
  intros k. destruct (decide (k = k1)) as [-> | Hne].
  - rewrite (dict_get_None d1), (dict_get_None d2); [done | by rewrite <- Hkeys | done].
  - specialize (Hget k). simpl in Hget.
    by rewrite (proj2 (streq_false k1 k)) in Hget.
Qed.

(** A batch of writes, in order. *)
Lemma writes_frame (W : list (pystr * V)) : ∀ d k,
  k ∉ W.*1 → dict_get (foldl (λ f kv, dict_set f kv.1 kv.2) d W) k = dict_get d k.
Proof.
  induction W as [| [p v] W IH]; intros d k Hk; [done |].
  simpl in Hk. apply not_elem_of_cons in Hk as [Hne Hk].
  cbn [foldl]. rewrite IH by done. cbn [fst snd]. rewrite dict_get_set.
  by rewrite (proj2 (streq_false p k)).
Qed.

Lemma writes_keys (W : list (pystr * V)) : ∀ d k,
  k ∈ (foldl (λ f kv, dict_set f kv.1 kv.2) d W).*1 ↔ k ∈ d.*1 ∨ k ∈ W.*1.
Proof.
  induction W as [| [p v] W IH]; intros d k.
  - simpl. split; [auto | intros [? | ?%elem_of_nil]; done].
  - cbn [foldl]. rewrite IH, elem_of_dict_set_keys. cbn [fst snd fmap list_fmap].
    rewrite elem_of_cons. tauto.
Qed.

Lemma writes_NoDup (W : list (pystr * V)) : ∀ d,
  NoDup d.*1 → NoDup (foldl (λ f kv, dict_set f kv.1 kv.2) d W).*1.
Proof.
  induction W as [| [p v] W IH]; intros d Hnd; [done |].
  cbn [foldl]. apply IH. by apply dict_set_NoDup.
Qed.

Lemma writes_present (W : list (pystr * V)) : ∀ d,
  (∀ k, k ∈ W.*1 → k ∈ d.*1) →
  (foldl (λ f kv, dict_set f kv.1 kv.2) d W).*1 = d.*1.
Proof.
  induction W as [| [p v] W IH]; intros d Hin; [done |].
  cbn [foldl]. rewrite IH.
  - cbn [fst snd]. rewrite dict_set_keys, bool_decide_eq_true_2; [done |].
    apply Hin. apply list_elem_of_here.
  - intros k Hk. apply elem_of_dict_set_keys. left. apply Hin.
    by apply list_elem_of_further.
Qed.

Lemma writes_agree (W : list (pystr * V)) : ∀ d1 d2,
  (∀ k, k ∉ W.*1 → dict_get d1 k = dict_get d2 k) →
  ∀ k, dict_get (foldl (λ f kv, dict_set f kv.1 kv.2) d1 W) k
       = dict_get (foldl (λ f kv, dict_set f kv.1 kv.2) d2 W) k.
Proof.
  induction W as [| [p v] W IH]; intros d1 d2 Hagree k.
  - apply Hagree. by intros ?%elem_of_nil.
  - cbn [foldl]. apply IH. intros k' Hk'. cbn [fst snd].
    rewrite !dict_get_set. destruct (streq p k') eqn:E; [done |].
    apply streq_false in E. apply Hagree.
    intros [-> | ?]%elem_of_cons; done.
Qed.

Lemma writes_idempotent (W : list (pystr * V)) d :
  NoDup d.*1 →
  let run := foldl (λ f kv, dict_set f kv.1 kv.2) in
  run (run d W) W = run d W.
Proof.
  intros Hnd run. subst run. apply assoc_ext.
  - by do 2 apply writes_NoDup.
  - apply writes_present. intros k Hk. apply writes_keys. by right.
  - apply writes_agree. intros k Hk. by apply writes_frame.
Qed.

End Assoc.

(** ** Ingestion runs as batches of writes *)

Section IngestRuns.
Import Store Ingestion.
Variable w : web.

(** A run is a batch of writes (the records, and the unreadable file that
    a failed write leaves) that does not depend on the store it starts
    from; neither does what it returns. *)
Lemma ingest_loop_writes (articles : list pyval) :
  ∃ (W : list (pystr * file)) (r : list pyval → result (list pyval)),
    ∀ files acc,
      ingest_loop w files articles acc
      = (foldl (λ f kv, dict_set f kv.1 kv.2) files W, r acc).
Proof.
  induction articles as [| art articles (W & r & IH)].
  - by exists [], Ok.
  - destruct (ingest_article_cases w art)
      as [[e He] | [Hskip | (u & text & id & chunks & d & _ & _ & _ & _ & _ & _ & _ & Hw)]].
    + exists [], (λ _, Raise e). intros files acc. cbn [ingest_loop]. by rewrite He.
    + exists W, r. intros files acc. cbn [ingest_loop]. by rewrite Hskip, IH.
    + destruct (dumpable (PDict d)).
      * exists ((record_path id, JsonDoc (PDict d)) :: W),
          (λ acc, r (acc ++ [PDict d])).
        intros files acc. cbn [ingest_loop]. by rewrite Hw, IH.
      * exists [(record_path id, Unreadable JSONDecodeError)],
          (λ _, Raise UnicodeEncodeError).
        intros files acc. cbn [ingest_loop]. by rewrite Hw.
Qed.

(** X6. Ingestion is idempotent: on a store with one file per path, running
    [ingest_query] again with the same answers from the news API and the
    scraper returns the same records (or raises the same exception) and
    leaves every file, and the order of the files, as the first run left
    them. *)
Theorem ingest_query_idempotent (files : fs) (query : pystr)
    (from_days max_articles : Z) :
  NoDup files.*1 →
  let first_run := ingest_query w files query from_days max_articles in
  ingest_query w first_run.1 query from_days max_articles = first_run.
Proof.
  intros Hnd. cbn zeta. unfold ingest_query.
  destruct (fetch_news w query from_days max_articles ≫= iter) as [articles | e];
    [| done].
  destruct (ingest_loop_writes articles) as (W & r & Hrun).
  rewrite !Hrun. cbn [fst]. f_equal. by apply writes_idempotent.
Qed.



(** A path stays matched by the pattern when the run goes on. *)
Lemma ingest_loop_glob_mono (articles : list pyval) :
  ∀ (files files' : fs) (acc : list pyval) (r : result (list pyval)) (p : pystr),
  ingest_loop w files articles acc = (files', r) →
  p ∈ glob_data_json files → p ∈ glob_data_json files'.
Proof.
  intros files files' acc r p Hrun.
  destruct (ingest_loop_writes articles) as (W & r' & HW).
  rewrite HW in Hrun. injection Hrun as <- _.
  unfold glob_data_json. rewrite !list_elem_of_filter.
  intros [Hjson Hp]. split; [done |]. apply writes_keys. by left.
Qed.


End IngestRuns.

Section CollectOk.
Import Store EmbedIndex.

Lemma sorted_glob_perm (files : fs) :
  sorted (glob_data_json files) ≡ₚ glob_data_json files.
Proof. apply merge_sort_Permutation. Qed.

Lemma collect_docs_ok (files : fs) :
  glob_data_json files ≠ [] →
  Forall (Spec.article_file files) (glob_data_json files) →
  collect_docs files
  = Ok (concat (map (Spec.chunks_of files) (sorted (glob_data_json files))),
        concat (map (Spec.entries_of files) (sorted (glob_data_json files)))).
Proof.
  intros Hne Hall. unfold collect_docs.
  pose proof (sorted_glob_perm files) as Hperm.
  destruct (sorted (glob_data_json files)) as [| p paths] eqn:Hs.
  - apply Permutation_nil_l in Hperm. by symmetry in Hperm.
  - rewrite collect_loop_articles; [done |]. by rewrite Hperm.
Qed.

End CollectOk.



(** Witness for X6: a second run over the two sample files. *)
Lemma ingest_query_idempotent_witness :
  NoDup Examples.two_files.*1
  ∧ Ingestion.ingest_query (Examples.one_article "old words")
      (Ingestion.ingest_query (Examples.one_article "old words")
         Examples.two_files (lit "q") 1 5).1 (lit "q") 1 5
    = Ingestion.ingest_query (Examples.one_article "old words")
        Examples.two_files (lit "q") 1 5.
Proof.
  assert (Hnd : NoDup Examples.two_files.*1)
    by (apply (bool_decide_unpack _); vm_compute; exact I).
  split; [exact Hnd |].
  exact (ingest_query_idempotent (Examples.one_article "old words")
           Examples.two_files (lit "q") 1 5 Hnd).
Defined.

(** ** Collecting the corpus: success and listing order *)

#[local] Instance str_le_antisymm : AntiSymm (=) Store.str_le.
Proof.
  intros a. unfold Store.str_le.
  induction a as [| x a IH]; intros [| y b]; simpl; try done.
  destruct (N.ltb_spec x y), (N.ltb_spec y x); try lia; try done.
  - destruct (N.eqb_spec y x); [lia | done].
  - destruct (N.eqb_spec x y); [lia | done].
  - destruct (N.eqb_spec x y), (N.eqb_spec y x); try done.
    intros Hab Hba. f_equal; [done | by apply IH].
Qed.

Section CollectFacts.
Import Store EmbedIndex.

Lemma collect_file_ok (files : fs) acc p r :
  collect_file files acc p = Ok r → Spec.article_file files p.
Proof.
  unfold collect_file, Spec.article_file. intros Hrun.
  destruct (read_json files p) as [rec |]; [| done].
  destruct rec as [| | | | | | d]; try done.
  cbn [mbind result_bind bind get] in Hrun.
  destruct (iter _) as [items |] eqn:Hiter; [| done].
  by exists d, items.
Qed.

Lemma collect_loop_ok (files : fs) paths : ∀ acc r,
  collect_loop files acc paths = Ok r → Forall (Spec.article_file files) paths.
Proof.
  induction paths as [| p paths IH]; intros acc r Hrun; [constructor |].
  cbn [collect_loop] in Hrun.
  destruct (collect_file files acc p) as [acc' |] eqn:Hfile; [| done].
  constructor; [by eapply collect_file_ok | by eapply IH].
Qed.

(** The sorted list of matched paths does not depend on the order in which
    the operating system lists the directory. *)
Lemma sorted_glob_listing (files1 files2 : fs) :
  files1 ≡ₚ files2 →
  sorted (glob_data_json files1) = sorted (glob_data_json files2).
Proof.
  intros Hperm. apply (StronglySorted_unique str_le).
  - apply StronglySorted_merge_sort; apply _.
  - apply StronglySorted_merge_sort; apply _.
  - unfold sorted. rewrite !merge_sort_Permutation.
    unfold glob_data_json. by rewrite Hperm.
Qed.

Lemma read_json_listing (files1 files2 : fs) p :
  NoDup files1.*1 → files1 ≡ₚ files2 → read_json files1 p = read_json files2 p.
Proof.
  intros Hnd Hperm. unfold read_json.
  assert (Hnd2 : NoDup files2.*1) by (by rewrite <- Hperm).
  assert (Hget : dict_get files1 p = dict_get files2 p); [| by rewrite Hget].
  destruct (dict_get files1 p) as [f |] eqn:H1.
  - symmetry. apply dict_get_elem; [done |]. rewrite <- Hperm.
    by apply dict_get_elem.
  - destruct (dict_get files2 p) as [f |] eqn:H2; [| done].
    apply dict_get_elem in H2; [| done]. rewrite <- Hperm in H2.
    apply dict_get_elem in H2; [| done]. congruence.
Qed.

Lemma collect_loop_listing (files1 files2 : fs) paths : ∀ acc,
  NoDup files1.*1 → files1 ≡ₚ files2 →
  collect_loop files1 acc paths = collect_loop files2 acc paths.
Proof.
  induction paths as [| p paths IH]; intros acc Hnd Hperm; [done |].
  cbn [collect_loop]. unfold collect_file.
  rewrite (read_json_listing files1 files2) by done.
  destruct (read_json files2 p ≫= _) as [acc' |]; [| done].
  cbn [mbind result_bind bind]. by apply IH.
Qed.

End CollectFacts.

(** X7. [collect_docs] succeeds exactly when at least one file matches
    [data/*.json] and every matched file is an article file: one file that
    cannot be read, is not a JSON object, or whose [chunks] cannot be
    enumerated makes the whole collection fail; no file is skipped. *)
Theorem collect_docs_succeeds_iff (files : Store.fs) :
  (∃ docs metadatas, EmbedIndex.collect_docs files = Ok (docs, metadatas))
  ↔ Store.glob_data_json files ≠ []
    ∧ Forall (Spec.article_file files) (Store.glob_data_json files).
Proof.
  split.
  - intros (docs & metadatas & Hrun). unfold EmbedIndex.collect_docs in Hrun.
    pose proof (sorted_glob_perm files) as Hperm.
    destruct (Store.sorted (Store.glob_data_json files)) as [| p paths] eqn:Hs;
      [done |].
    split.
    + intros Hnil. rewrite Hnil in Hperm. by apply Permutation_nil_r in Hperm.
    + rewrite <- Hperm. by eapply collect_loop_ok.
  - intros [Hne Hall]. eexists _, _. by apply collect_docs_ok.
Qed.

(** X8. The result of [collect_docs] does not depend on the order in which
    the operating system lists the directory: two listings of the same
    files (one file per path) give the same texts and metadata, or the same
    exception. *)
Theorem collect_docs_listing_order (files1 files2 : Store.fs) :
  NoDup files1.*1 → files1 ≡ₚ files2 →
  EmbedIndex.collect_docs files1 = EmbedIndex.collect_docs files2.
Proof.
  intros Hnd Hperm. unfold EmbedIndex.collect_docs.
  rewrite (sorted_glob_listing files1 files2) by done.
  destruct (Store.sorted (Store.glob_data_json files2)) as [| p paths]; [done |].
  by apply collect_loop_listing.
Qed.

(** Witness for X8: the two sample files, listed in either order. *)
Lemma collect_docs_listing_order_witness :
  NoDup Examples.two_files.*1
  ∧ Examples.two_files ≡ₚ reverse Examples.two_files
  ∧ EmbedIndex.collect_docs Examples.two_files
    = EmbedIndex.collect_docs (reverse Examples.two_files).
Proof.
  assert (Hnd : NoDup Examples.two_files.*1)
    by (apply (bool_decide_unpack _); vm_compute; exact I).
  assert (Hperm : Examples.two_files ≡ₚ reverse Examples.two_files)
    by (symmetry; apply reverse_Permutation).
  split; [exact Hnd |]. split; [exact Hperm |].
  exact (collect_docs_listing_order _ _ Hnd Hperm).
Defined.

(** ** Querying the index: labels out of range *)

Lemma index_is_Some {A} (l : list A) (idx : Z) :
  is_Some (index l idx) ↔ - Z.of_nat (length l) ≤ idx < Z.of_nat (length l).
Proof.
  unfold index. destruct (Z.ltb_spec idx 0).
  - destruct (Z.leb_spec 0 (idx + Z.of_nat (length l))).
    + rewrite lookup_lt_is_Some. lia.
    + split; [by intros [? ?] | lia].
  - rewrite lookup_lt_is_Some. lia.
Qed.

Section QueryBounds.
Import EmbedIndex.
Context {vec faiss_index ndarray : Type}.
Variable encode_query : pystr → vec.
Variable search : faiss_index → vec → Z → result (list spec_float * list Z).
Variable metadatas : list pyval.
Variable D0 : list spec_float.

Lemma query_loop_out_of_range (I0 : list Z) : ∀ (rank : nat) (acc : list hit),
  Exists (λ idx, ¬ is_Some (index metadatas idx)) I0 →
  (rank + length I0 <= length D0)%nat →
  query_loop metadatas D0 rank I0 acc = Raise IndexError.
Proof.
  induction I0 as [| idx I0 IH]; intros rank acc Hbad Hlen;
    [by apply Exists_nil in Hbad |].
  cbn [query_loop]. cbn [length] in Hlen.
  destruct (index metadatas idx) as [meta |] eqn:Hmeta; [| done].
  destruct (lookup_lt_is_Some_2 D0 rank) as [sc Hsc]; [lia |].
  rewrite Hsc. cbn [of_option mbind result_bind bind].
  apply IH; [| lia].
  apply Exists_cons in Hbad as [Hbad | Hbad]; [| done].
  destruct Hbad. by rewrite Hmeta.
Qed.

(** X9. [query_index] indexes the metadata list with the labels as they
    come back from the search: when every label lies in [-N, N) for the
    [N] stored entries it returns one result per label, and when some label
    lies outside it raises [IndexError]. *)
Theorem query_index_label_bounds (index : faiss_index) (embs : ndarray)
    (query_text : pystr) (top_k : Z) (I0 : list Z) :
  search index (encode_query query_text) top_k = Ok (D0, I0) →
  length D0 = length I0 →
  let n := Z.of_nat (length metadatas) in
  let run :=
    query_index encode_query search (Some (index, metadatas, embs))
      query_text top_k in
  (Forall (λ idx, - n ≤ idx < n) I0 →
   ∃ results, run = Ok results ∧ length results = length I0)
  ∧ (¬ Forall (λ idx, - n ≤ idx < n) I0 → run = Raise IndexError).
Proof.
  intros Hsearch Hlen. cbn zeta. unfold query_index.
  cbn [load_index of_option mbind result_bind bind]. rewrite Hsearch.
  cbn [mbind result_bind bind]. split.
  - intros Hall.
    destruct (query_loop_hits metadatas D0 I0 0%nat []) as (hits & Hrun & Hhits & _).
    + intros idx Hidx. apply index_is_Some. rewrite Forall_forall in Hall. auto.
    + lia.
    + exists hits. by rewrite Hrun.
  - intros Hbad. apply query_loop_out_of_range; [| lia].
    apply not_Forall_Exists in Hbad; [| apply _].
    eapply Exists_impl; [exact Hbad |]. intros idx Hidx. cbn beta in Hidx.
    by rewrite index_is_Some.
Qed.

End QueryBounds.

(** Witness for X9: label 1 against a metadata list of one entry. *)
Lemma query_index_label_bounds_witness :
  Examples.search_two tt tt 2 = Ok ([Examples.f_zero; Examples.f_one], [1; 0])
  ∧ length [Examples.f_zero; Examples.f_one] = length [1; 0]
  ∧ EmbedIndex.query_index (λ _, tt) Examples.search_two
      (Some (tt, take 1 Examples.two_entries, tt)) (lit "q") 2
    = Raise IndexError.
Proof.
  split; [reflexivity |]. split; [reflexivity |].
  refine (proj2 (query_index_label_bounds (λ _, tt) Examples.search_two
                   (take 1 Examples.two_entries) [Examples.f_zero; Examples.f_one]
                   tt tt (lit "q") 2 [1; 0] eq_refl eq_refl) _).
  intros Hall. apply Forall_cons in Hall as [Hone _]. simpl in Hone. lia.
Defined.

(** ** From a metadata entry back to its chunk *)

Lemma key_eqb_str_r (k : pyval) (id : pystr) :
  key_eqb k (PStr id) = true → k = PStr id.
Proof.
  destruct k as [| b | z | f | s | l | d]; simpl;
    first [done | by intros ->%streq_true | by destruct f].
Qed.

Lemma key_eqb_str_l (k : pyval) (id : pystr) :
  key_eqb (PStr id) k = true → k = PStr id.
Proof.
  destruct k as [| b | z | f | s | l | d]; simpl;
    first [done | by intros ->%streq_true | by destruct f].
Qed.

Lemma metadata_entry_fields (doc_id title url source publishedAt : pyval) (i : nat) :
  ∃ md : list (pystr * pyval),
    EmbedIndex.metadata_entry doc_id title url source publishedAt i = PDict md
    ∧ Rag.md_get md (lit "doc_id") = doc_id
    ∧ Rag.md_get md (lit "chunk_index") = PInt (Z.of_nat i)
    ∧ Rag.md_get md (lit "chunk_text") = PNone
    ∧ Rag.md_get md (lit "snippet") = PNone.
Proof. eexists. split; [reflexivity |]. by repeat split. Qed.

Section RoundTrip.
Import Store Rag.

Lemma dm_get_set_same (data_map : list (pyval * pyval)) (id : pystr) (v : pyval) :
  dm_get (dm_set data_map (PStr id) v) (PStr id) = Some v.
Proof.
  assert (Hrefl : key_eqb (PStr id) (PStr id) = true) by (by apply streq_true).
  induction data_map as [| [k0 v0] data_map IH]; cbn [dm_set dm_get].
  - by rewrite Hrefl.
  - destruct (key_eqb k0 (PStr id)) eqn:E; cbn [dm_get]; by rewrite E.
Qed.

Lemma dm_get_set_other (data_map : list (pyval * pyval)) (k : pyval) (id : pystr)
    (v : pyval) :
  key_eqb k (PStr id) = false →
  dm_get (dm_set data_map k v) (PStr id) = dm_get data_map (PStr id).
Proof.
  intros Hk. induction data_map as [| [k0 v0] data_map IH]; cbn [dm_set dm_get].
  - by rewrite Hk.
  - destruct (key_eqb k0 k) eqn:E; cbn [dm_get].
    + destruct (key_eqb k0 (PStr id)) eqn:E0; [| done].
      apply key_eqb_str_r in E0 as ->. apply key_eqb_str_l in E as ->.
      cbn [key_eqb] in Hk. by apply streq_false in Hk.
    + by rewrite IH.
Qed.

Variable files : fs.

Lemma load_data_map_unique (p : pystr) (d : list (pystr * pyval)) (id : pystr) :
  p ∈ glob_data_json files →
  read_json files p = Ok (PDict d) →
  dict_get d (lit "doc_id") = Some (PStr id) →
  (∀ p' rec' k,
     p' ∈ glob_data_json files → read_json files p' = Ok rec' →
     get rec' (lit "doc_id") PNone = Ok k → key_eqb k (PStr id) = true →
     rec' = PDict d) →
  dm_get (load_data_map files) (PStr id) = Some (PDict d).
Proof.
  intros Hp Hread Hid Huniq. unfold load_data_map.
  assert (Hgen : ∀ paths data_map,
            (∀ q, q ∈ paths → q ∈ glob_data_json files) →
            p ∈ paths ∨ dm_get data_map (PStr id) = Some (PDict d) →
            dm_get (foldl (load_record files) data_map paths) (PStr id)
            = Some (PDict d)).
  { induction paths as [| q paths IH]; intros data_map Hsub Hor.
    - destruct Hor as [?%elem_of_nil | ?]; done.
    - cbn [foldl]. apply IH; [intros q' Hq'; apply Hsub; by apply list_elem_of_further |].
      assert (Hq : q ∈ glob_data_json files) by apply Hsub, list_elem_of_here.
      unfold load_record.
      destruct (read_json files q) as [rec |] eqn:Hrec.
      2:{ destruct Hor as [[-> | ?]%elem_of_cons | ?]; [congruence | by left | by right]. }
      destruct (get rec (lit "doc_id") PNone) as [k |] eqn:Hk.
      2:{ destruct Hor as [[-> | ?]%elem_of_cons | ?]; [| by left | by right].
          rewrite Hread in Hrec. injection Hrec as <-. cbn [get] in Hk. done. }
      destruct (key_eqb k (PStr id)) eqn:Heq.
      + right. pose proof (Huniq q rec k Hq Hrec Hk Heq) as ->.
        apply key_eqb_str_r in Heq as ->. cbn [hashable]. apply dm_get_set_same.
      + destruct Hor as [[-> | ?]%elem_of_cons | Hdm]; [| by left |].
        * rewrite Hread in Hrec. injection Hrec as <-.
          cbn [get] in Hk. rewrite Hid in Hk. cbn in Hk. injection Hk as <-.
          cbn [key_eqb] in Heq. by apply streq_false in Heq.
        * right. destruct (hashable k); [| done]. by rewrite dm_get_set_other. }
  apply Hgen; [done | by left].
Qed.

(** The entry that [collect_docs] builds for chunk [i] of a record leads the
    lookup back to that chunk, when no other readable record file carries
    the record's identifier. *)
Lemma lookup_chunk_unique_record (p : pystr) (d : list (pystr * pyval)) (rid : pystr)
    (cs : list pyval) (i : nat) (c : pyval) :
  p ∈ glob_data_json files →
  read_json files p = Ok (PDict d) →
  dict_get d (lit "doc_id") = Some (PStr rid) →
  rid ≠ [] →
  dict_get d (lit "chunks") = Some (PList cs) →
  cs !! i = Some c →
  (∀ p' rec' k,
     p' ∈ glob_data_json files → read_json files p' = Ok rec' →
     get rec' (lit "doc_id") PNone = Ok k → key_eqb k (PStr rid) = true →
     rec' = PDict d) →
  ∃ md : list (pystr * pyval),
    Spec.describes files p i = PDict md
    ∧ Spec.chunks_of files p !! i = Some c
    ∧ lookup_chunk (load_data_map files) md = Ok c
    ∧ (truthy c = true → chunk_text_value md c = c).
Proof.
  intros Hp Hread Hid Hne Hchunks Hc Huniq.
  pose proof (load_data_map_unique p d rid Hp Hread Hid Huniq) as Hdm.
  destruct (metadata_entry_fields (PStr rid) (Spec.field (PDict d) (lit "title"))
              (Spec.field (PDict d) (lit "url")) (Spec.field (PDict d) (lit "source"))
              (Spec.field (PDict d) (lit "publishedAt")) i)
    as (md & Hmd & Hmid & Hmi & _).
  exists md. split; [| split; [| split]].
  - unfold Spec.describes. rewrite Hread. rewrite <- Hmd.
    unfold Spec.field at 1. cbn [get]. by rewrite Hid.
  - unfold Spec.chunks_of. rewrite Hread. cbn [mbind result_bind bind get].
    by rewrite Hchunks.
  - unfold lookup_chunk. rewrite Hmid, Hmi, Hdm. cbn [hashable as_int get].
    rewrite Hchunks. cbn [from_option id mbind result_bind bind len].
    destruct rid as [| ch rid]; [done |]. cbn [truthy].
    destruct (Z.leb_spec 0 (Z.of_nat i)); [| lia].
    apply lookup_lt_Some in Hc as Hlt.
    destruct (Z.ltb_spec (Z.of_nat i) (Z.of_nat (length cs))); [| lia].
    unfold getitem_int, index.
    destruct (Z.ltb_spec (Z.of_nat i) 0); [lia |].
    by rewrite Nat2Z.id, Hc.
  - intros Htruthy. unfold chunk_text_value. by rewrite Htruthy.
Qed.
End RoundTrip.

(** ** Keyed stores *)

Section Keyed.
Import Store Ingestion.
Variable w : web.

Lemma write_record_keyed (files : fs) (rid : pystr) (d : list (pystr * pyval))
    (chunks : list pystr) :
  rid ≠ [] →
  dict_get d (lit "doc_id") = Some (PStr rid) →
  dict_get d (lit "chunks") = Some (PList (map PStr chunks)) →
  Spec.keyed_records files →
  Spec.keyed_records (dict_set files (record_path rid) (JsonDoc (PDict d))).
Proof.
  intros Hne Hid Hchunks Hkeyed p rec Hp Hread.
  unfold glob_data_json in Hp. apply list_elem_of_filter in Hp as [Hjson Hp].
  unfold read_json in *. rewrite dict_get_set in Hread.
  destruct (streq (record_path rid) p) eqn:E.
  - apply streq_true in E as <-. injection Hread as <-. by exists rid, d, chunks.
  - apply streq_false in E.
    apply elem_of_dict_set_keys in Hp as [Hp | ->]; [| done].
    apply Hkeyed; [| done]. unfold glob_data_json. by apply list_elem_of_filter.
Qed.

(** A failed write leaves a file that cannot be read, and the readable
    files as they were. *)
Lemma failed_write_keyed (files : fs) (path : pystr) (e : exn) :
  Spec.keyed_records files →
  Spec.keyed_records (dict_set files path (Unreadable e)).
Proof.
  intros Hkeyed p rec Hp Hread.
  unfold glob_data_json in Hp. apply list_elem_of_filter in Hp as [Hjson Hp].
  unfold read_json in *. rewrite dict_get_set in Hread.
  destruct (streq path p) eqn:E; [done |].
  apply streq_false in E.
  apply elem_of_dict_set_keys in Hp as [Hp | ->]; [| done].
  apply Hkeyed; [| done]. unfold glob_data_json. by apply list_elem_of_filter.
Qed.

Lemma ingest_loop_keyed (articles : list pyval) :
  ∀ (files files' : fs) (acc : list pyval) (r : result (list pyval)),
  ingest_loop w files articles acc = (files', r) →
  Spec.keyed_records files → Spec.keyed_records files'.
Proof.
  induction articles as [| art articles IH]; intros files files' acc r Hrun Hkeyed.
  - by simplify_eq/=.
  - cbn [ingest_loop] in Hrun.
    destruct (ingest_article_cases w art)
      as [[e He] | [Hskip | (u & text & rid & chunks & d & _ & Hid & _ & _ & Hdid & _ & Hch & Hw)]].
    + rewrite He in Hrun. by simplify_eq.
    + rewrite Hskip in Hrun. by eapply IH.
    + rewrite Hw in Hrun. destruct (dumpable (PDict d)).
      * eapply IH; [exact Hrun |].
        eapply write_record_keyed; try done.
        destruct u as [| | | | s | |]; try done.
        destruct (doc_id_shape _ _ Hid) as [Hlen _]. by intros ->.
      * injection Hrun as <- _. by apply failed_write_keyed.
Qed.

(** X10. Ingestion keeps the store keyed: if every readable record file is
    [data/<id>.json] for the non-empty string [<id>] that its record
    carries as [doc_id], with a list of strings as [chunks], then the same
    holds after [ingest_query], whatever the run fetched and whether or not
    it raised. *)
Theorem ingest_query_keeps_records_keyed (files : fs) (query : pystr)
    (from_days max_articles : Z) :
  Spec.keyed_records files →
  Spec.keyed_records (ingest_query w files query from_days max_articles).1.
Proof.
  intros Hkeyed. unfold ingest_query.
  destruct (fetch_news w query from_days max_articles ≫= iter) as [articles | e];
    [| done].
  destruct (ingest_loop w files articles []) as [files' r] eqn:Hrun.
  by eapply ingest_loop_keyed.
Qed.

End Keyed.

Section Resolve.
Import Store EmbedIndex Rag.
Variable files : fs.

(** X11. On a keyed store, every metadata entry that [collect_docs] returns
    resolves to the text it stands for: the lookup of
    [prepare_retrieved_with_texts] on the entry at position [j] finds
    exactly [docs[j]], the text that was embedded at that position, and
    stores it as [chunk_text] when it is not empty. *)
Theorem collected_entries_resolve (docs metadatas : list pyval) :
  Spec.keyed_records files →
  collect_docs files = Ok (docs, metadatas) →
  ∀ (j : nat) (m : pyval), metadatas !! j = Some m →
    ∃ (md : list (pystr * pyval)) (doc : pyval),
      m = PDict md
      ∧ docs !! j = Some doc
      ∧ lookup_chunk (load_data_map files) md = Ok doc
      ∧ (truthy doc = true → chunk_text_value md doc = doc).
Proof.
  intros Hkeyed Hrun j m Hj.
  pose proof (sorted_glob_perm files) as Hperm.
  assert (Hall : Forall (Spec.article_file files) (glob_data_json files)
                 ∧ glob_data_json files ≠ []).
  { unfold collect_docs in Hrun.
    destruct (sorted (glob_data_json files)) as [| p paths] eqn:Hs; [done |]. split.
    - rewrite <- Hperm. by eapply collect_loop_ok.
    - intros Hnil. rewrite Hnil in Hperm. by apply Permutation_nil_r in Hperm. }
  destruct Hall as [Hall Hne].
  rewrite collect_docs_ok in Hrun by done. injection Hrun as <- <-.
  destruct (aligned_lookup files _ _ _ Hj) as (p & i & doc & Hp & Hdoc & Hcat & ->).
  rewrite Hperm in Hp.
  rewrite Forall_forall in Hall. destruct (Hall p Hp) as (d0 & items & Hread & _).
  destruct (Hkeyed p _ Hp Hread) as (rid & d & cs & [= ->] & -> & Hne' & Hid & Hchunks).
  assert (Hcs : map PStr cs !! i = Some doc).
  { unfold Spec.chunks_of in Hdoc. rewrite Hread in Hdoc.
    cbn [mbind result_bind bind get] in Hdoc. by rewrite Hchunks in Hdoc. }
  destruct (lookup_chunk_unique_record files (Ingestion.record_path rid) d rid (map PStr cs) i doc)
    as (md & Hmd & _ & Hlookup & Hvalue); try done.
  { intros p' rec' k Hp' Hread' Hk Heq.
    destruct (Hkeyed p' rec' Hp' Hread') as (rid' & d' & cs' & -> & -> & _ & Hid' & _).
    cbn [get] in Hk. rewrite Hid' in Hk. cbn in Hk. injection Hk as <-.
    apply key_eqb_str_r in Heq. injection Heq as ->. congruence. }
  exists md, doc. done.
Qed.

End Resolve.

Lemma two_files_keyed : Spec.keyed_records Examples.two_files.
Proof.
  intros p rec Hp Hread. rewrite two_files_glob in Hp.
  apply elem_of_cons in Hp as [-> | Hp];
    [| apply list_elem_of_singleton in Hp as ->];
    vm_compute in Hread; injection Hread as <-.
  - exists (lit "b"), [(lit "doc_id", PStr (lit "b"));
                       (lit "chunks", PList [PStr (lit "b0")])], [lit "b0"].
    by repeat split.
  - exists (lit "a"), [(lit "doc_id", PStr (lit "a"));
                       (lit "chunks", PList [PStr (lit "a0"); PStr (lit "a1")])],
      [lit "a0"; lit "a1"].
    by repeat split.
Qed.

(** Witness for X10: a run over the two sample files. *)
Lemma ingest_query_keeps_records_keyed_witness :
  Spec.keyed_records Examples.two_files
  ∧ Spec.keyed_records
      (Ingestion.ingest_query (Examples.one_article "old words")
         Examples.two_files (lit "q") 1 5).1.
Proof.
  split; [exact two_files_keyed |].
  exact (ingest_query_keeps_records_keyed (Examples.one_article "old words")
           Examples.two_files (lit "q") 1 5 two_files_keyed).
Defined.

(** Witness for X11: the entries collected from the two sample files. *)
Lemma collected_entries_resolve_witness :
  Spec.keyed_records Examples.two_files
  ∧ (∃ docs metadatas,
       EmbedIndex.collect_docs Examples.two_files = Ok (docs, metadatas)
       ∧ ∀ (j : nat) (m : pyval), metadatas !! j = Some m →
           ∃ (md : list (pystr * pyval)) (doc : pyval),
             m = PDict md
             ∧ docs !! j = Some doc
             ∧ Rag.lookup_chunk (Rag.load_data_map Examples.two_files) md = Ok doc).
Proof.
  split; [exact two_files_keyed |].
  eexists _, _. split; [exact collect_docs_two_files |].
  intros j m Hj.
  destruct (collected_entries_resolve Examples.two_files _ _ two_files_keyed
              collect_docs_two_files j m Hj) as (md & doc & Hm & Hdoc & Hlookup & _).
  by exists md, doc.
Defined.

(** ** Enriched results always carry a passage *)

Lemma chunk_text_value_truthy (md : list (pystr * pyval)) (found : pyval) :
  truthy (Rag.chunk_text_value md found) = true.
Proof.
  unfold Rag.chunk_text_value, py_or.
  destruct (truthy found) eqn:Hfound; [done |].
  by destruct (truthy (Rag.md_get md (lit "chunk_text"))) eqn:Hold.
Qed.

Lemma passage_text_chunk_text (md : list (pystr * pyval)) (text : pyval) :
  dict_get md (lit "chunk_text") = Some text → truthy text = true →
  Rag.passage_text md = text.
Proof.
  intros Hget Htruthy. unfold Rag.passage_text, Rag.md_get, py_or.
  rewrite Hget. cbn [from_option id]. by rewrite !Htruthy.
Qed.

Section Enriched.
Import Store Rag.
Variable files : fs.

(** X12. After [prepare_retrieved_with_texts], every result carries a
    non-empty [chunk_text] (the chunk found, the text already stored, or
    the placeholder), and that value is the passage the evidence block
    shows: the [snippet] field and the placeholder of
    [build_evidence_block] are never used on enriched results. *)
Theorem enriched_passage_is_chunk_text (h : heap) (raw_results : list loc) :
  Spec.records_typed files →
  Forall (Spec.retrieval_result h) raw_results →
  ∃ (enriched : list loc) (h' : heap),
    prepare_retrieved_with_texts files h raw_results = Ok (enriched, h')
    ∧ Forall (λ li, ∃ (it : item) (md : list (pystr * pyval)) (text : pyval),
                 h' !! li = Some (OItem it)
                 ∧ h' !! metadata it = Some (ODict md)
                 ∧ dict_get md (lit "chunk_text") = Some text
                 ∧ truthy text = true
                 ∧ passage_text md = text) enriched.
Proof.
  intros Htyped Hall.
  destruct (enrich_loop_spec files raw_results h h [] Htyped)
    as (news & h' & Hrun & _ & Hrel); [done | done |].
  exists news, h'. split; [exact Hrun |].
  clear Hrun Hall. induction Hrel as [| l li raw news Hli _ IH]; constructor; [| done].
  destruct Hli as (it & md & it' & md' & found & _ & _ & _ & _ & Hli' & Hmd' & _ & _ & _ & _ & Htext).
  exists it', md', (chunk_text_value md found).
  split; [done |]. split; [done |].
  assert (Htruthy := chunk_text_value_truthy md found).
  split; [exact Htext |]. split; [done |].
  by apply passage_text_chunk_text.
Qed.

End Enriched.

(** ** The evidence block *)

Section EvidenceBlock.
Import Rag.
Variable fmt : pyval → pystr.
Variable fill : pystr → pystr.

Lemma evidence_entry_passage (h : heap) (i : Z) (l : loc) (text : pystr) :
  Spec.has_passage h l text →
  ∃ rest m,
    evidence_entry fmt fill h i l
    = Ok ([lit "[" ++ fmt (PInt i) ++ lit "] (" ++ rest; fill text; []], m)
    ∧ get m (lit "idx") PNone = Ok (PInt i).
Proof.
  intros (it & md & Hl & Hmd & Htext). unfold evidence_entry.
  rewrite Hl, Hmd, Htext. by eexists _, _.
Qed.

Lemma evidence_loop_numbered (h : heap) (retrieved : list loc) :
  ∀ (i : Z) (lines : list pystr) (mapping : list pyval),
  Forall (λ l, ∃ text, Spec.has_passage h l text) retrieved →
  ∃ (lines' : list pystr) (mapping' : list pyval),
    evidence_loop fmt fill h i retrieved lines mapping
    = Ok (lines ++ lines', mapping ++ mapping')
    ∧ length lines' = (3 * length retrieved)%nat
    ∧ length mapping' = length retrieved
    ∧ ∀ (j : nat) (l : loc) (text : pystr),
        retrieved !! j = Some l → Spec.has_passage h l text →
        (∃ rest, lines' !! (3 * j)%nat
                 = Some (lit "[" ++ fmt (PInt (i + Z.of_nat j)) ++ lit "] (" ++ rest))
        ∧ lines' !! (3 * j + 1)%nat = Some (fill text)
        ∧ lines' !! (3 * j + 2)%nat = Some []
        ∧ ∃ m, mapping' !! j = Some m
               ∧ get m (lit "idx") PNone = Ok (PInt (i + Z.of_nat j)).
Proof.
  induction retrieved as [| l retrieved IH]; intros i lines mapping Hall.
  - exists [], []. rewrite !app_nil_r. by repeat split.
  - apply Forall_cons in Hall as [[text Htext] Hall].
    destruct (evidence_entry_passage h i l text Htext) as (rest & m & Hentry & Hidx).
    set (header := lit "[" ++ fmt (PInt i) ++ lit "] (" ++ rest) in *.
    destruct (IH (i + 1) (lines ++ [header; fill text; []]) (mapping ++ [m]) Hall)
      as (lines' & mapping' & Hrun & Hlines & Hmapping & Hpos).
    exists ([header; fill text; []] ++ lines'), (m :: mapping').
    split; [| split; [| split]].
    + cbn [evidence_loop]. rewrite Hentry. cbn [mbind result_bind bind].
      rewrite Hrun. by rewrite <- !app_assoc.
    + cbn [length app]. lia.
    + cbn [length]. lia.
    + intros [| j] l' text' Hj Hpassage.
      * injection Hj as <-.
        assert (text' = text) as ->.
        { destruct Htext as (it & md & Hl & Hmd & Ht).
          destruct Hpassage as (it' & md' & Hl' & Hmd' & Ht'). congruence. }
        rewrite Z.add_0_r.
        split; [by exists rest |]. split; [done |]. split; [done |]. by exists m.
      * destruct (Hpos j l' text' Hj Hpassage)
          as ((rest' & H0) & H1 & H2 & m' & Hm' & Hidx').
        replace (i + Z.of_nat (S j)) with (i + 1 + Z.of_nat j) by lia.
        replace (3 * S j)%nat with (3 + 3 * j)%nat by lia.
        replace (3 + 3 * j + 1)%nat with (3 + (3 * j + 1))%nat by lia.
        replace (3 + 3 * j + 2)%nat with (3 + (3 * j + 2))%nat by lia.
        split; [by exists rest' |]. split; [done |]. split; [done |]. by exists m'.
Qed.

(** X13. When every result has a string passage, [build_evidence_block]
    returns three lines per result (a header that begins with the citation
    number in brackets, the wrapped passage, an empty line) and one
    citation entry per result; the citation numbers are 1, 2, ... in the
    order of the list, whatever the ranks of the results. *)
Theorem build_evidence_block_numbered (h : heap) (retrieved : list loc) :
  Forall (λ l, ∃ text, Spec.has_passage h l text) retrieved →
  ∃ (lines : list pystr) (mapping : list pyval),
    build_evidence_block fmt fill h retrieved = Ok (join [10%N] lines, mapping)
    ∧ length lines = (3 * length retrieved)%nat
    ∧ length mapping = length retrieved
    ∧ ∀ (j : nat) (l : loc) (text : pystr),
        retrieved !! j = Some l → Spec.has_passage h l text →
        (∃ rest, lines !! (3 * j)%nat
                 = Some (lit "[" ++ fmt (PInt (Z.of_nat j + 1)) ++ lit "] (" ++ rest))
        ∧ lines !! (3 * j + 1)%nat = Some (fill text)
        ∧ lines !! (3 * j + 2)%nat = Some []
        ∧ ∃ m, mapping !! j = Some m
               ∧ get m (lit "idx") PNone = Ok (PInt (Z.of_nat j + 1)).
Proof.
  intros Hall.
  destruct (evidence_loop_numbered h retrieved 1 [] [] Hall)
    as (lines & mapping & Hrun & Hlines & Hmapping & Hpos).
  exists lines, mapping. split; [| split; [done | split; [done |]]].
  - unfold build_evidence_block. by rewrite Hrun.
  - intros j l text Hj Hpassage.
    destruct (Hpos j l text Hj Hpassage) as ((rest & H0) & H1 & H2 & m & Hm & Hidx).
    replace (Z.of_nat j + 1) with (1 + Z.of_nat j) by lia.
    split; [by exists rest |]. split; [done |]. split; [done |]. by exists m.
Qed.

End EvidenceBlock.

(** ** Retrieval results through enrichment and evidence assembly *)

Section Pipeline.
Import Store Rag.
Variable fmt : pyval → pystr.
Variable fill : pystr → pystr.
Variable files : fs.

Lemma records_of_strings_typed : Spec.records_of_strings files → Spec.records_typed files.
Proof.
  intros Hstr p d Hp Hread. destruct (Hstr p d Hp Hread) as [cs Hcs]. by eexists.
Qed.

(** On records whose chunks are strings the lookup finds a string or
    nothing. *)
Lemma lookup_chunk_strings (md : list (pystr * pyval)) (found : pyval) :
  Spec.records_of_strings files →
  lookup_chunk (load_data_map files) md = Ok found →
  found = PNone ∨ ∃ s, found = PStr s.
Proof.
  intros Hstr. unfold lookup_chunk.
  destruct (truthy _); [| intros [= <-]; by left].
  destruct (hashable _); [| done].
  destruct (dm_get _ _) as [rec |] eqn:Hrec; [| intros [= <-]; by left].
  apply dm_get_elem in Hrec as [k Hk].
  pose proof (load_data_map_values files
                (λ rec, ∃ cs : list pystr,
                   get rec (lit "chunks") (PList []) = Ok (PList (map PStr cs)))
                Hstr) as Hvals.
  rewrite Forall_forall in Hvals. destruct (Hvals _ Hk) as [cs Hcs].
  cbn [snd] in Hcs. rewrite Hcs. cbn [mbind result_bind bind].
  destruct (as_int _) as [i |]; [| intros [= <-]; by left].
  destruct (0 <=? i); [| intros [= <-]; by left].
  cbn [len mbind result_bind bind].
  destruct (i <? _); [| intros [= <-]; by left].
  unfold getitem_int. destruct (index (map PStr cs) i) as [c |] eqn:Hc; [| done].
  intros [= <-]. right. unfold index in Hc.
  assert (c ∈ map PStr cs) as Hin.
  { repeat case_match; try done; by eapply list_elem_of_lookup_2. }
  apply list_elem_of_fmap in Hin as (s & -> & _). by exists s.
Qed.

(** X14. For retrieval results over an index built by [collect_docs] and
    records whose chunks are strings, enrichment followed by evidence
    assembly raises nothing: [prepare_retrieved_with_texts] returns one
    enriched result per result, and [build_evidence_block] on them returns
    a text and one citation entry per result. *)
Theorem prepare_then_evidence (h : heap) (raw_results : list loc) :
  Spec.records_of_strings files →
  Forall (Spec.index_result h) raw_results →
  ∃ (enriched : list loc) (h' : heap) (evidence_text : pystr) (mapping : list pyval),
    prepare_retrieved_with_texts files h raw_results = Ok (enriched, h')
    ∧ build_evidence_block fmt fill h' enriched = Ok (evidence_text, mapping)
    ∧ length enriched = length raw_results
    ∧ length mapping = length raw_results.
Proof.
  intros Hstr Hall.
  assert (Hres : Forall (Spec.retrieval_result h) raw_results).
  { eapply Forall_impl; [exact Hall |].
    intros l (it & md & Hl & Hmd & Hhash & _). by exists it, md. }
  destruct (enrich_loop_spec files raw_results h h []
              (records_of_strings_typed Hstr))
    as (news & h' & Hrun & _ & Hrel); [done | done |].
  assert (Hpassages : Forall (λ l, ∃ text, Spec.has_passage h' l text) news).
  { clear Hrun Hres.
    induction Hrel as [| l li raw news Hli _ IH]; [constructor |].
    apply Forall_cons in Hall as [(it0 & md0 & Hl0 & Hmd0 & _ & Hnotext) Hall].
    constructor; [| by apply IH].
    destruct Hli as (it & md & it' & md' & found & Hl & Hmd & _ & _ & Hli' & Hmd'
                     & _ & _ & _ & Hfound & Htext).
    assert (md0 = md) as -> by congruence.
    assert (∃ s, dict_get md' (lit "chunk_text") = Some (PStr s)
                 ∧ truthy (PStr s) = true) as (s & Hs & Htruthy).
    { destruct (truthy found) eqn:Hf.
      - destruct (lookup_chunk_strings md found Hstr Hfound) as [-> | [s ->]];
          [done | by exists s].
      - exists placeholder. unfold py_or in Htext.
        unfold Spec.no_stored_text in Hnotext. by rewrite Hnotext in Htext. }
    exists s, it', md'. split; [done |]. split; [done |].
    by apply passage_text_chunk_text. }
  destruct (evidence_loop_numbered fmt fill h' news 1 [] [] Hpassages)
    as (lines & mapping & Hev & _ & Hmapping & _).
  apply Forall2_length in Hrel.
  exists news, h', (join [10%N] lines), mapping.
  split; [exact Hrun |]. split; [| split; [done | lia]].
  unfold build_evidence_block. by rewrite Hev.
Qed.

End Pipeline.

Lemma keyed_records_strings (files : Store.fs) :
  Spec.keyed_records files → Spec.records_of_strings files.
Proof.
  intros Hkeyed p d Hp Hread.
  destruct (Hkeyed p _ Hp Hread) as (rid & d' & cs & [= <-] & _ & _ & _ & Hchunks).
  exists cs. cbn [get]. by rewrite Hchunks.
Qed.

(** Witness for X12: the two results that share a metadata dict. *)
Lemma enriched_passage_is_chunk_text_witness :
  Spec.records_typed Examples.two_files
  ∧ Forall (Spec.retrieval_result Examples.shared_heap) [1%positive; 2%positive]
  ∧ ∃ (enriched : list Rag.loc) (h' : Rag.heap),
      Rag.prepare_retrieved_with_texts Examples.two_files Examples.shared_heap
        [1%positive; 2%positive] = Ok (enriched, h')
      ∧ Forall (λ li, ∃ (it : Rag.item) (md : list (pystr * pyval)) (text : pyval),
                   h' !! li = Some (Rag.OItem it)
                   ∧ h' !! Rag.metadata it = Some (Rag.ODict md)
                   ∧ truthy text = true
                   ∧ Rag.passage_text md = text) enriched.
Proof.
  assert (Hall : Forall (Spec.retrieval_result Examples.shared_heap)
                        [1%positive; 2%positive]).
  { repeat apply Forall_cons_2; [| | apply Forall_nil_2];
      eexists _, _; (split; [reflexivity |]); split; reflexivity. }
  split; [exact two_files_typed |]. split; [exact Hall |].
  destruct (enriched_passage_is_chunk_text Examples.two_files Examples.shared_heap
              [1%positive; 2%positive] two_files_typed Hall)
    as (enriched & h' & Hrun & Hpassages).
  exists enriched, h'. split; [exact Hrun |].
  eapply Forall_impl; [exact Hpassages |].
  intros li (it & md & text & Hli & Hmd & _ & Htruthy & Htext).
  by exists it, md, text.
Defined.

(** Witness for X13: one result without any text. *)
Lemma build_evidence_block_numbered_witness :
  Forall (λ l, ∃ text, Spec.has_passage Examples.stale_heap l text) [1%positive]
  ∧ ∃ (lines : list pystr) (mapping : list pyval),
      Rag.build_evidence_block (λ _, []) id Examples.stale_heap [1%positive]
      = Ok (join [10%N] lines, mapping)
      ∧ length lines = 3%nat
      ∧ length mapping = 1%nat.
Proof.
  assert (Hall : Forall (λ l, ∃ text, Spec.has_passage Examples.stale_heap l text)
                        [1%positive]).
  { apply Forall_cons_2; [| apply Forall_nil_2].
    exists Rag.placeholder. eexists _, _.
    split; [reflexivity |]. split; reflexivity. }
  split; [exact Hall |].
  destruct (build_evidence_block_numbered (λ _, []) id Examples.stale_heap
              [1%positive] Hall) as (lines & mapping & Hrun & Hlines & Hmapping & _).
  exists lines, mapping. split; [exact Hrun |]. split; [exact Hlines | exact Hmapping].
Defined.

(** Witness for X14: the two results that share a metadata dict. *)
Lemma prepare_then_evidence_witness :
  Spec.records_of_strings Examples.two_files
  ∧ Forall (Spec.index_result Examples.shared_heap) [1%positive; 2%positive]
  ∧ ∃ (enriched : list Rag.loc) (h' : Rag.heap) (evidence_text : pystr)
      (mapping : list pyval),
      Rag.prepare_retrieved_with_texts Examples.two_files Examples.shared_heap
        [1%positive; 2%positive] = Ok (enriched, h')
      ∧ Rag.build_evidence_block (λ _, []) id h' enriched
        = Ok (evidence_text, mapping)
      ∧ length mapping = 2%nat.
Proof.
  assert (Hstr : Spec.records_of_strings Examples.two_files)
    by exact (keyed_records_strings _ two_files_keyed).
  assert (Hall : Forall (Spec.index_result Examples.shared_heap)
                        [1%positive; 2%positive]).
  { repeat apply Forall_cons_2; [| | apply Forall_nil_2];
      eexists _, _; repeat split; reflexivity. }
  split; [exact Hstr |]. split; [exact Hall |].
  destruct (prepare_then_evidence (λ _, []) id Examples.two_files
              Examples.shared_heap [1%positive; 2%positive] Hstr Hall)
    as (enriched & h' & text & mapping & Hprep & Hev & _ & Hlen).
  exists enriched, h', text, mapping.
  split; [exact Hprep |]. split; [exact Hev | exact Hlen].
Defined.

(** ** Assembling streamed fragments *)

Section Assemble.
Import OllamaClient.

Lemma output_items_app (out : list pyval) : ∀ parts,
  output_items out parts = parts ++ output_items out [].
Proof.
  induction out as [| it out IH]; intros parts; cbn [output_items].
  - by rewrite app_nil_r.
  - destruct it as [| | | | s | |d]; try apply IH.
    + rewrite IH, (IH ([] ++ _)). by rewrite app_assoc.
    + destruct (dict_get d (lit "response")) as [r |]; [| apply IH].
      rewrite IH, (IH ([] ++ _)). by rewrite app_assoc.
Qed.

Lemma assemble_step_app (parts : list pyval) (o : pyval) :
  assemble_step parts o = parts ++ assemble_step [] o.
Proof.
  unfold assemble_step.
  repeat case_match; rewrite ?app_nil_r; try done; apply output_items_app.
Qed.

Lemma foldl_assemble_step (objs : list pyval) : ∀ parts,
  foldl assemble_step parts objs
  = parts ++ concat (map (assemble_step []) objs).
Proof.
  induction objs as [| o objs IH]; intros parts; cbn [foldl map concat].
  - by rewrite app_nil_r.
  - rewrite IH, (assemble_step_app parts o). by rewrite app_assoc.
Qed.

Lemma join_parts_strings (frags : list pystr) :
  join_parts (map PStr frags) = Ok (concat frags).
Proof.
  induction frags as [| r frags IH]; [done |].
  cbn [map join_parts concat]. by rewrite IH.
Qed.

(** X15. Streamed fragments are concatenated in order: when every object
    of a streamed body carries a string ["response"], the assembled text is
    the concatenation of these strings, in the order of the objects,
    stripped of leading and trailing white space as a whole (white space
    inside and between fragments is kept). *)
Theorem assemble_response_fragments (objs : list pyval) (frags : list pystr) :
  Forall2 (λ o r, ∃ d, o = PDict d ∧ dict_get d (lit "response") = Some (PStr r))
          objs frags →
  _assemble_responses_from_objs objs = Ok (strip (concat frags)).
Proof.
  intros Hobjs. unfold _assemble_responses_from_objs.
  rewrite foldl_assemble_step. cbn [app].
  assert (Hparts : concat (map (assemble_step []) objs) = map PStr frags).
  { induction Hobjs as [| o r objs frags (d & -> & Hr) _ IH]; [done |].
    cbn [map concat]. rewrite IH. unfold assemble_step. by rewrite Hr. }
  by rewrite Hparts, join_parts_strings.
Qed.

(** ["".join(parts)] raises exactly when some part is not a string. *)
Lemma join_parts_Forall (parts : list pyval) :
  Forall (λ v, is_str v = true) parts → ∃ text, join_parts parts = Ok text.
Proof.
  induction 1 as [| v parts Hv _ [text IH]]; [by exists [] |].
  destruct v; try done. cbn [join_parts]. rewrite IH. by eexists.
Qed.

Lemma join_parts_Exists (parts : list pyval) :
  Exists (λ v, is_str v = false) parts → join_parts parts = Raise TypeError.
Proof.
  induction 1 as [v parts Hv | v parts _ IH].
  - by destruct v.
  - destruct v; try done. cbn [join_parts]. by rewrite IH.
Qed.

(** The items of an ["output"] list: either all appended parts are strings,
    or some dict item carries a ["response"] that is not one. *)
Lemma output_items_cases (items : list pyval) :
  (Forall (λ v, is_str v = true) (output_items items [])
   ∧ ∀ it r, PDict it ∈ items → dict_get it (lit "response") = Some r →
             is_str r = true)
  ∨ (Exists (λ v, is_str v = false) (output_items items [])
     ∧ ∃ it r, PDict it ∈ items ∧ dict_get it (lit "response") = Some r
               ∧ is_str r = false).
Proof.
  induction items as [| v items IH]; cbn [output_items].
  - left. split; [constructor |]. by intros it r ?%elem_of_nil.
  - assert (Hskip : ∀ it, PDict it ∈ v :: items → v ≠ PDict it → PDict it ∈ items).
    { intros it [<- | ?]%elem_of_cons Hne; done. }
    assert (Hkeep :
      (Forall (λ v, is_str v = true) (output_items items [])
       ∧ ∀ it r, PDict it ∈ v :: items → dict_get it (lit "response") = Some r →
                 is_str r = true)
      ∨ (Exists (λ v, is_str v = false) (output_items items [])
         ∧ ∃ it r, PDict it ∈ v :: items ∧ dict_get it (lit "response") = Some r
                   ∧ is_str r = false) →
      (∀ it, v = PDict it → dict_get it (lit "response") = None) →
      (Forall (λ v, is_str v = true) (output_items items [])
       ∧ ∀ it r, PDict it ∈ v :: items → dict_get it (lit "response") = Some r →
                 is_str r = true)
      ∨ (Exists (λ v, is_str v = false) (output_items items [])
         ∧ ∃ it r, PDict it ∈ v :: items ∧ dict_get it (lit "response") = Some r
                   ∧ is_str r = false)) by auto.
    assert (Hrest :
      (∀ it r, v = PDict it → dict_get it (lit "response") = Some r → is_str r = true) →
      (Forall (λ v, is_str v = true) (output_items items [])
       ∧ ∀ it r, PDict it ∈ v :: items → dict_get it (lit "response") = Some r →
                 is_str r = true)
      ∨ (Exists (λ v, is_str v = false) (output_items items [])
         ∧ ∃ it r, PDict it ∈ v :: items ∧ dict_get it (lit "response") = Some r
                   ∧ is_str r = false)).
    { intros Hv. destruct IH as [[Hall Hok] | [Hex (it & r & Hin & Hr & Hbad)]].
      - left. split; [done |]. intros it r [Heq | Hin]%elem_of_cons Hr; eauto.
      - right. split; [done |]. exists it, r. split; [by apply list_elem_of_further | done]. }
    destruct v as [| | | | s | | d]; try (apply Hrest; by intros).
    + rewrite output_items_app. cbn [app].
      destruct (Hrest ltac:(by intros)) as [[Hall Hok] | [Hex Hbad]].
      * left. split; [by constructor | done].
      * right. split; [by apply Exists_cons_tl | done].
    + destruct (dict_get d (lit "response")) as [r |] eqn:Hr.
      * rewrite output_items_app. cbn [app].
        destruct (is_str r) eqn:Hstr.
        -- destruct (Hrest ltac:(intros it r' [= <-] Hr'; congruence))
             as [[Hall Hok] | [Hex Hbad]].
           ++ left. split; [by constructor | done].
           ++ right. split; [by apply Exists_cons_tl | done].
        -- right. split; [by apply Exists_cons_hd |].
           exists d, r. split; [apply list_elem_of_here | done].
      * apply Hrest. intros it r [= <-] Hr'. congruence.
Qed.

Ltac good_step Hnot :=
  left; split;
  [ cbn [app]; by repeat constructor
  | eapply Hnot; [reflexivity |]; intros;
    first [ left; eexists; eassumption | right; left; eexists; eassumption
          | congruence ] ].

Ltac list_step Hnot items Hout :=
  let Hall := fresh "Hall" in
  let Hok := fresh "Hok" in
  let Hex := fresh "Hex" in
  let it := fresh "it" in
  let r := fresh "r" in
  let Hin := fresh "Hin" in
  let Hr := fresh "Hr" in
  let Hbad := fresh "Hbad" in
  destruct (output_items_cases items)
    as [[Hall Hok] | [Hex (it & r & Hin & Hr & Hbad)]];
  [ left; split; [done |]; eapply Hnot; [reflexivity |];
    let Hitems := fresh "Hitems" in
    intros ? Hitems; rewrite Hout in Hitems; injection Hitems as <-;
    right; right; exact Hok
  | right; split; [done |]; eexists _, items, it, r;
    repeat split; try done; intros ?; congruence ].

Lemma assemble_step_cases (o : pyval) :
  (Forall (λ v, is_str v = true) (assemble_step [] o) ∧ ¬ Spec.unguarded_fragment o)
  ∨ (Exists (λ v, is_str v = false) (assemble_step [] o) ∧ Spec.unguarded_fragment o).
Proof.
  assert (Hnot : ∀ d, o = PDict d →
            (∀ items, dict_get d (lit "output") = Some (PList items) →
               (∃ s, dict_get d (lit "response") = Some (PStr s))
               ∨ (∃ s, dict_get d (lit "text") = Some (PStr s))
               ∨ ∀ it r, PDict it ∈ items → dict_get it (lit "response") = Some r →
                         is_str r = true) →
            ¬ Spec.unguarded_fragment o).
  { intros d -> Hd (d' & items & it & r & [= <-] & Hresp & Htext & Hout & Hin & Hr & Hbad).
    destruct (Hd items Hout) as [[s Hs] | [[s Hs] | Hok]].
    - by apply (Hresp s).
    - by apply (Htext s).
    - rewrite (Hok it r Hin Hr) in Hbad. done. }
  destruct o as [| | | | | | d];
    try (left; split; [constructor |];
         by intros (d' & items & it & r & Ho & _)).
  unfold assemble_step.
  destruct (dict_get d (lit "response")) as [[| | | | s | |] |] eqn:Hresp;
    try solve [good_step Hnot];
    (destruct (dict_get d (lit "text")) as [[| | | | s | |] |] eqn:Htext;
     try solve [good_step Hnot];
     (destruct (dict_get d (lit "output")) as [[| | | | s | items |] |] eqn:Hout;
      try solve [good_step Hnot];
      try solve [list_step Hnot items Hout];
      left; (split; [| apply (Hnot d eq_refl); intros; congruence]);
      repeat case_match; by repeat constructor)).
Qed.

(** X16. [_assemble_responses_from_objs] raises exactly through its one
    unchecked append: it raises [TypeError] when some object reaches the
    ["output"] list branch with an item that is a dict whose ["response"]
    is not a string, and returns a text on every other list of objects. *)
Theorem assemble_raises_iff (objs : list pyval) :
  (Exists Spec.unguarded_fragment objs →
   _assemble_responses_from_objs objs = Raise TypeError)
  ∧ (¬ Exists Spec.unguarded_fragment objs →
     ∃ text, _assemble_responses_from_objs objs = Ok text).
Proof.
  unfold _assemble_responses_from_objs. rewrite foldl_assemble_step. cbn [app].
  split.
  - intros Hbad.
    rewrite join_parts_Exists; [done |].
    induction Hbad as [o objs Ho | o objs _ IH]; cbn [map concat];
      apply Exists_app.
    + left. destruct (assemble_step_cases o) as [[_ Hno] | [Hex _]]; done.
    + by right.
  - intros Hgood.
    destruct (join_parts_Forall (concat (map (assemble_step []) objs))) as [text ->];
      [| by eexists].
    induction objs as [| o objs IH]; cbn [map concat]; [constructor |].
    apply Forall_app. split.
    + destruct (assemble_step_cases o) as [[Hall _] | [_ Hbad]]; [done |].
      destruct Hgood. by apply Exists_cons_hd.
    + apply IH. intros Hex. apply Hgood. by apply Exists_cons_tl.
Qed.

End Assemble.

(** Witness for X15: the fragments "A " and "B". *)
Lemma assemble_response_fragments_witness :
  Forall2 (λ o r, ∃ d, o = PDict d ∧ dict_get d (lit "response") = Some (PStr r))
          [PDict [(lit "response", PStr (lit "A ")); (lit "done", PBool false)];
           PDict [(lit "response", PStr (lit "B")); (lit "done", PBool true)]]
          [lit "A "; lit "B"]
  ∧ OllamaClient._assemble_responses_from_objs
      [PDict [(lit "response", PStr (lit "A ")); (lit "done", PBool false)];
       PDict [(lit "response", PStr (lit "B")); (lit "done", PBool true)]]
    = Ok (strip (concat [lit "A "; lit "B"])).
Proof.
  assert (Hobjs :
    Forall2 (λ o r, ∃ d, o = PDict d ∧ dict_get d (lit "response") = Some (PStr r))
            [PDict [(lit "response", PStr (lit "A ")); (lit "done", PBool false)];
             PDict [(lit "response", PStr (lit "B")); (lit "done", PBool true)]]
            [lit "A "; lit "B"]).
  { repeat apply Forall2_cons_2; [| | apply Forall2_nil_2];
      (eexists; split; [reflexivity | reflexivity]). }
  split; [exact Hobjs |].
  exact (assemble_response_fragments _ _ Hobjs).
Defined.

(** Witness for X16: an ["output"] list whose item carries the number 1 as
    its ["response"]. *)
Lemma assemble_raises_iff_witness :
  Exists Spec.unguarded_fragment
    [PDict [(lit "output", PList [PDict [(lit "response", PInt 1)]])]]
  ∧ OllamaClient._assemble_responses_from_objs
      [PDict [(lit "output", PList [PDict [(lit "response", PInt 1)]])]]
    = Raise TypeError.
Proof.
  assert (Hbad : Exists Spec.unguarded_fragment
            [PDict [(lit "output", PList [PDict [(lit "response", PInt 1)]])]]).
  { apply Exists_cons_hd.
    exists [(lit "output", PList [PDict [(lit "response", PInt 1)]])],
           [PDict [(lit "response", PInt 1)]], [(lit "response", PInt 1)], (PInt 1).
    split; [reflexivity |]. split; [by intros s |]. split; [by intros s |].
    split; [reflexivity |]. split; [apply list_elem_of_here |].
    split; reflexivity. }
  split; [exact Hbad |].
  exact (proj1 (assemble_raises_iff _) Hbad).
Defined.

(** ** Plain-text response bodies *)

Section PlainText.
Import Json OllamaClient.
Variable parse_float : pystr → spec_float.
Variables py_str json_dumps : pyval → pystr.

Lemma drop_skip_ws (s : pystr) :
  drop (length s - length (skip_ws s)) s = skip_ws s.
Proof.
  induction s as [| c s IH]; [done |]. cbn [skip_ws].
  destruct (is_ws c).
  - pose proof (skip_ws_length s).
    replace (length (c :: s) - length (skip_ws s))%nat
      with (S (length s - length (skip_ws s))) by (cbn [length]; lia).
    exact IH.
  - by rewrite Nat.sub_diag.
Qed.

Lemma find_char_absent (ch : N) (l : pystr) : ch ∉ l → find_char ch l = None.
Proof.
  induction l as [| c l IH]; [done |]. intros [Hne Hl]%not_elem_of_cons.
  cbn [find_char]. destruct (N.eqb_spec c ch) as [-> |]; [done |].
  by rewrite IH.
Qed.

Lemma find_absent (s : pystr) (ch : N) (pos : nat) : ch ∉ s → find s ch pos = None.
Proof.
  intros Hs. unfold find. rewrite find_char_absent; [done |].
  intros Hin. apply Hs. by eapply subseteq_drop.
Qed.

Lemma scan_once_plain (fuel : nat) (c : N) (l : pystr) :
  Spec.starts_value c = false →
  scan_once parse_float (S fuel) (c :: l) = Raise JSONDecodeError.
Proof.
  unfold Spec.starts_value. intros [Hc Hdigit]%orb_false_iff.
  apply bool_decide_eq_false in Hc.
  assert (Hne : ∀ x, x ∈ [34; 123; 91; 45; 110; 116; 102; 78; 73]%N → (c =? x)%N = false).
  { intros x Hx. apply N.eqb_neq. intros ->. done. }
  cbn [scan_once].
  rewrite (Hne 34%N), (Hne 123%N), (Hne 91%N) by set_solver.
  unfold lit. cbn [starts_with]. 
  change (N_of_ascii "n") with 110%N. change (N_of_ascii "t") with 116%N.
  change (N_of_ascii "f") with 102%N.
  rewrite (N.eqb_sym 110), (N.eqb_sym 116), (N.eqb_sym 102).
  rewrite (Hne 110%N), (Hne 116%N), (Hne 102%N) by set_solver.
  cbn [andb]. unfold match_integer.
  rewrite (Hne 45%N) by set_solver. rewrite Hdigit.
  assert (Hzero : (c =? 48)%N = false).
  { apply N.eqb_neq. intros ->. done. }
  rewrite Hzero.
  change (N_of_ascii "N") with 78%N. change (N_of_ascii "I") with 73%N.
  change (N_of_ascii "-") with 45%N.
  rewrite (N.eqb_sym 78), (N.eqb_sym 73), (N.eqb_sym 45).
  by rewrite (Hne 78%N), (Hne 73%N), (Hne 45%N) by set_solver.
Qed.

Lemma loads_plain (raw_text : pystr) :
  Spec.plain_text raw_text → loads parse_float raw_text = Raise JSONDecodeError.
Proof.
  unfold Spec.plain_text, loads, raw_decode. intros Hplain.
  destruct (starts_with _ raw_text); [done |].
  rewrite drop_skip_ws. unfold fuel_for.
  replace (3 * length raw_text + 3)%nat with (S (3 * length raw_text + 2)) by lia.
  destruct (skip_ws raw_text) as [| c l]; [done |].
  by rewrite scan_once_plain.
Qed.

(** X17. A plain-text body comes back as it is: when the body is blank or
    begins with a character that cannot begin a JSON value, and holds no
    opening brace, [generate_with_ollama] returns the body unchanged, white
    space included. *)
Theorem response_text_plain (raw_text : pystr) :
  Spec.plain_text raw_text →
  123%N ∉ raw_text →
  response_text parse_float py_str json_dumps raw_text = Ok raw_text.
Proof.
  intros Hplain Hbrace. unfold response_text.
  rewrite loads_plain by done.
  unfold _extract_json_objects_from_text. cbn [extract_loop].
  by rewrite find_absent.
Qed.

End PlainText.

(** Witness for X17: a sentence with white space around it. *)
Lemma response_text_plain_witness :
  Spec.plain_text (lit " Summary: done. ")
  ∧ (123%N ∉ lit " Summary: done. ")
  ∧ OllamaClient.response_text (λ _, S754_nan) (λ _, []) (λ _, [])
      (lit " Summary: done. ") = Ok (lit " Summary: done. ").
Proof.
  assert (Hplain : Spec.plain_text (lit " Summary: done. ")) by reflexivity.
  assert (Hbrace : 123%N ∉ lit " Summary: done. ")
    by (apply (bool_decide_unpack _); vm_compute; exact I).
  split; [exact Hplain |]. split; [exact Hbrace |].
  exact (response_text_plain _ _ _ _ Hplain Hbrace).
Defined.

(** ** The PDF export *)

Lemma split_on_join (sep : N) (s : pystr) : ∀ cur,
  join [sep] (split_on sep cur s) = cur ++ s.
Proof.
  induction s as [| ch s IH]; intros cur; cbn [split_on].
  - by rewrite app_nil_r.
  - destruct (N.eqb_spec ch sep) as [-> | Hne].
    + cbn [join]. specialize (IH []).
      destruct (split_on sep [] s) as [| p ps] eqn:Hs.
      * by destruct s; simplify_eq/=; repeat case_match.
      * rewrite IH. done.
    + rewrite IH. by rewrite <- app_assoc.
Qed.

Lemma slice_prefix {A} (l : list A) (n : nat) : slice l 0 (Z.of_nat n) = take n l.
Proof.
  pose proof (slice_window l 0 n) as Hs.
  change (Z.of_nat 0 + Z.of_nat n) with (Z.of_nat n) in Hs.
  change (Z.of_nat 0) with 0 in Hs. by rewrite Hs, drop_0.
Qed.

Lemma slice_suffix {A} (l : list A) (n : nat) :
  slice l (Z.of_nat n) (Z.of_nat (length l)) = drop n l.
Proof. apply slice_from_nat. Qed.

Section Wrap.
Import StreamlitApp.

Lemma wrap_loop_spec (fuel : nat) : ∀ (line : pystr) (out : list pystr),
  (length line < fuel)%nat →
  ∃ (pieces : list pystr) (rest : pystr),
    wrap_loop fuel line out = Some (out ++ pieces, rest)
    ∧ concat pieces ++ rest = line
    ∧ Forall (λ p, length p = 90%nat) pieces
    ∧ (length rest <= 90)%nat
    ∧ (line ≠ [] → rest ≠ []).
Proof.
  induction fuel as [| fuel IH]; intros line out Hfuel; [lia |].
  cbn [wrap_loop]. destruct (Z.ltb_spec 90 (Z.of_nat (length line))) as [Hlong | Hshort].
  - change 90 with (Z.of_nat 90) at 1 2. rewrite slice_suffix, slice_prefix.
    destruct (IH (drop 90 line) (out ++ [take 90 line]))
      as (pieces & rest & Hrun & Hcat & Hlen & Hrest & Hne);
      [rewrite length_drop; lia |].
    exists (take 90 line :: pieces), rest.
    split; [by rewrite Hrun, <- app_assoc |].
    split; [cbn [concat]; by rewrite <- app_assoc, Hcat, take_drop |].
    split; [constructor; [rewrite length_take; lia | done] |].
    split; [done |]. intros _. apply Hne.
    intros Hnil. apply (f_equal length) in Hnil. rewrite length_drop in Hnil.
    simpl in Hnil. lia.
  - exists [], line. rewrite app_nil_r. repeat split; try done. lia.
Qed.

Lemma text_lines_spec (line : pystr) :
  ∃ (lines : list pystr),
    text_lines line = Some lines
    ∧ concat lines = line
    ∧ Forall (λ p, (length p <= 90)%nat) lines
    ∧ (∀ (j : nat) (p : pystr),
         lines !! j = Some p → (S j < length lines)%nat → length p = 90%nat)
    ∧ (line ≠ [] → Forall (λ p, p ≠ []) lines).
Proof.
  destruct (wrap_loop_spec (S (length line)) line [])
    as (pieces & rest & Hrun & Hcat & Hlen & Hrest & Hne); [lia |].
  exists (pieces ++ [rest]). unfold text_lines. rewrite Hrun. cbn.
  split; [done |].
  split; [by rewrite concat_app; cbn [concat]; rewrite app_nil_r |].
  split; [| split].
  - apply Forall_app. split; [| constructor; [done | constructor]].
    eapply Forall_impl; [exact Hlen |]. intros p ->. done.
  - intros j p Hj Hlast. rewrite length_app in Hlast. cbn [length] in Hlast.
    rewrite lookup_app_l in Hj by lia.
    rewrite Forall_forall in Hlen. apply Hlen. by eapply list_elem_of_lookup_2.
  - intros Hline. apply Forall_app. split.
    + eapply Forall_impl; [exact Hlen |]. intros p Hp ->. done.
    + constructor; [by apply Hne | constructor].
Qed.

(** X18. The PDF export loses nothing of the summary: every line of the
    summary is written as pieces of at most 90 characters, all but the
    last of exactly 90, and the pieces of each line, put together again and
    joined by newlines, are the summary. *)
Theorem summary_lines_complete (summary : pystr) :
  ∃ groups : list (list pystr),
    summary_lines summary = Some groups
    ∧ join [10%N] (map (λ g, concat g) groups) = summary
    ∧ Forall (Forall (λ p, (length p <= 90)%nat)) groups
    ∧ Forall (λ g, ∀ (j : nat) (p : pystr),
                g !! j = Some p → (S j < length g)%nat → length p = 90%nat) groups.
Proof.
  unfold summary_lines.
  pose proof (split_on_join 10%N summary []) as Hjoin. cbn [app] in Hjoin.
  assert (Hgroups : ∀ lines : list pystr,
    ∃ groups : list (list pystr),
      mapM text_lines lines = Some groups
      ∧ map (λ g, concat g) groups = lines
      ∧ Forall (Forall (λ p, (length p <= 90)%nat)) groups
      ∧ Forall (λ g, ∀ (j : nat) (p : pystr),
                  g !! j = Some p → (S j < length g)%nat → length p = 90%nat)
               groups).
  { induction lines as [| line lines (groups & Hrun & Hcat & Hlen & Hfull)].
    - by exists [].
    - destruct (text_lines_spec line) as (g & Hg & Hgcat & Hglen & Hgfull & _).
      exists (g :: groups). split; [| split; [| split]].
      + apply mapM_Some. constructor; [done |]. by apply mapM_Some.
      + cbn [map]. by rewrite Hgcat, Hcat.
      + by constructor.
      + by constructor. }
  destruct (Hgroups (split_on 10 [] summary)) as (groups & Hrun & Hcat & Hlen & Hfull).
  exists groups. by rewrite Hcat.
Qed.

End Wrap.

Section Sources.
Import StreamlitApp.
Variable fmt : pyval → pystr.

Lemma source_height_bounds (j : nat) : 120 ≤ Spec.source_height j ≤ 740.
Proof.
  unfold Spec.source_height. destruct (Nat.ltb_spec j 43); [lia |].
  pose proof (Z.mod_pos_bound (Z.of_nat (j - 43)) 45). lia.
Qed.

(** [y] when the loop reaches source [j]. *)
Lemma source_height_step (j : nat) :
  let y := match j with O => 720 | S j' => Spec.source_height j' - 14 end in
  (y <? 120) = Spec.page_start j
  ∧ (if y <? 120 then 740 else y) = Spec.source_height j.
Proof.
  cbn zeta. unfold Spec.page_start, Spec.source_height.
  destruct j as [| j]; [done |].
  destruct (Nat.ltb_spec j 43) as [Hj | Hj].
  - destruct (Nat.ltb_spec (S j) 43) as [Hj' | Hj'].
    + destruct (Nat.leb_spec 43 (S j)); [lia |]. cbn [andb].
      destruct (Z.ltb_spec (720 - 14 * Z.of_nat j - 14) 120); lia.
    + assert (j = 42%nat) as -> by lia. done.
  - destruct (Nat.ltb_spec (S j) 43) as [Hj' | Hj']; [lia |].
    destruct (Nat.leb_spec 43 (S j)); [| lia]. cbn [andb].
    replace (S j - 43)%nat with (S (j - 43)) by lia.
    set (m := (j - 43)%nat).
    pose proof (Nat.mod_upper_bound m 45 ltac:(lia)) as Hm.
    pose proof (Nat.div_mod_eq m 45) as Hdm.
    pose proof (Nat.mod_upper_bound (S m) 45 ltac:(lia)) as Hm'.
    pose proof (Nat.div_mod_eq (S m) 45) as Hdm'.
    rewrite <- !(Nat2Z.inj_mod _ 45) by lia. change (Z.to_nat 45) with 45%nat.
    assert (Hnext : (m mod 45 = 44 ∧ S m mod 45 = 0)%nat
                    ∨ (m mod 45 < 44 ∧ S m mod 45 = S (m mod 45))%nat).
    { destruct (decide (m mod 45 = 44)%nat) as [H44 | H44];
        [left | right]; (split; [lia |]).
      - assert (S m = 45 * S (m / 45))%nat as -> by lia.
        by rewrite Nat.mul_comm, Nat.Div0.mod_mul.
      - symmetry. apply (Nat.mod_unique _ _ (m / 45)); lia. }
    destruct Hnext as [[H1 H2] | [H1 H2]]; rewrite H2.
    + rewrite H1. done.
    + destruct (Nat.eqb_spec (S (m mod 45)) 0); [lia |].
      destruct (Z.ltb_spec (740 - 14 * Z.of_nat (m mod 45) - 14) 120); lia.
Qed.

Lemma sources_loop_layout (sources : list pyval) :
  ∀ (lines : list pystr) (j : nat) (ops : list canvas_op),
  Forall2 (λ s line, source_line fmt s = Ok line) sources lines →
  sources_loop fmt sources
    (match j with O => 720 | S j' => Spec.source_height j' - 14 end) ops
  = Ok (ops ++ concat (imap (λ i line, Spec.source_ops (j + i) line) lines),
        match (j + length lines)%nat with
        | O => 720
        | S j' => Spec.source_height j' - 14
        end).
Proof.
  induction sources as [| s sources IH]; intros lines j ops Hlines.
  - apply Forall2_nil_inv_l in Hlines as ->. cbn. by rewrite app_nil_r, Nat.add_0_r.
  - apply Forall2_cons_inv_l in Hlines as (line & lines' & Hline & Hlines & ->).
    cbn [sources_loop]. rewrite Hline. cbn [mbind result_bind bind].
    destruct (source_height_step j) as [Hbreak Hheight].
    set (y := match j with O => 720 | S j' => Spec.source_height j' - 14 end) in *.
    assert (Hstep :
      (if y <? 120 then (ops ++ [showPage; setFont (lit "Helvetica") 10], 740)
       else (ops, y))
      = (ops ++ (if Spec.page_start j
                 then [showPage; setFont (lit "Helvetica") 10] else []),
         Spec.source_height j)).
    { rewrite <- Hheight, <- Hbreak. destruct (y <? 120); [done |].
      by rewrite app_nil_r. }
    rewrite Hstep.
    specialize (IH lines' (S j)
                  ((ops ++ (if Spec.page_start j
                            then [showPage; setFont (lit "Helvetica") 10] else []))
                   ++ [drawString 72 (Spec.source_height j) (slice line 0 240)])
                  Hlines).
    cbn match in IH. rewrite IH. cbn [imap concat length].
    rewrite Nat.add_0_r. unfold Spec.source_ops at 2.
    rewrite <- !app_assoc.
    replace (j + S (length lines'))%nat with (S j + length lines')%nat by lia.
    do 5 f_equal. f_equal. apply imap_ext. intros i l _. cbn. f_equal. lia.
Qed.

(** X19. The sources page of the PDF: for sources that are dicts, the
    loop draws one line per source, in order, cut at 240 characters; the
    first page holds 43 lines from height 720 down, every later page 45
    lines from height 740 down, with a page break before each of them; no
    line is drawn below height 120. *)
Theorem sources_page_layout (sources : list pyval) (lines : list pystr) :
  Forall2 (λ s line, source_line fmt s = Ok line) sources lines →
  ∃ (ops : list canvas_op) (y : Z),
    sources_loop fmt sources 720 [] = Ok (ops, y)
    ∧ ops = concat (imap Spec.source_ops lines)
    ∧ ∀ (j : nat) (line : pystr), lines !! j = Some line →
        drawString 72 (Spec.source_height j) (slice line 0 240) ∈ ops
        ∧ 120 ≤ Spec.source_height j ≤ 740
        ∧ (length (slice line 0 240) <= 240)%nat.
Proof.
  intros Hlines.
  pose proof (sources_loop_layout sources lines 0 [] Hlines) as Hrun.
  cbn [app Nat.add] in Hrun.
  eexists _, _. split; [exact Hrun |]. split; [done |].
  intros j line Hj. split; [| split].
  - apply list_elem_of_In, in_concat. exists (Spec.source_ops j line). split.
    + apply list_elem_of_In, list_elem_of_lookup. exists j.
      by rewrite list_lookup_imap, Hj.
    + apply list_elem_of_In. unfold Spec.source_ops. set_solver.
  - apply source_height_bounds.
  - change 240 with (Z.of_nat 240). rewrite slice_prefix, length_take. lia.
Qed.

End Sources.

(** Witness for X19: one citation entry. *)
Lemma sources_page_layout_witness :
  Forall2 (λ s line, StreamlitApp.source_line (λ _, []) s = Ok line)
          [Examples.one_source] [lit "[] " ++ Rag.dash]
  ∧ ∃ (ops : list StreamlitApp.canvas_op) (y : Z),
      StreamlitApp.sources_loop (λ _, []) [Examples.one_source] 720 [] = Ok (ops, y)
      ∧ ops = concat (imap Spec.source_ops [lit "[] " ++ Rag.dash]).
Proof.
  assert (Hlines : Forall2 (λ s line, StreamlitApp.source_line (λ _, []) s = Ok line)
                           [Examples.one_source] [lit "[] " ++ Rag.dash]).
  { apply Forall2_cons_2; [reflexivity | apply Forall2_nil_2]. }
  split; [exact Hlines |].
  destruct (sources_page_layout (λ _, []) [Examples.one_source]
              [lit "[] " ++ Rag.dash] Hlines) as (ops & y & Hrun & Hops & _).
  exists ops, y. split; [exact Hrun | exact Hops].
Defined.

(** ** The end-to-end call *)

Section Passages.
Import Store Rag.
Variable files : fs.

(** Enrichment gives every result of an index built by [collect_docs] a
    string passage. *)
Lemma prepare_passages (h : heap) (raw_results : list loc) :
  Spec.records_of_strings files →
  Forall (Spec.index_result h) raw_results →
  ∃ (enriched : list loc) (h' : heap),
    prepare_retrieved_with_texts files h raw_results = Ok (enriched, h')
    ∧ h ⊆ h'
    ∧ length enriched = length raw_results
    ∧ Forall (λ l, ∃ text, Spec.has_passage h' l text) enriched.
Proof.
  intros Hstr Hall.
  assert (Hres : Forall (Spec.retrieval_result h) raw_results).
  { eapply Forall_impl; [exact Hall |].
    intros l (it & md & Hl & Hmd & Hhash & _). by exists it, md. }
  destruct (enrich_loop_spec files raw_results h h []
              (records_of_strings_typed files Hstr))
    as (news & h' & Hrun & Hsub & Hrel); [done | done |].
  exists news, h'. split; [exact Hrun |]. split; [done |].
  split; [symmetry; by eapply Forall2_length |].
  clear Hrun Hres.
  induction Hrel as [| l li raw news Hli _ IH]; [constructor |].
  apply Forall_cons in Hall as [(it0 & md0 & Hl0 & Hmd0 & _ & Hnotext) Hall].
  constructor; [| by apply IH].
  destruct Hli as (it & md & it' & md' & found & Hl & Hmd & _ & _ & Hli' & Hmd'
                   & _ & _ & _ & Hfound & Htext).
  assert (md0 = md) as -> by congruence.
  assert (∃ s, dict_get md' (lit "chunk_text") = Some (PStr s)
               ∧ truthy (PStr s) = true) as (s & Hs & Htruthy).
  { destruct (truthy found) eqn:Hf.
    - destruct (lookup_chunk_strings files md found Hstr Hfound) as [-> | [s ->]];
        [done | by exists s].
    - exists placeholder. unfold py_or in Htext.
      unfold Spec.no_stored_text in Hnotext. by rewrite Hnotext in Htext. }
  exists s, it', md'. split; [done |]. split; [done |].
  by apply passage_text_chunk_text.
Qed.

End Passages.

Section Objects.
Import Rag RunRag.

Lemma load_metadatas_spec (entries : list (list (pystr * pyval))) : ∀ h : heap,
  ∃ (ls : list loc) (h1 : heap),
    load_metadatas h entries = (ls, h1)
    ∧ h ⊆ h1
    ∧ Forall2 (λ l d, h1 !! l = Some (ODict d)) ls entries.
Proof.
  induction entries as [| d entries IH]; intros h.
  - by exists [], h.
  - cbn [load_metadatas].
    destruct (alloc h (ODict d)) as [l h0] eqn:Hl.
    apply alloc_spec in Hl as [Hfresh ->].
    destruct (IH (<[l := ODict d]> h)) as (ls & h1 & -> & Hsub & Hall).
    exists (l :: ls), h1. split; [done |]. split.
    + etrans; [| exact Hsub]. by apply insert_subseteq.
    + constructor; [| done]. eapply lookup_weaken; [| exact Hsub].
      apply lookup_insert_eq.
Qed.

Lemma result_loop_spec (P : list (pystr * pyval) → Prop) (metadatas : list loc)
    (D0 : list spec_float) (I0 : list Z) :
  ∀ (h : heap) (rank : nat) (acc : list loc),
  Forall (λ l, ∃ d, h !! l = Some (ODict d) ∧ P d) metadatas →
  Forall (λ idx, - Z.of_nat (length metadatas) ≤ idx < Z.of_nat (length metadatas)) I0 →
  (rank + length I0 <= length D0)%nat →
  ∃ (news : list loc) (h' : heap),
    result_loop h metadatas D0 rank I0 acc = Ok (acc ++ news, h')
    ∧ h ⊆ h'
    ∧ length news = length I0
    ∧ Forall (λ l, ∃ it d, h' !! l = Some (OItem it)
                           ∧ h' !! metadata it = Some (ODict d) ∧ P d) news.
Proof.
  induction I0 as [| idx I0 IH]; intros h rank acc Hmeta Hrange Hlen.
  - exists [], h. rewrite app_nil_r. by repeat split.
  - apply Forall_cons in Hrange as [Hidx Hrange]. cbn [length] in Hlen.
    cbn [result_loop].
    destruct (proj2 (index_is_Some metadatas idx) Hidx) as [meta Hmeta_idx].
    destruct (lookup_lt_is_Some_2 D0 rank) as [sc Hsc]; [lia |].
    rewrite Hmeta_idx, Hsc. cbn [of_option mbind result_bind bind].
    destruct (alloc h _) as [l h0] eqn:Hl.
    apply alloc_spec in Hl as [Hfresh ->].
    assert (Hsub : h ⊆ <[l := OItem (Item (PInt (Z.of_nat rank + 1)) (PFloat sc) meta)]> h)
      by (by apply insert_subseteq).
    destruct (IH (<[l := OItem (Item (PInt (Z.of_nat rank + 1)) (PFloat sc) meta)]> h)
                (S rank) (acc ++ [l])) as (news & h' & Hrun & Hsub' & Hnews & Hall).
    { eapply Forall_impl; [exact Hmeta |]. intros l' (d & Hd & HP).
      exists d. split; [| done]. by eapply lookup_weaken. }
    { done. }
    { lia. }
    exists (l :: news), h'. split; [by rewrite Hrun, <- app_assoc |].
    split; [by etrans |]. split; [cbn [length]; lia |].
    constructor; [| done].
    assert (Hin : meta ∈ metadatas).
    { unfold index in Hmeta_idx. repeat case_match; try done;
        by eapply list_elem_of_lookup_2. }
    rewrite Forall_forall in Hmeta. destruct (Hmeta meta Hin) as (d & Hd & HP).
    eexists _, d. split; [| split; [| done]].
    + eapply lookup_weaken; [| exact Hsub']. apply lookup_insert_eq.
    + cbn [metadata]. eapply lookup_weaken; [| exact Hsub'].
      by eapply lookup_weaken.
Qed.

End Objects.

Section RunFacts.
Import Store Rag OllamaClient RunRag.
Context {vec faiss_index ndarray : Type}.
Variable encode_query : pystr → vec.
Variable search : faiss_index → vec → Z → result (list spec_float * list Z).
Variable fmt : pyval → pystr.
Variable fill : pystr → pystr.
Variable parse_float : pystr → spec_float.
Variable py_str : pyval → pystr.
Variable json_dumps : pyval → pystr.
Variable OLLAMA_URL : pystr.
Variable OLLAMA_MODEL : pystr.
Variable post : list request → request → result pystr.

(** X20. [run_rag] contacts the generation server only after retrieval,
    enrichment and evidence assembly have succeeded: when one of the three
    raises, the call raises that exception and sends nothing. Otherwise it
    posts to the generate endpoint the model [model_name or OLLAMA_MODEL]
    and the prompt that [build_prompt] makes of the query and of the
    evidence text that [build_evidence_block] returned for the enriched
    results; only when that attempt raises [TypeError] does it post the
    very same request a second time; the outcome of the last attempt is the
    outcome of the call, its text both the summary and the raw output,
    beside the citation entries and the enriched results. Against a server
    that answers the repeated request as it answered the first one, the
    second attempt raises [TypeError] again. *)
Theorem run_rag_requests (st : index_store faiss_index ndarray) (files : fs)
    (h : heap) (sent : list request) (query : pystr) (top_k : Z)
    (model_name max_tokens : pyval) :
  let run :=
    run_rag encode_query search fmt fill parse_float py_str json_dumps
      OLLAMA_URL OLLAMA_MODEL post st files h sent query top_k model_name
      max_tokens in
  let stages :=
    '(raw, h1) ← query_index encode_query search st h query top_k;
    '(enriched, h2) ← prepare_retrieved_with_texts files h1 raw;
    '(evidence_text, mapping) ← build_evidence_block fmt fill h2 enriched;
    Ok (evidence_text, mapping, enriched) in
  match stages with
  | Raise e => run.1.2 = sent ∧ run.2 = Raise e
  | Ok (evidence_text, mapping, enriched) =>
      let req :=
        Request (GENERATE_ENDPOINT OLLAMA_URL)
          (PDict [(lit "model", py_or model_name (PStr OLLAMA_MODEL));
                  (lit "prompt", PStr (build_prompt query evidence_text));
                  (lit "max_tokens", max_tokens)]) in
      let attempt (s : list request) :=
        post s req ≫= response_text parse_float py_str json_dumps in
      let outcome (out : result pystr) :=
        match out with
        | Ok text => run.2 = Ok (RagResult query text text mapping enriched)
        | Raise e => run.2 = Raise e
        end in
      (attempt sent ≠ Raise TypeError
       ∧ run.1.2 = sent ++ [req]
       ∧ outcome (attempt sent))
      ∨ (attempt sent = Raise TypeError
         ∧ run.1.2 = sent ++ [req; req]
         ∧ outcome (attempt (sent ++ [req]))
         ∧ (post (sent ++ [req]) req = post sent req → run.2 = Raise TypeError))
  end.
Proof.
  cbn zeta. unfold run_rag.
  destruct (query_index _ _ _ _ _ _) as [[raw h1] | e]; [| done].
  cbn [mbind result_bind bind].
  destruct (prepare_retrieved_with_texts files h1 raw) as [[enriched h2] | e];
    [| done].
  cbn [mbind result_bind bind].
  destruct (build_evidence_block fmt fill h2 enriched) as [[evidence_text mapping] | e];
    [| done].
  cbn [mbind result_bind bind].
  unfold generate_with_ollama. cbn [fst snd].
  change (λ raw_text : pystr, response_text parse_float py_str json_dumps raw_text)
    with (response_text parse_float py_str json_dumps).
  set (req := Request _ _).
  set (attempt := λ s : list request,
         post s req ≫= response_text parse_float py_str json_dumps).
  change (post sent req ≫= response_text parse_float py_str json_dumps)
    with (attempt sent).
  change (post (sent ++ [req]) req ≫= response_text parse_float py_str json_dumps)
    with (attempt (sent ++ [req])).
  assert (Hout : ∀ out : result pystr,
            match out with
            | Ok text =>
                (out ≫= λ text, Ok (RagResult query text text mapping enriched))
                = Ok (RagResult query text text mapping enriched)
            | Raise e =>
                (out ≫= λ text, Ok (RagResult query text text mapping enriched))
                = Raise e
            end).
  { by intros [text | e]. }
  destruct (attempt sent) as [text | e] eqn:Hfirst.
  - left. cbv beta iota zeta. cbn [fst snd].
    split; [done |]. split; [done |]. apply (Hout (Ok text)).
  - destruct e;
      try (left; cbv beta iota zeta; cbn [fst snd];
           split; [done |]; split; [done |]; by apply (Hout (Raise _))).
    right. cbv beta iota zeta. cbn [fst snd].
    split; [done |]. split; [by rewrite <- app_assoc |].
    split; [apply Hout |].
    intros Hsame. unfold attempt in *. by rewrite Hsame, Hfirst.
Qed.

(** X21. End to end: over an index whose entries are as [collect_docs]
    builds them, labels within the index, records whose chunks are
    strings, and a server whose answer parses to a text, [run_rag] sends
    one request to the generate endpoint and returns that text as summary
    and raw output, with one enriched result and one citation entry per
    label, numbered from 1, and leaves every object that existed before the
    call unchanged. *)
Theorem run_rag_end_to_end (index : faiss_index)
    (entries : list (list (pystr * pyval))) (embs : ndarray) (files : fs) (h : heap)
    (sent : list request) (query : pystr) (top_k : Z) (model_name max_tokens : pyval)
    (D0 : list spec_float) (I0 : list Z) (body text : pystr) :
  search index (encode_query query) top_k = Ok (D0, I0) →
  length D0 = length I0 →
  Forall (λ idx, - Z.of_nat (length entries) ≤ idx < Z.of_nat (length entries)) I0 →
  Forall (λ d, hashable (md_get d (lit "doc_id")) = true ∧ Spec.no_stored_text d)
         entries →
  Spec.records_of_strings files →
  (∀ req, post sent req = Ok body) →
  response_text parse_float py_str json_dumps body = Ok text →
  ∃ (h' : heap) (req : request) (res : rag_result),
    run_rag encode_query search fmt fill parse_float py_str json_dumps
      OLLAMA_URL OLLAMA_MODEL post (Some (index, entries, embs)) files h sent
      query top_k model_name max_tokens
    = (h', sent ++ [req], Ok res)
    ∧ req_url req = GENERATE_ENDPOINT OLLAMA_URL
    ∧ RunRag.query res = query
    ∧ summary_text res = text
    ∧ raw_ollama res = text
    ∧ length (retrieved res) = length I0
    ∧ length (sources res) = length I0
    ∧ (∀ (j : nat) (m : pyval), sources res !! j = Some m →
         get m (lit "idx") PNone = Ok (PInt (Z.of_nat j + 1)))
    ∧ (∀ (l : loc) (o : obj), h !! l = Some o → h' !! l = Some o).
Proof.
  intros Hsearch HlenD Hrange Hentries Hstr Hpost Htext.
  unfold run_rag, query_index. cbn [of_option mbind result_bind bind].
  destruct (load_metadatas_spec entries h) as (metadatas & h1 & -> & Hsub1 & Hloaded).
  rewrite Hsearch. cbn [mbind result_bind bind].
  destruct (result_loop_spec
              (λ d, hashable (md_get d (lit "doc_id")) = true ∧ Spec.no_stored_text d)
              metadatas D0 I0 h1 0%nat [])
    as (raw & h2 & -> & Hsub2 & Hraw & Hresults).
  { clear -Hloaded Hentries.
    induction Hloaded as [| l d ls ds Hl _ IH]; [constructor |].
    apply Forall_cons in Hentries as [Hd Hentries].
    constructor; [by exists d | by apply IH]. }
  { by rewrite (Forall2_length _ _ _ Hloaded). }
  { lia. }
  cbn [app].
  destruct (prepare_passages files h2 raw Hstr) as (enriched & h3 & -> & Hsub3 & Hlen & Hpass).
  { eapply Forall_impl; [exact Hresults |].
    intros l (it & d & Hl & Hd & Hhash & Hnotext). by exists it, d. }
  destruct (evidence_loop_numbered fmt fill h3 enriched 1 [] [] Hpass)
    as (lines & mapping & Hev & _ & Hmapping & Hpos).
  unfold build_evidence_block. rewrite Hev. cbn [app mbind result_bind bind].
  unfold generate_with_ollama. rewrite Hpost. cbn [mbind result_bind bind].
  rewrite Htext. cbn [mbind result_bind bind].
  eexists _, _, _. split; [reflexivity |].
  cbn [req_url RunRag.query summary_text raw_ollama retrieved sources].
  repeat split; try done; try lia.
  - intros j m Hj.
    destruct (lookup_lt_is_Some_2 enriched j) as [l Hl].
    { apply lookup_lt_Some in Hj. lia. }
    rewrite Forall_forall in Hpass.
    destruct (Hpass l (list_elem_of_lookup_2 _ _ _ Hl)) as [t Ht].
    destruct (Hpos j l t Hl Ht) as (_ & _ & _ & m' & Hm' & Hidx).
    assert (m' = m) as -> by congruence.
    rewrite Hidx. do 2 f_equal. lia.
  - intros l o Hl. eapply lookup_weaken; [| exact Hsub3].
    eapply lookup_weaken; [| exact Hsub2]. by eapply lookup_weaken.
Qed.

End RunFacts.

(** Witness for X21: two entries, the two sample files and a server that
    answers with one JSON object. *)
Lemma run_rag_end_to_end_witness :
  Forall (λ idx, - Z.of_nat (length Examples.a_entries) ≤ idx
                 < Z.of_nat (length Examples.a_entries)) [1; 0]
  ∧ Forall (λ d, hashable (Rag.md_get d (lit "doc_id")) = true
                 ∧ Spec.no_stored_text d) Examples.a_entries
  ∧ Spec.records_of_strings Examples.two_files
  ∧ OllamaClient.response_text (λ _, S754_nan) (λ _, []) (λ _, [])
      Examples.hello_body = Ok (lit "hello")
  ∧ ∃ (h' : Rag.heap) (req : OllamaClient.request) (res : RunRag.rag_result),
      RunRag.run_rag (λ _, tt) Examples.search_two (λ _, []) id (λ _, S754_nan)
        (λ _, []) (λ _, []) (lit "http://localhost:11434") (lit "llama3:latest")
        (λ _ _, Ok Examples.hello_body) (Some (tt, Examples.a_entries, tt))
        Examples.two_files ∅ [] (lit "q") 2 PNone (PInt 512)
      = (h', [req], Ok res)
      ∧ RunRag.summary_text res = lit "hello"
      ∧ length (RunRag.sources res) = 2%nat.
Proof.
  assert (Hrange : Forall (λ idx, - Z.of_nat (length Examples.a_entries) ≤ idx
                                  < Z.of_nat (length Examples.a_entries)) [1; 0]).
  { repeat apply Forall_cons_2; [| | apply Forall_nil_2]; simpl; lia. }
  assert (Hentries : Forall (λ d, hashable (Rag.md_get d (lit "doc_id")) = true
                                  ∧ Spec.no_stored_text d) Examples.a_entries).
  { repeat apply Forall_cons_2; [| | apply Forall_nil_2]; split; reflexivity. }
  assert (Hstr : Spec.records_of_strings Examples.two_files)
    by exact (keyed_records_strings _ two_files_keyed).
  assert (Htext : OllamaClient.response_text (λ _, S754_nan) (λ _, []) (λ _, [])
                    Examples.hello_body = Ok (lit "hello"))
    by (vm_compute; reflexivity).
  split; [exact Hrange |]. split; [exact Hentries |]. split; [exact Hstr |].
  split; [exact Htext |].
  destruct (run_rag_end_to_end (λ _, tt) Examples.search_two (λ _, []) id
              (λ _, S754_nan) (λ _, []) (λ _, []) (lit "http://localhost:11434")
              (lit "llama3:latest") (λ _ _, Ok Examples.hello_body)
              tt Examples.a_entries tt Examples.two_files ∅ [] (lit "q") 2 PNone
              (PInt 512) [Examples.f_zero; Examples.f_one] [1; 0]
              Examples.hello_body (lit "hello")
              eq_refl eq_refl Hrange Hentries Hstr (λ _, eq_refl) Htext)
    as (h' & req & res & Hrun & _ & _ & Hsummary & _ & _ & Hsources & _).
  exists h', req, res. split; [exact Hrun |]. split; [exact Hsummary | exact Hsources].
Defined.

(** ** Ingestion over the news API *)

Section Api.
Import Store Ingestion.

Lemma encodable_scalar (s : pystr) :
  encodable s = true ↔ Forall Spec.scalar_value s.
Proof.
  rewrite <- encode_scalar. unfold encodable.
  destruct (Hashlib.encode s); split; first [done | by eauto | by intros [? ?]].
Qed.

Lemma hex_digit_scalar (c : N) : Spec.is_hex_digit c → Spec.scalar_value c.
Proof. unfold Spec.is_hex_digit, Spec.scalar_value. lia. Qed.

Lemma split_ws_Forall (P : N → Prop) (s : pystr) : ∀ cur,
  Forall P cur → Forall P s → Forall (Forall P) (split_ws cur s).
Proof.
  induction s as [| ch s IH]; intros cur Hcur Hs; cbn [split_ws].
  - destruct cur; [constructor | constructor; [done | constructor]].
  - apply Forall_cons in Hs as [Hch Hs]. destruct (isspace ch).
    + destruct cur; [by apply IH |]. constructor; [done | by apply IH].
    + apply IH; [| done]. apply Forall_app. split; [done | by constructor].
Qed.

Lemma join_Forall (P : N → Prop) (sep : pystr) (parts : list pystr) :
  Forall P sep → Forall (Forall P) parts → Forall P (join sep parts).
Proof.
  intros Hsep. induction 1 as [| part parts Hpart Hparts IH]; [constructor |].
  cbn [join]. destruct parts as [| part' parts']; [done |].
  rewrite !Forall_app. by repeat split.
Qed.

(** The chunks of a text hold only characters of the text, and spaces. *)
Lemma chunk_text_default_scalar (text : pystr) (chunks : list pystr) :
  Forall Spec.scalar_value text →
  chunk_text_default (PStr text) = Ok chunks →
  Forall (Forall Spec.scalar_value) chunks.
Proof.
  intros Htext. unfold chunk_text_default.
  destruct (chunk_text_windows text 350 50) as (k & Hrun & _); [lia |].
  change (Z.of_nat 350) with 350 in Hrun. change (Z.of_nat 50) with 50 in Hrun.
  rewrite Hrun by lia. intros [= <-].
  apply Forall_forall. intros c Hc.
  apply list_elem_of_fmap in Hc as (j & -> & _).
  apply join_Forall; [by repeat constructor; left |].
  apply Forall_take, Forall_drop, split_ws_Forall; [constructor | done].
Qed.

Lemma dumpable_strings (chunks : list pystr) :
  Forall (Forall Spec.scalar_value) chunks →
  forallb dumpable (map PStr chunks) = true.
Proof.
  induction 1 as [| c chunks Hc Hchunks IH]; [done |].
  cbn [map forallb dumpable]. rewrite IH, andb_true_r. by apply encodable_scalar.
Qed.

Lemma ingest_complete_article (w : web) (art : pyval) :
  Spec.complete_article w art →
  ∃ (rid : pystr) (rec : pyval),
    ∀ files, ingest_article w files art
             = (dict_set files (record_path rid) (JsonDoc rec), Ok (Some rec)).
Proof.
  intros (d & u & text & -> & Hurl & Hu & Hscalar & Htext & Hne & Htscalar
          & Htitle & Hdate & Hsrc).
  assert (Hut : truthy (PStr u) = true) by (destruct u; [congruence | done]).
  assert (Htt : truthy (PStr text) = true) by (destruct text; [congruence | done]).
  pose proof Hscalar as Hencode.
  apply encode_scalar in Hencode as [bytes Hbytes].
  destruct (chunk_text_default_total text) as [chunks Hchunks].
  pose proof (chunk_text_default_scalar text chunks Htscalar Hchunks) as Hcs.
  assert (Hid : doc_id_from_url (PStr u)
                = Ok (Hashlib.hexdigest (Hashlib.sha1 bytes))).
  { unfold doc_id_from_url. rewrite Hbytes. reflexivity. }
  destruct (doc_id_shape _ _ Hid) as [_ Hhex].
  set (rid := Hashlib.hexdigest (Hashlib.sha1 bytes)) in *.
  assert (Hrid : encodable rid = true).
  { apply encodable_scalar. eapply Forall_impl; [exact Hhex |].
    apply hex_digit_scalar. }
  assert (Hu' : encodable u = true) by (by apply encodable_scalar).
  assert (Hrec : ∀ source, dumpable source = true →
            dumpable
              (PDict [(lit "doc_id", PStr rid);
                      (lit "title",
                       py_or (d_title (extract_full_text w (PStr u)))
                             (from_option id PNone (dict_get d (lit "title"))));
                      (lit "url", PStr u); (lit "source", source);
                      (lit "publishedAt",
                       from_option id PNone (dict_get d (lit "publishedAt")));
                      (lit "chunks", PList (map PStr chunks))]) = true).
  { intros source Hsource. cbn [dumpable forallb fst snd].
    rewrite Hrid, Htitle, Hu', Hsource, Hdate, (dumpable_strings chunks Hcs).
    reflexivity. }
  unfold ingest_article, doc_record_of. cbn [get mbind result_bind bind].
  rewrite Hurl. cbn [from_option id]. rewrite Hut. cbn [negb].
  rewrite Hid. cbn [mbind result_bind bind].
  rewrite Htext, Htt. cbn [negb].
  rewrite Hchunks. cbn [mbind result_bind bind].
  destruct Hsrc as [-> | (src & -> & Hname)];
    cbn [from_option id get mbind result_bind bind]; unfold write_json.
  - rewrite Hrec by reflexivity. eexists _, _. intros files. reflexivity.
  - rewrite Hrec by exact Hname. eexists _, _. intros files. reflexivity.
Qed.

Lemma ingest_loop_complete (w : web) (articles : list pyval) :
  ∀ (files : fs) (acc : list pyval),
  Forall (Spec.complete_article w) articles →
  ∃ (files' : fs) (recs : list pyval),
    ingest_loop w files articles acc = (files', Ok (acc ++ recs))
    ∧ length recs = length articles.
Proof.
  induction articles as [| art articles IH]; intros files acc Hall.
  - exists files, []. by rewrite app_nil_r.
  - apply Forall_cons in Hall as [Hart Hall].
    destruct (ingest_complete_article w art Hart) as (rid & rec & Hrun).
    destruct (IH (dict_set files (record_path rid) (JsonDoc rec)) (acc ++ [rec]) Hall)
      as (files' & recs & Hloop & Hlen).
    exists files', (rec :: recs). cbn [ingest_loop]. rewrite Hrun, Hloop.
    split; [by rewrite <- app_assoc |]. cbn [length]. lia.
Qed.

(** X22. Over the news API, [ingest_query] ingests every complete article
    of the answer: with an API key set and an answer whose articles are all
    complete (a usable url and text, and no string in the record that UTF-8
    cannot encode), it returns exactly one record per article, however
    many articles the answer holds; [max_articles] is only sent to the API
    as [pageSize] and puts no bound on what is ingested. *)
Theorem ingest_query_one_record_per_article (key : pystr) (from_date : Z → pystr)
    (http_get : pystr → list (pystr * pyval) → result pyval)
    (extract : pyval → details) (files : fs) (query : pystr)
    (from_days max_articles : Z) (answer : list (pystr * pyval))
    (articles : list pyval) :
  let w := Web (NewsFetcher.fetch_news (Some key) from_date http_get) extract in
  key ≠ [] →
  http_get NewsFetcher.BASE
    [(lit "q", PStr query); (lit "from", PStr (from_date from_days));
     (lit "language", PStr (lit "en")); (lit "pageSize", PInt max_articles);
     (lit "sortBy", PStr (lit "relevancy")); (lit "apiKey", PStr key)]
  = Ok (PDict answer) →
  dict_get answer (lit "articles") = Some (PList articles) →
  Forall (Spec.complete_article w) articles →
  ∃ docs : list pyval,
    (ingest_query w files query from_days max_articles).2 = Ok docs
    ∧ length docs = length articles.
Proof.
  intros w Hkey Hget Harticles Hall.
  unfold ingest_query. cbn [fetch_news w]. unfold NewsFetcher.fetch_news.
  destruct key as [| c key]; [done |].
  rewrite Hget. cbn [mbind result_bind bind get]. rewrite Harticles.
  cbn [from_option id iter].
  destruct (ingest_loop_complete w articles files [] Hall) as (files' & recs & Hrun & Hlen).
  rewrite Hrun. by exists recs.
Qed.

End Api.

(** Witness for X22: an answer of two articles to a request for one. *)
Lemma ingest_query_one_record_per_article_witness :
  lit "k" ≠ []
  ∧ Forall (Spec.complete_article Examples.newsapi_web) Examples.two_articles
  ∧ ∃ docs : list pyval,
      (Ingestion.ingest_query Examples.newsapi_web [] (lit "q") 1 1).2 = Ok docs
      ∧ length docs = 2%nat.
Proof.
  assert (Hkey : lit "k" ≠ []) by discriminate.
  assert (Hascii : ∀ s : string, Store.encodable (lit s) = true →
                            Forall Spec.scalar_value (lit s)).
  { intros s Hs. by apply encodable_scalar. }
  assert (Hall : Forall (Spec.complete_article Examples.newsapi_web)
                        Examples.two_articles).
  { repeat apply Forall_cons_2; [| | apply Forall_nil_2].
    - eexists _, (lit "http://e.x/1"), (lit "one").
      split; [reflexivity |]. split; [reflexivity |]. split; [discriminate |].
      split; [apply Hascii; reflexivity |].
      split; [reflexivity |]. split; [discriminate |].
      split; [apply Hascii; reflexivity |].
      split; [reflexivity |]. split; [reflexivity |]. by left.
    - eexists _, (lit "http://e.x/2"), (lit "two").
      split; [reflexivity |]. split; [reflexivity |]. split; [discriminate |].
      split; [apply Hascii; reflexivity |].
      split; [reflexivity |]. split; [discriminate |].
      split; [apply Hascii; reflexivity |].
      split; [reflexivity |]. split; [reflexivity |].
      right. eexists. split; reflexivity. }
  split; [exact Hkey |]. split; [exact Hall |].
  exact (ingest_query_one_record_per_article (lit "k") (λ _, lit "2024-01-01")
           (λ _ _, Ok (PDict [(lit "status", PStr (lit "ok"));
                              (lit "articles", PList Examples.two_articles)]))
           (λ _, Examples.failed_scrape) [] (lit "q") 1 1
           [(lit "status", PStr (lit "ok"));
            (lit "articles", PList Examples.two_articles)]
           Examples.two_articles Hkey eq_refl eq_refl Hall).
Defined.

(** ** Retrieval results as objects *)

Lemma index_Forall2 {A B} (R : A → B → Prop) (l1 : list A) (l2 : list B) (i : Z) :
  Forall2 R l1 l2 →
  match index l1 i, index l2 i with
  | Some a, Some b => R a b
  | None, None => True
  | _, _ => False
  end.
Proof.
  intros Hall. unfold index. rewrite <- (Forall2_length _ _ _ Hall).
  assert (Hlookup : ∀ n, match l1 !! n, l2 !! n with
                         | Some a, Some b => R a b
                         | None, None => True
                         | _, _ => False
                         end).
  { intros n. destruct (l1 !! n) as [a |] eqn:Ha.
    - destruct (Forall2_lookup_l _ _ _ _ _ Hall Ha) as (b & -> & Hab). done.
    - apply lookup_ge_None in Ha. rewrite (Forall2_length _ _ _ Hall) in Ha.
      apply lookup_ge_None in Ha. by rewrite Ha. }
  destruct (i <? 0); [destruct (0 <=? i + Z.of_nat (length l1)) |];
    first [apply Hlookup | done].
Qed.

Section ObjectsAgree.
Import Rag RunRag.
Context {vec faiss_index ndarray : Type}.
Variable encode_query : pystr → vec.
Variable search : faiss_index → vec → Z → result (list spec_float * list Z).

Lemma holds_hit_weaken (h h' : heap) (hit : EmbedIndex.hit) (l : loc) :
  h ⊆ h' → Spec.holds_hit h hit l → Spec.holds_hit h' hit l.
Proof.
  intros Hsub (it & d & Hl & Hrank & Hscore & Hmd & Hmeta).
  exists it, d. repeat split; try done; by eapply lookup_weaken.
Qed.

Lemma loops_agree (metadatas : list loc) (entries : list (list (pystr * pyval)))
    (D0 : list spec_float) (I0 : list Z) :
  ∀ (h : heap) (rank : nat) (hits : list EmbedIndex.hit) (results : list loc),
  Forall2 (λ l d, h !! l = Some (ODict d)) metadatas entries →
  (∃ (new_hits : list EmbedIndex.hit) (news : list loc) (h' : heap),
     EmbedIndex.query_loop (map PDict entries) D0 rank I0 hits = Ok (hits ++ new_hits)
     ∧ result_loop h metadatas D0 rank I0 results = Ok (results ++ news, h')
     ∧ h ⊆ h'
     ∧ Forall2 (Spec.holds_hit h') new_hits news)
  ∨ (∃ e, EmbedIndex.query_loop (map PDict entries) D0 rank I0 hits = Raise e
          ∧ result_loop h metadatas D0 rank I0 results = Raise e).
Proof.
  induction I0 as [| idx I0 IH]; intros h rank hits results Hloaded.
  - left. exists [], [], h. rewrite !app_nil_r. by repeat split.
  - cbn [EmbedIndex.query_loop result_loop].
    assert (Hboth : Forall2 (λ l m, ∃ d, m = PDict d ∧ h !! l = Some (ODict d))
                            metadatas (map PDict entries)).
    { apply Forall2_fmap_r. eapply Forall2_impl; [exact Hloaded |].
      intros l d Hl. by exists d. }
    pose proof (index_Forall2 _ _ _ idx Hboth) as Hidx.
    destruct (index metadatas idx) as [meta |],
             (index (map PDict entries) idx) as [m |]; try done.
    2:{ right. by exists IndexError. }
    destruct Hidx as (d & -> & Hmeta).
    cbn [of_option mbind result_bind bind].
    destruct (D0 !! rank) as [sc |]; [| right; by exists IndexError].
    cbn [of_option mbind result_bind bind].
    destruct (alloc h _) as [l h0] eqn:Hl.
    apply alloc_spec in Hl as [Hfresh ->].
    assert (Hsub : h ⊆ <[l := OItem (Item (PInt (Z.of_nat rank + 1)) (PFloat sc) meta)]> h)
      by (by apply insert_subseteq).
    destruct (IH (<[l := OItem (Item (PInt (Z.of_nat rank + 1)) (PFloat sc) meta)]> h)
                (S rank) (hits ++ [EmbedIndex.Hit (Z.of_nat rank + 1) sc (PDict d)])
                (results ++ [l]))
      as [(new_hits & news & h' & Hq & Hr & Hsub' & Hall) | (e & Hq & Hr)].
    { eapply Forall2_impl; [exact Hloaded |]. intros l' d' Hl'.
      eapply lookup_weaken; [exact Hl' | exact Hsub]. }
    + left. exists (EmbedIndex.Hit (Z.of_nat rank + 1) sc (PDict d) :: new_hits),
                   (l :: news), h'.
      rewrite Hq, Hr, <- !app_assoc. split; [done |]. split; [done |].
      split; [by etrans |]. constructor; [| done].
      exists (Item (PInt (Z.of_nat rank + 1)) (PFloat sc) meta), d.
      cbn [Rag.rank Rag.score Rag.metadata EmbedIndex.rank EmbedIndex.score
           EmbedIndex.metadata].
      split; [eapply lookup_weaken; [apply lookup_insert_eq | done] |].
      split; [done |]. split; [done |]. split; [| done].
      eapply lookup_weaken; [| exact Hsub'].
      eapply lookup_weaken; [exact Hmeta | exact Hsub].
    + right. by exists e.
Qed.


End ObjectsAgree.

(** ** A run that raises *)

Section Partial.
Import Store Ingestion.
Variable w : web.

Lemma ingest_loop_app (before after : list pyval) : ∀ (files : fs) (acc : list pyval),
  ingest_loop w files (before ++ after) acc
  = match ingest_loop w files before acc with
    | (files1, Ok acc1) => ingest_loop w files1 after acc1
    | (files1, Raise e) => (files1, Raise e)
    end.
Proof.
  induction before as [| art before IH]; intros files acc; [done |].
  cbn [app ingest_loop].
  destruct (ingest_article w files art) as [files1 [[rec |] | e]]; [apply IH.. | done].
Qed.

(** X24. A run that raises is not rolled back: when the body of the loop
    raises on an article, [ingest_query] raises that exception and the
    articles after it are not looked at. If the exception comes before the
    write, the store is as the articles before it left it. If it comes
    from the write of the record built for the article (a string that
    UTF-8 cannot encode), the record file of that article is left
    unreadable, whatever it held, and the other files are as the articles
    before left them. *)
Theorem ingest_query_stops_at_error (files : fs) (query : pystr)
    (from_days max_articles : Z) (before after : list pyval) (art : pyval)
    (docs : list pyval) (e : exn) :
  fetch_news w query from_days max_articles ≫= iter = Ok (before ++ art :: after) →
  (ingest_loop w files before []).2 = Ok docs →
  (ingest_article w (ingest_loop w files before []).1 art).2 = Raise e →
  let store := (ingest_loop w files before []).1 in
  let run := ingest_query w files query from_days max_articles in
  run.2 = Raise e
  ∧ match doc_record_of w art with
    | Ok (Some (doc_id, doc_record)) =>
        e = UnicodeEncodeError
        ∧ dumpable doc_record = false
        ∧ run.1 = dict_set store (record_path doc_id) (Unreadable JSONDecodeError)
    | _ => run.1 = store
    end.
Proof.
  intros Hfetch Hbefore Hart. cbn zeta. unfold ingest_query. rewrite Hfetch.
  rewrite ingest_loop_app.
  destruct (ingest_loop w files before []) as [files1 r] eqn:Hrun.
  cbn [fst snd] in *. subst r. cbn [ingest_loop].
  unfold ingest_article in *.
  destruct (doc_record_of w art) as [[[doc_id doc_record] |] | e'];
    cbn [fst snd] in *; [| done | by simplify_eq].
  unfold write_json in *.
  destruct (dumpable doc_record); cbn [fst snd mbind result_bind bind] in *; [done |].
  by simplify_eq.
Qed.

End Partial.

(** Witness for X24: the second of three articles repeats the URL of the
    first and carries a lone surrogate in its title; the write fails and
    the record that the first article left is lost. *)
Lemma ingest_query_stops_at_error_witness :
  let before := take 1 Examples.two_articles in
  let after := drop 1 Examples.two_articles in
  let path := Ingestion.record_path (lit "31011696c5c595b7089baae2cf16bdebe81777dc") in
  Ingestion.fetch_news Examples.surrogate_title_web (lit "q") 1 5 ≫= iter
  = Ok (before ++ Examples.surrogate_title_article :: after)
  ∧ (∃ docs, (Ingestion.ingest_loop Examples.surrogate_title_web [] before []).2
             = Ok docs)
  ∧ (Ingestion.ingest_article Examples.surrogate_title_web
       (Ingestion.ingest_loop Examples.surrogate_title_web [] before []).1
       Examples.surrogate_title_article).2 = Raise UnicodeEncodeError
  ∧ (∃ rec, Store.read_json
              (Ingestion.ingest_loop Examples.surrogate_title_web [] before []).1 path
            = Ok rec)
  ∧ (Ingestion.ingest_query Examples.surrogate_title_web [] (lit "q") 1 5).2
    = Raise UnicodeEncodeError
  ∧ Store.read_json
      (Ingestion.ingest_query Examples.surrogate_title_web [] (lit "q") 1 5).1 path
    = Raise JSONDecodeError.
Proof.
  cbn zeta.
  assert (Hfetch : Ingestion.fetch_news Examples.surrogate_title_web (lit "q") 1 5
                   ≫= iter
                   = Ok (take 1 Examples.two_articles
                         ++ Examples.surrogate_title_article
                         :: drop 1 Examples.two_articles))
    by reflexivity.
  assert (Hbefore : ∃ docs, (Ingestion.ingest_loop Examples.surrogate_title_web []
                               (take 1 Examples.two_articles) []).2 = Ok docs)
    by (eexists; vm_compute; reflexivity).
  destruct Hbefore as [docs Hbefore].
  assert (Hart : (Ingestion.ingest_article Examples.surrogate_title_web
                    (Ingestion.ingest_loop Examples.surrogate_title_web []
                       (take 1 Examples.two_articles) []).1
                    Examples.surrogate_title_article).2 = Raise UnicodeEncodeError)
    by (vm_compute; reflexivity).
  split; [exact Hfetch |]. split; [by exists docs |]. split; [exact Hart |].
  split; [eexists; vm_compute; reflexivity |].
  destruct (ingest_query_stops_at_error Examples.surrogate_title_web [] (lit "q") 1 5
              (take 1 Examples.two_articles) (drop 1 Examples.two_articles)
              Examples.surrogate_title_article docs UnicodeEncodeError
              Hfetch Hbefore Hart) as [Hraise _].
  split; [exact Hraise |]. vm_compute. reflexivity.
Defined.

(** ** From a search label to the passage shown *)

Section Matched.
Import Store Rag RunRag.
Context {vec faiss_index ndarray : Type}.
Variable encode_query : pystr → vec.
Variable search : faiss_index → vec → Z → result (list spec_float * list Z).
Variable files : fs.

(** On a keyed store, the entry at a position of the collected metadata
    has a string identifier, and its lookup finds the string collected at
    that position. *)
Lemma collected_entry_lookup (docs metadatas : list pyval) (j : nat) (m : pyval) :
  Spec.keyed_records files →
  EmbedIndex.collect_docs files = Ok (docs, metadatas) →
  metadatas !! j = Some m →
  ∃ (md : list (pystr * pyval)) (rid text : pystr),
    m = PDict md
    ∧ md_get md (lit "doc_id") = PStr rid
    ∧ docs !! j = Some (PStr text)
    ∧ lookup_chunk (load_data_map files) md = Ok (PStr text).
Proof.
  intros Hkeyed Hrun Hj.
  pose proof (sorted_glob_perm files) as Hperm.
  assert (Hall : Forall (Spec.article_file files) (glob_data_json files)
                 ∧ glob_data_json files ≠ []).
  { unfold EmbedIndex.collect_docs in Hrun.
    destruct (sorted (glob_data_json files)) as [| p paths] eqn:Hs; [done |]. split.
    - rewrite <- Hperm. by eapply collect_loop_ok.
    - intros Hnil. rewrite Hnil in Hperm. by apply Permutation_nil_r in Hperm. }
  destruct Hall as [Hall Hne].
  rewrite collect_docs_ok in Hrun by done. injection Hrun as <- <-.
  destruct (aligned_lookup files _ _ _ Hj) as (p & i & doc & Hp & Hdoc & Hcat & ->).
  rewrite Hperm in Hp.
  rewrite Forall_forall in Hall. destruct (Hall p Hp) as (d0 & items & Hread & _).
  destruct (Hkeyed p _ Hp Hread) as (rid & d & cs & [= ->] & -> & Hne' & Hid & Hchunks).
  assert (Hcs : map PStr cs !! i = Some doc).
  { unfold Spec.chunks_of in Hdoc. rewrite Hread in Hdoc.
    cbn [mbind result_bind bind get] in Hdoc. by rewrite Hchunks in Hdoc. }
  destruct (lookup_chunk_unique_record files (Ingestion.record_path rid) d rid
              (map PStr cs) i doc) as (md & Hmd & _ & Hlookup & _); try done.
  { intros p' rec' k Hp' Hread' Hk Heq.
    destruct (Hkeyed p' rec' Hp' Hread') as (rid' & d' & cs' & -> & -> & _ & Hid' & _).
    cbn [get] in Hk. rewrite Hid' in Hk. cbn in Hk. injection Hk as <-.
    apply key_eqb_str_r in Heq. injection Heq as ->. congruence. }
  apply list_lookup_fmap_Some in Hcs as (text & -> & _).
  exists md, rid, text. split; [done |]. split; [| done].
  unfold Spec.describes in Hmd. rewrite Hread in Hmd.
  unfold Spec.field at 1 in Hmd. cbn [get] in Hmd. rewrite Hid in Hmd.
  cbn [from_option id] in Hmd.
  destruct (metadata_entry_fields (PStr rid) (Spec.field (PDict d) (lit "title"))
              (Spec.field (PDict d) (lit "url")) (Spec.field (PDict d) (lit "source"))
              (Spec.field (PDict d) (lit "publishedAt")) i)
    as (md0 & Hmd0 & Hmid & _).
  congruence.
Qed.

(** X25. The passage shown for a search result is the text that was
    matched: on a keyed store whose collection gave the texts [docs] and
    the indexed entries, for labels within the index, retrieval followed by
    enrichment gives one result per label, and the result for label [idx]
    has [docs[idx]], the text embedded at that label, as its passage (when
    that text is not empty). *)
Theorem evidence_is_matched_text (index : faiss_index)
    (entries : list (list (pystr * pyval))) (embs : ndarray) (h : heap)
    (docs : list pyval) (query_text : pystr) (top_k : Z)
    (D0 : list spec_float) (I0 : list Z) :
  Spec.keyed_records files →
  EmbedIndex.collect_docs files = Ok (docs, map PDict entries) →
  search index (encode_query query_text) top_k = Ok (D0, I0) →
  length D0 = length I0 →
  Forall (λ idx, 0 ≤ idx < Z.of_nat (length entries)) I0 →
  ∃ (raw : list loc) (h1 : heap) (enriched : list loc) (h2 : heap),
    query_index encode_query search (Some (index, entries, embs)) h query_text top_k
    = Ok (raw, h1)
    ∧ prepare_retrieved_with_texts files h1 raw = Ok (enriched, h2)
    ∧ length enriched = length I0
    ∧ ∀ (r : nat) (l : loc) (idx : Z),
        enriched !! r = Some l → I0 !! r = Some idx →
        ∃ text : pystr,
          docs !! Z.to_nat idx = Some (PStr text)
          ∧ (text ≠ [] → Spec.has_passage h2 l text).
Proof.
  intros Hkeyed Hcollect Hsearch HlenD Hrange.
  unfold query_index. cbn [of_option mbind result_bind bind].
  destruct (load_metadatas_spec entries h) as (metadatas & h0 & -> & Hsub0 & Hloaded).
  rewrite Hsearch. cbn [mbind result_bind bind].
  destruct (query_loop_hits (map PDict entries) D0 I0 0%nat [])
    as (hits & Hhits & Hhits_len & Hhits_spec).
  { intros idx Hidx. rewrite Forall_forall in Hrange. specialize (Hrange idx Hidx).
    apply index_is_Some. rewrite length_map. lia. }
  { lia. }
  destruct (loops_agree metadatas entries D0 I0 h0 0%nat [] [] Hloaded)
    as [(hits' & raw & h1 & Hq & -> & Hsub1 & Hholds) | (e & Hq & _)];
    [| congruence].
  cbn [app] in *. assert (hits' = hits) as -> by congruence.
  assert (Hstr : Spec.records_of_strings files) by (by apply keyed_records_strings).
  assert (Hresults : Forall (Spec.retrieval_result h1) raw).
  { apply Forall_forall. intros l [r Hr]%list_elem_of_lookup.
    destruct (Forall2_lookup_r _ _ _ _ _ Hholds Hr)
      as (hit & Hhit & it & d & Hl & _ & _ & Hmd & Hmeta).
    destruct (Hhits_spec r hit Hhit) as (_ & _ & idx & Hidx & Hentry).
    rewrite Forall_forall in Hrange.
    specialize (Hrange idx (list_elem_of_lookup_2 _ _ _ Hidx)).
    rewrite index_nonneg in Hentry by lia. rewrite Hmeta in Hentry.
    destruct (collected_entry_lookup _ _ _ _ Hkeyed Hcollect Hentry)
      as (md & rid & text & [= <-] & Hrid & _).
    exists it, d. split; [done |]. split; [done |]. by rewrite Hrid. }
  destruct (enrich_loop_spec files raw h1 h1 [] (records_of_strings_typed files Hstr))
    as (enriched & h2 & Hprep & Hsub2 & Hrel); [done | done |].
  exists raw, h1, enriched, h2. split; [done |]. split; [exact Hprep |].
  split; [rewrite <- (Forall2_length _ _ _ Hrel), <- (Forall2_length _ _ _ Hholds); lia |].
  intros r li idx Hli Hidx.
  destruct (Forall2_lookup_r _ _ _ _ _ Hrel Hli)
    as (l & Hl & it & md & it' & md' & found & Hit & Hmd & _ & _ & Hit' & Hmd'
        & _ & _ & _ & Hfound & Htext).
  destruct (Forall2_lookup_r _ _ _ _ _ Hholds Hl)
    as (hit & Hhit & it0 & d & Hl0 & _ & _ & Hd & Hmeta).
  assert (it0 = it) as -> by congruence.
  assert (d = md) as -> by congruence.
  destruct (Hhits_spec r hit Hhit) as (_ & _ & idx' & Hidx' & Hentry).
  assert (idx' = idx) as -> by congruence.
  rewrite Forall_forall in Hrange.
  specialize (Hrange idx (list_elem_of_lookup_2 _ _ _ Hidx)).
  rewrite index_nonneg in Hentry by lia. rewrite Hmeta in Hentry.
  destruct (collected_entry_lookup _ _ _ _ Hkeyed Hcollect Hentry)
    as (md0 & rid & text & [= <-] & _ & Hdoc & Hlookup).
  assert (found = PStr text) as -> by congruence.
  exists text. split; [done |]. intros Hne.
  exists it', md'. split; [done |]. split; [done |].
  apply passage_text_chunk_text; [| by destruct text].
  rewrite Htext. by destruct text.
Qed.

End Matched.

(** Witness for X25: the index over the two sample files, labels 1 and 0. *)
Lemma evidence_is_matched_text_witness :
  Spec.keyed_records Examples.two_files
  ∧ EmbedIndex.collect_docs Examples.two_files
    = Ok (Examples.collected_docs, map PDict Examples.collected_entries)
  ∧ Forall (λ idx, 0 ≤ idx < Z.of_nat (length Examples.collected_entries)) [1; 0]
  ∧ ∃ (raw : list Rag.loc) (h1 : Rag.heap) (enriched : list Rag.loc) (h2 : Rag.heap),
      RunRag.query_index (λ _, tt) Examples.search_two
        (Some (tt, Examples.collected_entries, tt)) ∅ (lit "q") 2 = Ok (raw, h1)
      ∧ Rag.prepare_retrieved_with_texts Examples.two_files h1 raw = Ok (enriched, h2)
      ∧ ∀ l, enriched !! 0%nat = Some l → Spec.has_passage h2 l (lit "a1").
Proof.
  assert (Hcollect : EmbedIndex.collect_docs Examples.two_files
                     = Ok (Examples.collected_docs, map PDict Examples.collected_entries))
    by (vm_compute; reflexivity).
  assert (Hrange : Forall (λ idx, 0 ≤ idx < Z.of_nat (length Examples.collected_entries))
                          [1; 0]).
  { repeat apply Forall_cons_2; [| | apply Forall_nil_2]; simpl; lia. }
  split; [exact two_files_keyed |]. split; [exact Hcollect |]. split; [exact Hrange |].
  destruct (evidence_is_matched_text (λ _, tt) Examples.search_two Examples.two_files
              tt Examples.collected_entries tt ∅ Examples.collected_docs (lit "q") 2
              [Examples.f_zero; Examples.f_one] [1; 0]
              two_files_keyed Hcollect eq_refl eq_refl Hrange)
    as (raw & h1 & enriched & h2 & Hquery & Hprep & _ & Hpassage).
  exists raw, h1, enriched, h2. split; [exact Hquery |]. split; [exact Hprep |].
  intros l Hl.
  destruct (Hpassage 0%nat l 1 Hl eq_refl) as (text & Hdoc & Htext).
  injection Hdoc as <-. by apply Htext.
Defined.

(** ** The chunks of ingested records *)

Lemma chunk_text_default_chunks (full_text : pyval) (chunks : list pystr) :
  Ingestion.chunk_text_default full_text = Ok chunks →
  Forall (λ c, c ≠ [] ∧ (1 <= length (split c) <= 350)%nat) chunks.
Proof.
  unfold Ingestion.chunk_text_default.
  destruct full_text as [| | | | text | |]; try done.
  destruct (chunk_text_windows text 350 50) as (k & Hrun & _ & Hstarts); [lia |].
  change (Z.of_nat 350) with 350 in Hrun. change (Z.of_nat 50) with 50 in Hrun.
  rewrite Hrun by lia. intros [= <-].
  apply Forall_forall. intros c Hc.
  apply list_elem_of_fmap in Hc as (j & -> & Hj).
  apply elem_of_seq in Hj as [_ Hj]. cbn [Nat.add] in Hj.
  specialize (Hstarts j Hj).
  set (c := join _ _).
  assert (Hsplit : split c = take 350 (drop (j * (350 - 50)) (split text)))
    by apply window_words, split_words.
  assert (Hwords : (1 <= length (split c) <= 350)%nat).
  { rewrite Hsplit, length_take, length_drop. lia. }
  split; [| done].
  intros Hnil. rewrite Hnil in Hwords. cbn in Hwords. lia.
Qed.

Section Records.
Import Store Ingestion.
Variable w : web.

Lemma ingest_loop_records (P : pyval → Prop) (articles : list pyval) :
  (∀ art files files' rec,
     ingest_article w files art = (files', Ok (Some rec)) → P rec) →
  ∀ (files files' : fs) (acc docs : list pyval),
  ingest_loop w files articles acc = (files', Ok docs) →
  Forall P acc → Forall P docs.
Proof.
  intros HP. induction articles as [| art articles IH];
    intros files files' acc docs Hrun Hacc.
  - by simplify_eq/=.
  - cbn [ingest_loop] in Hrun.
    destruct (ingest_article w files art) as [files1 [[rec |] |]] eqn:Hart; [| | done].
    + eapply IH; [exact Hrun |]. apply Forall_app. split; [done |].
      constructor; [by eapply HP | constructor].
    + by eapply IH.
Qed.

(** X26. Every record that [ingest_query] returns holds a list of chunks
    that are non-empty strings of one to 350 words each. *)
Theorem ingested_chunks_bounded (files : fs) (query : pystr)
    (from_days max_articles : Z) (docs : list pyval) :
  (ingest_query w files query from_days max_articles).2 = Ok docs →
  ∀ rec, rec ∈ docs →
    ∃ chunks : list pystr,
      get rec (lit "chunks") PNone = Ok (PList (map PStr chunks))
      ∧ Forall (λ c, c ≠ [] ∧ (1 <= length (split c) <= 350)%nat) chunks.
Proof.
  intros Hrun. unfold ingest_query in Hrun.
  destruct (fetch_news w query from_days max_articles ≫= iter) as [articles | e];
    [| done].
  destruct (ingest_loop w files articles []) as [files' r] eqn:Hloop.
  cbn [snd] in Hrun. subst r.
  apply Forall_forall.
  eapply (ingest_loop_records _ articles); [| exact Hloop | constructor].
  intros art files0 files1 rec Hart.
  destruct (ingest_article_cases w art)
    as [[e He] | [Hskip | (u & text & rid & chunks & d & _ & _ & _ & Hchunks & _ & _ & Hd & Hw)]].
  - rewrite He in Hart. done.
  - rewrite Hskip in Hart. done.
  - rewrite Hw in Hart. destruct (dumpable (PDict d)); [| done].
    injection Hart as _ <-.
    exists chunks. cbn [get]. rewrite Hd. split; [done |].
    by eapply chunk_text_default_chunks.
Qed.

End Records.

(** Witness for X26: one article ingested into an empty store. *)
Lemma ingested_chunks_bounded_witness :
  (Ingestion.ingest_query (Examples.one_article "old words") [] (lit "q") 1 5).2
  = Ok Examples.first_run_docs
  ∧ ∀ rec, rec ∈ Examples.first_run_docs →
      ∃ chunks : list pystr,
        get rec (lit "chunks") PNone = Ok (PList (map PStr chunks))
        ∧ Forall (λ c, c ≠ [] ∧ (1 <= length (split c) <= 350)%nat) chunks.
Proof.
  assert (Hrun : (Ingestion.ingest_query (Examples.one_article "old words") []
                    (lit "q") 1 5).2 = Ok Examples.first_run_docs)
    by (vm_compute; reflexivity).
  split; [exact Hrun |].
  exact (ingested_chunks_bounded (Examples.one_article "old words") [] (lit "q") 1 5
           Examples.first_run_docs Hrun).
Defined.
